(** * Arke Edit SDK: the edit orchestration engine

    A shallow embedding of [src/diff.ts] (DiffEngine), [src/prompts.ts]
    (PromptBuilder), [src/client.ts] (ArkeClient) and [src/session.ts]
    (EditSession), and the properties of the design document checked
    against them.

    Conventions.
    - A JavaScript string is the list of its UTF-16 code units.
    - A [Record<string, string>] is an association list in insertion
      order, which is the order [Object.entries] enumerates (keys are
      component names and prompt targets, none of them an array index).
    - The npm package [diff] is external: its two entry points are the
      fields of the class [DiffLibrary].
    - The network is a script of outcomes consumed by [fetch], one per
      call; every request and every sleep is recorded in a log. *)

From Stdlib Require Import ZArith NArith Lia Bool.
From stdpp Require Import base list strings pretty.

Local Open Scope Z_scope.
Set Warnings "-register-all".
Set Default Proof Using "Type*".


(* ================================================================== *)
(** * JavaScript strings *)
(* ================================================================== *)

Module Js.

Definition jsstring := list N.

(** An ASCII literal as a sequence of code units. *)
Definition lit (s : string) : jsstring :=
  map Ascii.N_of_ascii (String.list_ascii_of_string s).

Definition eqb (a b : jsstring) : bool := bool_decide (a = b).

(** [WhiteSpace] and [LineTerminator] of ECMA-262: the characters matched
    by [\s] in a regular expression and stripped by [String.prototype.trim]. *)
Definition isWhiteSpace (c : N) : bool :=
  ((9 <=? c) && (c <=? 13)            (* TAB LF VT FF CR *)
   || (c =? 32)                        (* SPACE *)
   || (c =? 160)                       (* NBSP *)
   || (c =? 5760)                      (* U+1680 *)
   || ((8192 <=? c) && (c <=? 8202))   (* U+2000 .. U+200A *)
   || (c =? 8232) || (c =? 8233)       (* LS, PS *)
   || (c =? 8239) || (c =? 8287)       (* U+202F, U+205F *)
   || (c =? 12288)                     (* U+3000 *)
   || (c =? 65279))%N.                 (* U+FEFF *)

Definition SPACE : N := 32%N.
Definition NEWLINE : N := 10%N.

(** [s.trimStart()] *)
Fixpoint trimStart (s : jsstring) : jsstring :=
  match s with
  | [] => []
  | c :: r => if isWhiteSpace c then trimStart r else s
  end.

(** [s.trimEnd()] *)
Fixpoint trimEnd (s : jsstring) : jsstring :=
  match s with
  | [] => []
  | c :: r =>
      match trimEnd r with
      | [] => if isWhiteSpace c then [] else [c]
      | r' => c :: r'
      end
  end.

(** [s.trim()] *)
Definition trim (s : jsstring) : jsstring := trimEnd (trimStart s).

(** [s.replace(/\s+/g, ' ')]: every maximal run of white space becomes one
    space.  [inRun] tells that the previous character belonged to the run
    being replaced. *)
Fixpoint replaceWsRuns (inRun : bool) (s : jsstring) : jsstring :=
  match s with
  | [] => []
  | c :: r =>
      if isWhiteSpace c
      then (if inRun then replaceWsRuns true r else SPACE :: replaceWsRuns true r)
      else c :: replaceWsRuns false r
  end.

Definition collapseWhitespace (s : jsstring) : jsstring := replaceWsRuns false s.

(** [s.split('\n').length - 1]: the number of line feeds in [s]. *)
Definition countNewlines (s : jsstring) : Z :=
  Z.of_nat (length (filter (fun c => c = NEWLINE) s)).

(** [parts.join(sep)] *)
Fixpoint join (sep : jsstring) (parts : list jsstring) : jsstring :=
  match parts with
  | [] => []
  | [p] => p
  | p :: rest => p ++ sep ++ join sep rest
  end.

(** [s.slice(0, n)] for [0 <= n] *)
Definition slice0 (n : nat) (s : jsstring) : jsstring := take n s.

(** Truthiness of a [string | undefined]: defined and not empty. *)
Definition truthy (o : option jsstring) : bool :=
  match o with
  | Some (_ :: _) => true
  | _ => false
  end.

(** [a || b] on [string | undefined] *)
Definition or (a b : option jsstring) : option jsstring :=
  if truthy a then a else b.

(** [a || 'text'] with a string literal on the right. *)
Definition orElse (a : option jsstring) (b : jsstring) : jsstring :=
  match a with
  | Some (c :: r) => c :: r
  | _ => b
  end.

(** [`${n}`] for an integral number. *)
Definition ofZ (n : Z) : jsstring := lit (pretty n).

(** [`${x}`] for a [string | undefined]. *)
Definition ofOpt (o : option jsstring) : jsstring :=
  match o with
  | Some s => s
  | None => lit "undefined"
  end.

(** The arrow of the prompt templates, U+2192. *)
Definition ARROW : jsstring := [8594%N].

(** ** [Record<string, string>] *)

Definition record (V : Type) := list (jsstring * V).

(** The own property [k] of [o]: what [Object.entries(o)], the spread
    [{...o}] and a read [o[k]] of a name that [Object.prototype] does not
    have give.  A read [o[k]] of a name for which [inherited] holds finds the
    inherited property when [o] has no own one; the properties of the
    functions that read a name of the caller's choice ([loadComponent],
    [getDiff]) are stated for names that are not inherited. *)
Fixpoint get {V} (o : record V) (k : jsstring) : option V :=
  match o with
  | [] => None
  | (k', v) :: r => if eqb k' k then Some v else get r k
  end.

(** The key an assignment [o[k] = v] of a string does not store: the
    assignment calls the setter of [Object.prototype], which ignores a value
    that is not an object. *)
Definition PROTO : jsstring := lit "__proto__".

(** A record lists its properties in the order of [Object.entries] and
    [Object.keys]: the keys that are array indices first, by their number, then
    the other keys in the order in which they were created. *)

Definition isDigit (c : N) : bool := ((48 <=? c) && (c <=? 57))%N.

Definition digitsValue (k : jsstring) : N :=
  fold_left (fun acc c => acc * 10 + (c - 48))%N k 0%N.

(** An array index: the decimal writing, without leading zeros, of a number
    up to 2^32 - 2. *)
Definition arrayIndex (k : jsstring) : option N :=
  match k with
  | [] => None
  | c :: r =>
      if forallb isDigit k
         && (negb (c =? 48)%N || match r with [] => true | _ => false end)
         && (digitsValue k <=? 4294967294)%N
      then Some (digitsValue k)
      else None
  end.

(** The value of an existing property replaced, the property keeping its
    place. *)
Fixpoint update {V} (o : record V) (k : jsstring) (v : V) : record V :=
  match o with
  | [] => []
  | (k', v') :: r => if eqb k' k then (k', v) :: r else (k', v') :: update r k v
  end.

(** A new property with the array index [i]: before the first property that
    is not an array index or has a larger one. *)
Fixpoint insertIndex {V} (o : record V) (i : N) (k : jsstring) (v : V) : record V :=
  match o with
  | [] => [(k, v)]
  | (k', v') :: r =>
      match arrayIndex k' with
      | Some j => if (j <? i)%N then (k', v') :: insertIndex r i k v
                  else (k, v) :: (k', v') :: r
      | None => (k, v) :: (k', v') :: r
      end
  end.

(** A property [k] defined on [o]: an existing one keeps its place, a new
    one goes last, or among the array indices if it is one. *)
Definition put {V} (o : record V) (k : jsstring) (v : V) : record V :=
  match get o k with
  | Some _ => update o k v
  | None =>
      match arrayIndex k with
      | Some i => insertIndex o i k v
      | None => o ++ [(k, v)]
      end
  end.

(** [o[k] = v] on a plain object, with a string for [v]. *)
Definition set {V} (o : record V) (k : jsstring) (v : V) : record V :=
  if eqb k PROTO then o else put o k v.

(** [delete o[k]] *)
Fixpoint delete {V} (o : record V) (k : jsstring) : record V :=
  match o with
  | [] => []
  | (k', v') :: r => if eqb k' k then r else (k', v') :: delete r k
  end.

(** The property names of [Object.prototype], which every plain object
    inherits: [Object.getOwnPropertyNames(Object.prototype)]. *)
Definition inheritedNames : list jsstring :=
  [lit "constructor"; lit "__defineGetter__"; lit "__defineSetter__";
   lit "hasOwnProperty"; lit "__lookupGetter__"; lit "__lookupSetter__";
   lit "isPrototypeOf"; lit "propertyIsEnumerable"; lit "toString";
   lit "valueOf"; PROTO; lit "toLocaleString"].

Definition inherited (k : jsstring) : bool := existsb (eqb k) inheritedNames.

End Js.

Import Js.

(* ================================================================== *)
(** * Types ([src/types.ts]) *)
(* ================================================================== *)

Inductive EditMode := ai_prompt | manual_with_review | manual_only.

Inductive RegeneratableComponent := pinax | description | cheimarros.

Inductive PromptTarget :=
| target_component (c : RegeneratableComponent)
| target_general
| target_reorganization.

Definition componentName (c : RegeneratableComponent) : jsstring :=
  match c with
  | pinax => lit "pinax"
  | description => lit "description"
  | cheimarros => lit "cheimarros"
  end.

Definition targetName (t : PromptTarget) : jsstring :=
  match t with
  | target_component c => componentName c
  | target_general => lit "general"
  | target_reorganization => lit "reorganization"
  end.

Record Entity := {
  e_pi : jsstring;
  e_ver : Z;
  e_ts : jsstring;
  e_manifest_cid : jsstring;
  e_components : record jsstring;
  e_children_pi : list jsstring;
  e_parent_pi : option jsstring;
  e_note : option jsstring;
}.

Record EntityUpdate := {
  expect_tip : jsstring;
  upd_components : option (record jsstring);
  components_remove : option (list jsstring);
  upd_note : jsstring;
}.

Record EntityVersion := {
  v_pi : jsstring;
  v_tip : jsstring;
  v_ver : Z;
}.

Record EditScope := {
  components : list RegeneratableComponent;
  cascade : bool;
  stopAtPi : option jsstring;
}.

Record Correction := {
  original : jsstring;
  corrected : jsstring;
  sourceFile : option jsstring;
  context : option jsstring;
}.

Inductive DiffType := addition | deletion | change | unchanged.

Record TextDiff := {
  td_type : DiffType;
  td_original : option jsstring;
  td_modified : option jsstring;
  td_lineNumber : option Z;
}.

Record ComponentDiff := {
  cd_componentName : jsstring;
  cd_diffs : list TextDiff;
  cd_summary : jsstring;
  cd_hasChanges : bool;
}.

Record EntityContext := {
  ctx_pi : jsstring;
  ctx_ver : Z;
  ctx_parentPi : option jsstring;
  ctx_childrenCount : Z;
  ctx_currentContent : record jsstring;
}.

Record CascadeContext := {
  cc_path : list jsstring;
  cc_depth : Z;
  cc_stopAtPi : option jsstring;
}.

Record CustomPrompts := {
  cp_general : option jsstring;
  cp_pinax : option jsstring;
  cp_description : option jsstring;
  cp_cheimarros : option jsstring;
  cp_reorganization : option jsstring;
}.

Record ReprocessRequest := {
  rq_pi : jsstring;
  rq_phases : list RegeneratableComponent;
  rq_cascade : bool;
  rq_stop_at_pi : option jsstring;
  rq_custom_prompts : option CustomPrompts;
  rq_custom_note : option jsstring;
}.

Record ReprocessResult := {
  batch_id : jsstring;
  entities_queued : Z;
  entity_pis : list jsstring;
  status_url : jsstring;
}.

Inductive ReprocessPhase :=
| QUEUED | DISCOVERY | OCR_IN_PROGRESS | REORGANIZATION | PINAX_EXTRACTION
| CHEIMARROS_EXTRACTION | DESCRIPTION | DONE | ERROR.

Record ReprocessProgress := {
  directories_total : Z;
  directories_pinax_complete : Z;
  directories_cheimarros_complete : Z;
  directories_description_complete : Z;
}.

Record ReprocessStatus := {
  rs_batch_id : jsstring;
  rs_status : ReprocessPhase;
  rs_progress : ReprocessProgress;
  rs_root_pi : option jsstring;
  rs_error : option jsstring;
  rs_started_at : option jsstring;
  rs_completed_at : option jsstring;
}.

Record SaveResult := {
  sr_pi : jsstring;
  sr_newVersion : Z;
  sr_newTip : jsstring;
}.

Record EditResult := {
  saved : option SaveResult;
  reprocessed : option ReprocessResult;
}.

Inductive EditPhase := phase_idle | phase_saving | phase_reprocessing | phase_complete | phase_error.

Record EditStatus := {
  es_phase : EditPhase;
  es_saveComplete : bool;
  es_reprocessStatus : option ReprocessStatus;
  es_error : option jsstring;
}.

(** The error classes of [types.ts], and [PlainError] for what the SDK does
    not construct itself: the [TypeError] of a failed [fetch], the
    [SyntaxError] of [response.json()], a [new Error(...)]. *)
Inductive JsError :=
| PlainError (message : jsstring)
| ArkeEditError (message code : jsstring) (status : Z) (cid : option jsstring)
| EntityNotFoundError (pi : jsstring)
| CASConflictError (pi expectedTip actualTip : jsstring)
| ReprocessError (message : jsstring) (batchId : option jsstring)
| ValidationError (message : jsstring) (field : option jsstring).

(* ================================================================== *)
(** * The [diff] package (external) *)
(* ================================================================== *)

(** A change object as [Diff.diffLines] and [Diff.diffWords] return it. *)
Record Change := {
  value : jsstring;
  added : bool;
  removed : bool;
}.

Class DiffLibrary := {
  Diff_diffLines : jsstring -> jsstring -> list Change;
  Diff_diffWords : jsstring -> jsstring -> list Change;
}.

Definition NL : jsstring := [NEWLINE].
Definition QUOTE : jsstring := [34%N].

(* ================================================================== *)
(** * DiffEngine ([src/diff.ts]) *)
(* ================================================================== *)

Module DiffEngine.
Section WithDiffLibrary.
Context {D : DiffLibrary}.

(** The loop of [diff]: [lineNumber] is the running line counter. *)
Fixpoint diff_loop (changes : list Change) (lineNumber : Z) : list TextDiff :=
  match changes with
  | [] => []
  | c :: rest =>
      if added c then
        {| td_type := addition; td_original := None;
           td_modified := Some (trimEnd (value c));
           td_lineNumber := Some lineNumber |}
        :: diff_loop rest (lineNumber + countNewlines (value c))
      else if removed c then
        {| td_type := deletion; td_original := Some (trimEnd (value c));
           td_modified := None;
           td_lineNumber := Some lineNumber |}
        :: diff_loop rest lineNumber
      else diff_loop rest (lineNumber + countNewlines (value c))
  end.

Definition diff (original modified : jsstring) : list TextDiff :=
  diff_loop (Diff_diffLines original modified) 1.

Fixpoint diffWords_loop (changes : list Change) : list TextDiff :=
  match changes with
  | [] => []
  | c :: rest =>
      if added c then
        {| td_type := addition; td_original := None;
           td_modified := Some (value c); td_lineNumber := None |}
        :: diffWords_loop rest
      else if removed c then
        {| td_type := deletion; td_original := Some (value c);
           td_modified := None; td_lineNumber := None |}
        :: diffWords_loop rest
      else diffWords_loop rest
  end.

Definition diffWords (original modified : jsstring) : list TextDiff :=
  diffWords_loop (Diff_diffWords original modified).

Definition isType (t : DiffType) (d : TextDiff) : bool :=
  match t, td_type d with
  | addition, addition | deletion, deletion
  | change, change | unchanged, unchanged => true
  | _, _ => false
  end.

(** [`${n} addition${n > 1 ? 's' : ''}`] *)
Definition plural (n : Z) (word : jsstring) : jsstring :=
  ofZ n ++ lit " " ++ word ++ (if 1 <? n then lit "s" else []).

Definition createComponentDiff (componentName original modified : jsstring)
  : ComponentDiff :=
  let diffs := diff original modified in
  let hasChanges := 0 <? Z.of_nat (length diffs) in
  let summary :=
    if negb hasChanges then lit "No changes"
    else
      let additions := Z.of_nat (length (List.filter (isType addition) diffs)) in
      let deletions := Z.of_nat (length (List.filter (isType deletion) diffs)) in
      let parts :=
        (if 0 <? additions then [plural additions (lit "addition")] else [])
        ++ (if 0 <? deletions then [plural deletions (lit "deletion")] else []) in
      join (lit ", ") parts in
  {| cd_componentName := componentName; cd_diffs := diffs;
     cd_summary := summary; cd_hasChanges := hasChanges |}.

(** One iteration of the loop of [formatForPrompt]: the lines pushed. *)
Definition formatLine (d : TextDiff) : list jsstring :=
  let linePrefix :=
    match td_lineNumber d with
    | Some n => if n =? 0 then [] else lit "Line " ++ ofZ n ++ lit ": "
    | None => []
    end in
  match td_type d with
  | addition => [linePrefix ++ lit "+ " ++ ofOpt (td_modified d)]
  | deletion => [linePrefix ++ lit "- " ++ ofOpt (td_original d)]
  | change =>
      [linePrefix ++ QUOTE ++ ofOpt (td_original d) ++ QUOTE ++ lit " "
       ++ ARROW ++ lit " " ++ QUOTE ++ ofOpt (td_modified d) ++ QUOTE]
  | unchanged => []
  end.

Definition formatForPrompt (diffs : list TextDiff) : jsstring :=
  match diffs with
  | [] => lit "No changes detected."
  | _ => join NL (concat (map formatLine diffs))
  end.

Definition formatComponentDiffsForPrompt (componentDiffs : list ComponentDiff)
  : jsstring :=
  join NL
    (concat
       (map (fun cd =>
               if negb (cd_hasChanges cd) then []
               else [lit "## Changes to " ++ cd_componentName cd ++ lit ":";
                     formatForPrompt (cd_diffs cd);
                     []])
            componentDiffs)).

(** The [while] loop of [extractCorrections].  [i] is the scan index and
    [corrections] the list pushed to so far; [fuel] bounds the number of
    iterations, and [None] means the bound was reached. *)
Fixpoint extract_loop (fuel : nat) (wordDiffs : list Change)
    (sourceFile : option jsstring) (i : nat) (corrections : list Correction)
  : option (list Correction) :=
  match fuel with
  | O => None
  | S fuel' =>
      match wordDiffs !! i with
      | None => Some corrections
      | Some current =>
          match wordDiffs !! (i + 1)%nat with
          | Some next =>
              if removed current && added next then
                let removedText := trim (value current) in
                let addedText := trim (value next) in
                let corrections' :=
                  if truthy (Some removedText) && truthy (Some addedText)
                     && negb (eqb removedText addedText)
                  then corrections ++
                       [{| original := removedText; corrected := addedText;
                           sourceFile := sourceFile; context := None |}]
                  else corrections in
                extract_loop fuel' wordDiffs sourceFile (i + 2)%nat corrections'
              else extract_loop fuel' wordDiffs sourceFile (i + 1)%nat corrections
          | None => extract_loop fuel' wordDiffs sourceFile (i + 1)%nat corrections
          end
      end
  end.

(** The scan index grows at every iteration, so one more iteration than
    there are records is all the loop can take. *)
Definition extractCorrections (original modified : jsstring)
    (sourceFile : option jsstring) : option (list Correction) :=
  let wordDiffs := Diff_diffWords original modified in
  extract_loop (S (length wordDiffs)) wordDiffs sourceFile 0%nat [].

Definition normalizeWhitespace (s : jsstring) : jsstring :=
  trim (collapseWhitespace s).

Definition hasSignificantChanges (original modified : jsstring) : bool :=
  let normalizedOriginal := normalizeWhitespace original in
  let normalizedModified := normalizeWhitespace modified in
  negb (eqb normalizedOriginal normalizedModified).

End WithDiffLibrary.
End DiffEngine.

(* ================================================================== *)
(** * PromptBuilder ([src/prompts.ts]) *)
(* ================================================================== *)

Module PromptBuilder.
Section WithDiffLibrary.
Context {D : DiffLibrary}.

Definition FENCE : jsstring := lit "```".

Definition buildAIPrompt (userPrompt : jsstring) (component : RegeneratableComponent)
    (entityContext : EntityContext) (currentContent : option jsstring) : jsstring :=
  let sections :=
    [lit "## Instructions for " ++ componentName component;
     userPrompt;
     [];
     lit "## Entity Context";
     lit "- PI: " ++ ctx_pi entityContext;
     lit "- Current version: " ++ ofZ (ctx_ver entityContext)]
    ++ (if truthy (ctx_parentPi entityContext)
        then [lit "- Parent: " ++ ofOpt (ctx_parentPi entityContext)] else [])
    ++ (if 0 <? ctx_childrenCount entityContext
        then [lit "- Children: " ++ ofZ (ctx_childrenCount entityContext)] else [])
    ++ [[]]
    ++ (match currentContent with
        | Some ((_ :: _) as content) =>
            [lit "## Current " ++ componentName component ++ lit " content for reference:";
             FENCE;
             slice0 2000 content]
            ++ (if 2000 <? Z.of_nat (length content) then [lit "... [truncated]"] else [])
            ++ [FENCE]
        | _ => []
        end) in
  join NL sections.

Definition correctionLine (c : Correction) : jsstring :=
  let source :=
    if truthy (sourceFile c) then lit " (in " ++ ofOpt (sourceFile c) ++ lit ")" else [] in
  lit "- " ++ QUOTE ++ original c ++ QUOTE ++ lit " " ++ ARROW ++ lit " "
  ++ QUOTE ++ corrected c ++ QUOTE ++ source.

Definition guidance (component : RegeneratableComponent) : jsstring :=
  match component with
  | pinax =>
      lit "Update metadata fields to reflect any corrections. Pay special attention to dates, "
      ++ lit "names, and other factual information that may have been corrected."
  | description =>
      lit "Regenerate the description incorporating the changes. Maintain the overall tone "
      ++ lit "and structure while ensuring accuracy based on the corrections."
  | cheimarros =>
      lit "Update the knowledge graph to reflect any new or corrected entities, relationships, "
      ++ lit "and facts identified in the changes."
  end.

Definition buildEditReviewPrompt (componentDiffs : list ComponentDiff)
    (corrections : list Correction) (component : RegeneratableComponent)
    (userInstructions : option jsstring) : jsstring :=
  let diffContent := DiffEngine.formatComponentDiffsForPrompt componentDiffs in
  let sections :=
    [lit "## Manual Edits Made";
     [];
     lit "The following manual edits were made to this entity:";
     []]
    ++ (if truthy (Some diffContent) then [diffContent] else [])
    ++ (match corrections with
        | [] => []
        | _ => [lit "## Corrections Identified"; []]
               ++ map correctionLine corrections ++ [[]]
        end)
    ++ [lit "## Instructions"]
    ++ [match userInstructions with
        | Some ((_ :: _) as text) => text
        | _ =>
            lit "Update the " ++ componentName component
            ++ lit " to accurately reflect these changes. "
            ++ lit "Ensure any corrections are incorporated and the content is consistent."
        end]
    ++ [[]]
    ++ [lit "## Guidance"; guidance component] in
  join NL sections.

Definition buildCascadePrompt (basePrompt : jsstring) (cascadeContext : CascadeContext)
  : jsstring :=
  let sections :=
    [basePrompt;
     [];
     lit "## Cascade Context";
     [];
     lit "This edit is part of a cascading update. After updating this entity, "
     ++ lit "parent entities will also be updated to reflect these changes.";
     []]
    ++ (if 1 <? Z.of_nat (length (cc_path cascadeContext))
        then [lit "Cascade path: "
              ++ join (lit " " ++ ARROW ++ lit " ") (cc_path cascadeContext);
              lit "Depth: " ++ ofZ (cc_depth cascadeContext)]
        else [])
    ++ (if truthy (cc_stopAtPi cascadeContext)
        then [lit "Cascade will stop at: " ++ ofOpt (cc_stopAtPi cascadeContext)]
        else [])
    ++ [[];
        lit "Ensure the content accurately represents the source material so parent "
        ++ lit "aggregations will be correct."] in
  join NL sections.

Definition buildCombinedPrompt (generalPrompt componentPrompt : option jsstring)
    (component : RegeneratableComponent) : jsstring :=
  let sections :=
    (if truthy generalPrompt
     then [lit "## General Instructions"; ofOpt generalPrompt; []] else [])
    ++ (if truthy componentPrompt
        then [lit "## Specific Instructions for " ++ componentName component;
              ofOpt componentPrompt; []]
        else []) in
  match sections with
  | [] => lit "Regenerate the " ++ componentName component
          ++ lit " based on the current entity content."
  | _ => join NL sections
  end.

Definition correctionSentence (c : Correction) : list jsstring :=
  let source :=
    if truthy (sourceFile c) then lit " in " ++ ofOpt (sourceFile c) else [] in
  [lit "- " ++ QUOTE ++ original c ++ QUOTE ++ lit " was corrected to "
   ++ QUOTE ++ corrected c ++ QUOTE ++ source]
  ++ (if truthy (context c) then [lit "  Context: " ++ ofOpt (context c)] else []).

Definition buildCorrectionPrompt (corrections : list Correction) : jsstring :=
  match corrections with
  | [] => []
  | _ =>
      join NL
        ([lit "## Corrections Applied";
          [];
          lit "The following corrections were made to the source content:";
          []]
         ++ concat (map correctionSentence corrections)
         ++ [[];
             lit "Update the metadata and description to reflect these corrections. "
             ++ lit "Previous content may have contained errors based on the incorrect text."])
  end.

End WithDiffLibrary.
End PromptBuilder.

(* ================================================================== *)
(** * The network and the clock *)
(* ================================================================== *)

Inductive Method := GET | POST.

(** Request bodies.  [JSON.stringify] of an object literal is kept as the
    object; the multipart form of [uploadContent] as its single file field. *)
Inductive RequestBody :=
| NoBody
| FormFile (content filename : jsstring)
| JsonUpdate (u : EntityUpdate)
| JsonReprocess (r : ReprocessRequest).

Record Request := {
  url : jsstring;
  method : Method;
  headers : record jsstring;
  body : RequestBody;
}.

Record UploadItem := {
  up_cid : jsstring;
  up_name : jsstring;
  up_size : Z;
}.

(** What [JSON.parse] makes of a response body, by the shapes the services
    answer with. *)
Inductive Json :=
| JEntity (e : Entity)
| JUploads (items : list UploadItem)
| JVersion (v : EntityVersion)
| JReprocessResult (r : ReprocessResult)
| JStatus (s : ReprocessStatus)
| JMessage (message : option jsstring).

(** A [Response]: [bodyJson] is [None] when the body is not JSON. *)
Record Response := {
  status : Z;
  statusText : jsstring;
  bodyText : jsstring;
  bodyJson : option Json;
}.

(** [response.ok] *)
Definition ok (r : Response) : bool := (200 <=? status r) && (status r <=? 299).

(** A call of [fetch] either rejects (a network-level failure) or resolves
    with a response, after [latency] milliseconds. *)
Inductive Outcome :=
| NetworkFailure (message : jsstring)
| Reply (r : Response).

Record Exchange := {
  latency : Z;
  outcome : Outcome;
}.

Inductive Event :=
| Fetched (r : Request)
| Slept (ms : Z)
| Progress (st : EditStatus).

Record World := {
  incoming : list Exchange;   (* what the next calls of fetch will meet *)
  log : list Event;           (* what the client did so far *)
  now : Z;                    (* Date.now() *)
}.

(* ================================================================== *)
(** * Asynchronous code as a state and exception monad *)
(* ================================================================== *)

(** A promise resolves ([Ok]), rejects ([Throw]), or has not settled within
    the number of loop iterations the model was given ([Pending]). *)
Inductive Res (A : Type) :=
| Ok (a : A)
| Throw (e : JsError)
| Pending.
Arguments Ok {A} a.
Arguments Throw {A} e.
Arguments Pending {A}.

Definition M (S A : Type) : Type := S -> Res A * S.

Definition ret {S A} (a : A) : M S A := fun s => (Ok a, s).
Definition throw {S A} (e : JsError) : M S A := fun s => (Throw e, s).
Definition pending {S A} : M S A := fun s => (Pending, s).

Definition bind {S A B} (m : M S A) (k : A -> M S B) : M S B :=
  fun s =>
    match m s with
    | (Ok a, s') => k a s'
    | (Throw e, s') => (Throw e, s')
    | (Pending, s') => (Pending, s')
    end.

Notation "x <- c ;; k" := (bind c (fun x => k))
  (at level 100, c at next level, right associativity).
Notation "c ;;; k" := (bind c (fun _ => k))
  (at level 100, right associativity).

Definition gets {S A} (f : S -> A) : M S A := fun s => (Ok (f s), s).
Definition modify {S} (f : S -> S) : M S unit := fun s => (Ok tt, f s).

(** [try { body } catch (error) { handler }] *)
Definition try_catch {S A} (body : M S A) (handler : JsError -> M S A) : M S A :=
  fun s =>
    match body s with
    | (Throw e, s') => handler e s'
    | other => other
    end.

(** [try { body } finally { fin }] where [fin] cannot throw. *)
Definition try_finally {S A} (body : M S A) (fin : S -> S) : M S A :=
  fun s => let '(r, s') := body s in (r, fin s').

(** [when cond body] is [if (cond) { body }]. *)
Definition when {S} (cond : bool) (body : M S unit) : M S unit :=
  if cond then body else ret tt.

Definition record_event (ev : Event) (w : World) : World :=
  {| incoming := incoming w; log := log w ++ [ev]; now := now w |}.

Definition fetch (req : Request) : M World Response :=
  fun w =>
    match incoming w with
    | [] =>
        (Throw (PlainError (lit "TypeError: fetch failed")),
         record_event (Fetched req) w)
    | x :: rest =>
        let w' := {| incoming := rest; log := log w ++ [Fetched req];
                     now := now w + latency x |} in
        match outcome x with
        | NetworkFailure message => (Throw (PlainError message), w')
        | Reply r => (Ok r, w')
        end
    end.

(** [await new Promise((resolve) => setTimeout(resolve, ms))] *)
Definition sleep (ms : Z) : M World unit :=
  fun w => (Ok tt, {| incoming := incoming w; log := log w ++ [Slept ms];
                      now := now w + Z.max 0 ms |}).

Definition dateNow : M World Z := gets now.

Definition notify (st : EditStatus) : M World unit :=
  modify (record_event (Progress st)).

(** [response.json()]: rejects when the body is not JSON. *)
Definition json (r : Response) : M World Json :=
  match bodyJson r with
  | Some j => ret j
  | None => throw (PlainError (lit "SyntaxError: Unexpected token"))
  end.

(** A body that is JSON of another shape than the declared return type is
    treated like one that cannot be read. *)
Definition shapeError {A} : M World A :=
  throw (PlainError (lit "TypeError: unexpected response shape")).

(* ================================================================== *)
(** * ArkeClient ([src/client.ts]) *)
(* ================================================================== *)

Record ArkeClientConfig := {
  cfg_ipfsWrapperUrl : jsstring;
  cfg_reprocessApiUrl : jsstring;
  cfg_authToken : option jsstring;
  cfg_statusUrlTransform : option (jsstring -> jsstring);
}.

Record RetryOptions := {
  maxRetries : nat;
  initialDelayMs : Z;
  maxDelayMs : Z;
  backoffMultiplier : Z;
}.

Definition DEFAULT_RETRY_OPTIONS : RetryOptions :=
  {| maxRetries := 5; initialDelayMs := 2000; maxDelayMs := 30000;
     backoffMultiplier := 2 |}.

Module ArkeClient.

Record t := {
  ipfsWrapperUrl : jsstring;
  reprocessApiUrl : jsstring;
  authToken : option jsstring;
  statusUrlTransform : option (jsstring -> jsstring);
}.

(** [s.replace(/\/$/, '')] *)
Definition stripTrailingSlash (s : jsstring) : jsstring :=
  match rev s with
  | c :: r => if (c =? 47)%N then rev r else s
  | [] => s
  end.

Definition new (config : ArkeClientConfig) : t :=
  {| ipfsWrapperUrl := stripTrailingSlash (cfg_ipfsWrapperUrl config);
     reprocessApiUrl := stripTrailingSlash (cfg_reprocessApiUrl config);
     authToken := cfg_authToken config;
     statusUrlTransform := cfg_statusUrlTransform config |}.

Definition bearer (this : t) : record jsstring :=
  if truthy (authToken this)
  then [(lit "Authorization", lit "Bearer " ++ ofOpt (authToken this))]
  else [].

Definition getHeaders (this : t) : record jsstring :=
  (lit "Content-Type", lit "application/json") :: bearer this.

(** What one iteration of the loop of [fetchWithRetry] ends with: a
    [return response], or the next iteration with its [delay] and
    [lastError]. *)
Inductive Step :=
| Return (response : Response)
| Continue (delay : Z) (lastError : option JsError).

Definition nextDelay (retryOptions : RetryOptions) (delay : Z) : Z :=
  Z.min (delay * backoffMultiplier retryOptions) (maxDelayMs retryOptions).

Definition attemptOnce (req : Request) (retryOptions : RetryOptions)
    (attempt : nat) (delay : Z) : M World Step :=
  try_catch
    (response <- fetch req ;;
     if (500 <=? status response) && (attempt <? maxRetries retryOptions)%nat
     then
       sleep delay ;;;
       ret (Continue (nextDelay retryOptions delay)
              (Some (PlainError (lit "Server error: " ++ ofZ (status response)
                                 ++ lit " " ++ statusText response))))
     else ret (Return response))
    (fun error =>
       if (attempt <? maxRetries retryOptions)%nat
       then sleep delay ;;; ret (Continue (nextDelay retryOptions delay) (Some error))
       else ret (Continue delay (Some error))).

(** The [for] loop from [attempt] on; [remaining] is the number of
    iterations the loop condition [attempt <= maxRetries] still allows. *)
Fixpoint retry_loop (remaining : nat) (req : Request) (retryOptions : RetryOptions)
    (attempt : nat) (delay : Z) (lastError : option JsError) : M World Response :=
  match remaining with
  | O =>
      throw (match lastError with
             | Some e => e
             | None => PlainError (lit "Request failed after retries")
             end)
  | S remaining' =>
      step <- attemptOnce req retryOptions attempt delay ;;
      match step with
      | Return response => ret response
      | Continue delay' lastError' =>
          retry_loop remaining' req retryOptions (S attempt) delay' lastError'
      end
  end.

Definition fetchWithRetry (req : Request) (retryOptions : RetryOptions)
  : M World Response :=
  retry_loop (S (maxRetries retryOptions)) req retryOptions 0%nat
    (initialDelayMs retryOptions) None.

Definition getEntity (this : t) (pi : jsstring) : M World Entity :=
  response <- fetch {| url := ipfsWrapperUrl this ++ lit "/entities/" ++ pi;
                       method := GET; headers := getHeaders this; body := NoBody |} ;;
  if status response =? 404 then throw (EntityNotFoundError pi)
  else if negb (ok response) then
    throw (ArkeEditError (lit "Failed to fetch entity: " ++ statusText response)
             (lit "FETCH_ERROR") (status response) None)
  else
    j <- json response ;;
    match j with
    | JEntity e => ret e
    | _ => shapeError
    end.

Definition getContent (this : t) (cid : jsstring) : M World jsstring :=
  response <- fetch {| url := ipfsWrapperUrl this ++ lit "/cat/" ++ cid;
                       method := GET; headers := getHeaders this; body := NoBody |} ;;
  if negb (ok response) then
    throw (ArkeEditError (lit "Failed to fetch content: " ++ statusText response)
             (lit "FETCH_ERROR") (status response) (Some cid))
  else ret (bodyText response).

Definition uploadContent (this : t) (content filename : jsstring) : M World jsstring :=
  response <- fetch {| url := ipfsWrapperUrl this ++ lit "/upload";
                       method := POST; headers := bearer this;
                       body := FormFile content filename |} ;;
  if negb (ok response) then
    throw (ArkeEditError (lit "Failed to upload content: " ++ statusText response)
             (lit "UPLOAD_ERROR") (status response) None)
  else
    j <- json response ;;
    match j with
    | JUploads (item :: _) => ret (up_cid item)
    | _ => shapeError
    end.

Definition updateEntity (this : t) (pi : jsstring) (update : EntityUpdate)
  : M World EntityVersion :=
  response <- fetch {| url := ipfsWrapperUrl this ++ lit "/entities/" ++ pi
                              ++ lit "/versions";
                       method := POST; headers := getHeaders this;
                       body := JsonUpdate update |} ;;
  if status response =? 409 then
    entity <- getEntity this pi ;;
    throw (CASConflictError pi (expect_tip update) (e_manifest_cid entity))
  else if negb (ok response) then
    throw (ArkeEditError (lit "Failed to update entity: " ++ statusText response)
             (lit "UPDATE_ERROR") (status response) None)
  else
    j <- json response ;;
    match j with
    | JVersion v => ret v
    | _ => shapeError
    end.

Definition reprocess (this : t) (request : ReprocessRequest)
  : M World ReprocessResult :=
  response <- fetch {| url := reprocessApiUrl this ++ lit "/api/reprocess";
                       method := POST; headers := getHeaders this;
                       body := JsonReprocess request |} ;;
  if negb (ok response) then
    let message :=
      match bodyJson response with
      | Some (JMessage m) => m
      | _ => None
      end in
    throw (ReprocessError
             (orElse message (lit "Reprocess failed: " ++ statusText response))
             None)
  else
    j <- json response ;;
    match j with
    | JReprocessResult r => ret r
    | _ => shapeError
    end.

Definition getReprocessStatus (this : t) (statusUrl : jsstring) (isFirstPoll : bool)
  : M World ReprocessStatus :=
  let retryOptions :=
    if isFirstPoll
    then {| maxRetries := maxRetries DEFAULT_RETRY_OPTIONS;
            initialDelayMs := 3000;
            maxDelayMs := maxDelayMs DEFAULT_RETRY_OPTIONS;
            backoffMultiplier := backoffMultiplier DEFAULT_RETRY_OPTIONS |}
    else DEFAULT_RETRY_OPTIONS in
  let fetchUrl :=
    match statusUrlTransform this with
    | Some transform => transform statusUrl
    | None => statusUrl
    end in
  response <- fetchWithRetry
                {| url := fetchUrl; method := GET; headers := getHeaders this;
                   body := NoBody |}
                retryOptions ;;
  if negb (ok response) then
    throw (ArkeEditError (lit "Failed to fetch reprocess status: " ++ statusText response)
             (lit "STATUS_ERROR") (status response) None)
  else
    j <- json response ;;
    match j with
    | JStatus s => ret s
    | _ => shapeError
    end.

End ArkeClient.

(* ================================================================== *)
(** * EditSession ([src/session.ts]) *)
(* ================================================================== *)

Record EditSessionConfig := {
  cfg_mode : EditMode;
  cfg_aiReviewEnabled : option bool;
}.

(** [Partial<EditScope>]: an absent property is [None]. *)
Record PartialScope := {
  p_components : option (list RegeneratableComponent);
  p_cascade : option bool;
  p_stopAtPi : option (option jsstring);
}.

(** [PollOptions]; [onProgress] tells whether a callback was supplied, and
    its calls are the [Progress] events of the log. *)
Record PollOptions := {
  intervalMs : option Z;
  timeoutMs : option Z;
  onProgress : bool;
}.

Definition DEFAULT_SCOPE : EditScope :=
  {| components := []; cascade := false; stopAtPi := None |}.

Definition DEFAULT_INTERVAL_MS : Z := 2000.
Definition DEFAULT_TIMEOUT_MS : Z := 300000.

Record ChangeSummary := {
  cs_mode : EditMode;
  cs_hasManualEdits : bool;
  cs_editedComponents : list jsstring;
  cs_corrections : list Correction;
  cs_prompts : record jsstring;
  cs_scope : EditScope;
  cs_willRegenerate : list RegeneratableComponent;
  cs_willCascade : bool;
  cs_willSave : bool;
  cs_willReprocess : bool;
}.

Module EditSession.

(** The fields of an [EditSession] object. *)
Record t := {
  pi : jsstring;
  mode : EditMode;
  aiReviewEnabled : bool;
  client : ArkeClient.t;
  entity : option Entity;
  loadedComponents : record jsstring;
  prompts : record jsstring;
  editedContent : record jsstring;
  corrections : list Correction;
  scope : EditScope;
  submitting : bool;
  result : option EditResult;
  statusUrl : option jsstring;
}.

Definition set_entity (v : option Entity) (s : t) : t :=
  {| pi := pi s; mode := mode s; aiReviewEnabled := aiReviewEnabled s;
     client := client s; entity := v; loadedComponents := loadedComponents s;
     prompts := prompts s; editedContent := editedContent s;
     corrections := corrections s; scope := scope s;
     submitting := submitting s; result := result s; statusUrl := statusUrl s |}.

Definition set_loadedComponents (v : record jsstring) (s : t) : t :=
  {| pi := pi s; mode := mode s; aiReviewEnabled := aiReviewEnabled s;
     client := client s; entity := entity s; loadedComponents := v;
     prompts := prompts s; editedContent := editedContent s;
     corrections := corrections s; scope := scope s;
     submitting := submitting s; result := result s; statusUrl := statusUrl s |}.

Definition set_prompts (v : record jsstring) (s : t) : t :=
  {| pi := pi s; mode := mode s; aiReviewEnabled := aiReviewEnabled s;
     client := client s; entity := entity s; loadedComponents := loadedComponents s;
     prompts := v; editedContent := editedContent s;
     corrections := corrections s; scope := scope s;
     submitting := submitting s; result := result s; statusUrl := statusUrl s |}.

Definition set_editedContent (v : record jsstring) (s : t) : t :=
  {| pi := pi s; mode := mode s; aiReviewEnabled := aiReviewEnabled s;
     client := client s; entity := entity s; loadedComponents := loadedComponents s;
     prompts := prompts s; editedContent := v;
     corrections := corrections s; scope := scope s;
     submitting := submitting s; result := result s; statusUrl := statusUrl s |}.

Definition set_corrections (v : list Correction) (s : t) : t :=
  {| pi := pi s; mode := mode s; aiReviewEnabled := aiReviewEnabled s;
     client := client s; entity := entity s; loadedComponents := loadedComponents s;
     prompts := prompts s; editedContent := editedContent s;
     corrections := v; scope := scope s;
     submitting := submitting s; result := result s; statusUrl := statusUrl s |}.

Definition set_scope (v : EditScope) (s : t) : t :=
  {| pi := pi s; mode := mode s; aiReviewEnabled := aiReviewEnabled s;
     client := client s; entity := entity s; loadedComponents := loadedComponents s;
     prompts := prompts s; editedContent := editedContent s;
     corrections := corrections s; scope := v;
     submitting := submitting s; result := result s; statusUrl := statusUrl s |}.

Definition set_submitting (v : bool) (s : t) : t :=
  {| pi := pi s; mode := mode s; aiReviewEnabled := aiReviewEnabled s;
     client := client s; entity := entity s; loadedComponents := loadedComponents s;
     prompts := prompts s; editedContent := editedContent s;
     corrections := corrections s; scope := scope s;
     submitting := v; result := result s; statusUrl := statusUrl s |}.

Definition set_result (v : option EditResult) (s : t) : t :=
  {| pi := pi s; mode := mode s; aiReviewEnabled := aiReviewEnabled s;
     client := client s; entity := entity s; loadedComponents := loadedComponents s;
     prompts := prompts s; editedContent := editedContent s;
     corrections := corrections s; scope := scope s;
     submitting := submitting s; result := v; statusUrl := statusUrl s |}.

Definition set_statusUrl (v : option jsstring) (s : t) : t :=
  {| pi := pi s; mode := mode s; aiReviewEnabled := aiReviewEnabled s;
     client := client s; entity := entity s; loadedComponents := loadedComponents s;
     prompts := prompts s; editedContent := editedContent s;
     corrections := corrections s; scope := scope s;
     submitting := submitting s; result := result s; statusUrl := v |}.

(** [scope] starts as [{ ...DEFAULT_SCOPE }]: the empty scope, as long as
    nothing was pushed onto the [components] array of the module constant,
    which the copy shares (the sharing is the subject of [ObjectStore]). *)
Definition new (client : ArkeClient.t) (pi : jsstring)
    (config : option EditSessionConfig) : t :=
  {| pi := pi;
     mode := match config with Some c => cfg_mode c | None => ai_prompt end;
     aiReviewEnabled :=
       match config with
       | Some c => default true (cfg_aiReviewEnabled c)
       | None => true
       end;
     client := client;
     entity := None;
     loadedComponents := [];
     prompts := [];
     editedContent := [];
     corrections := [];
     scope := DEFAULT_SCOPE;
     submitting := false;
     result := None;
     statusUrl := None |}.

(** Synchronous methods run on the session alone; asynchronous ones on the
    session and the world. *)
Definition Sync (A : Type) : Type := M t A.
Definition Async (A : Type) : Type := M (t * World) A.

Definition this {S} : M (t * S) t := gets fst.

Definition update {S} (f : t -> t) : M (t * S) unit :=
  modify (fun '(s, w) => (f s, w)).

(** A call of a client method, which leaves the session alone. *)
Definition call {A} (m : M World A) : Async A :=
  fun '(s, w) => let '(r, w') := m w in (r, (s, w')).

Definition notLoaded {S A} : M S A :=
  throw (ValidationError (lit "Session not loaded. Call load() first.") None).

(** ** Loading *)

Definition priorityComponents : list jsstring :=
  [lit "description.md"; lit "pinax.json"; lit "cheimarros.json"].

(** The callback of [priorityComponents.map] in [load]. *)
Definition loadPriority (e : Entity) (name : jsstring) : Async unit :=
  let cid := get (e_components e) name in
  if truthy cid then
    try_catch
      (s <- this ;;
       content <- call (ArkeClient.getContent (client s) (ofOpt cid)) ;;
       update (fun s => set_loadedComponents (Js.set (loadedComponents s) name content) s))
      (fun _ => ret tt)
  else ret tt.

Fixpoint forEach {S A} (f : A -> M S unit) (l : list A) : M S unit :=
  match l with
  | [] => ret tt
  | a :: r => f a ;;; forEach f r
  end.

(** [Promise.all] over the three fetches is taken in the order of the
    array, each fetch settled before the next one starts. *)
Definition load : Async unit :=
  s <- this ;;
  e <- call (ArkeClient.getEntity (client s) (pi s)) ;;
  update (set_entity (Some e)) ;;;
  forEach (loadPriority e) priorityComponents.

(** For a [name] that is not inherited from [Object.prototype]; for an
    inherited one the reads [this.loadedComponents[name]] and
    [this.entity.components[name]] find the inherited property. *)
Definition loadComponent (name : jsstring) : Async (option jsstring) :=
  s <- this ;;
  if truthy (get (loadedComponents s) name) then ret (get (loadedComponents s) name)
  else
    match entity s with
    | None => throw (ValidationError (lit "Session not loaded") None)
    | Some e =>
        let cid := get (e_components e) name in
        if negb (truthy cid) then ret None
        else
          content <- call (ArkeClient.getContent (client s) (ofOpt cid)) ;;
          update (fun s => set_loadedComponents (Js.set (loadedComponents s) name content) s) ;;;
          ret (Some content)
    end.

Definition getEntity : Sync Entity :=
  s <- gets id ;;
  match entity s with
  | None => notLoaded
  | Some e => ret e
  end.

Definition getComponents : Sync (record jsstring) := gets loadedComponents.

(** ** AI prompt mode *)

Definition setPrompt (target : PromptTarget) (prompt : jsstring) : Sync unit :=
  s <- gets id ;;
  match mode s with
  | manual_only =>
      throw (ValidationError (lit "Cannot set prompts in manual-only mode") None)
  | _ => modify (fun s => set_prompts (Js.set (prompts s) (targetName target) prompt) s)
  end.

Definition getPrompts : Sync (record jsstring) := gets prompts.

Definition clearPrompt (target : PromptTarget) : Sync unit :=
  modify (fun s => set_prompts (Js.delete (prompts s) (targetName target)) s).

(** ** Manual edit mode *)

Definition setContent (componentName content : jsstring) : Sync unit :=
  s <- gets id ;;
  match mode s with
  | ai_prompt =>
      throw (ValidationError (lit "Cannot set content in ai-prompt mode") None)
  | _ => modify (fun s => set_editedContent
                            (Js.set (editedContent s) componentName content) s)
  end.

Definition getEditedContent : Sync (record jsstring) := gets editedContent.

Definition clearContent (componentName : jsstring) : Sync unit :=
  modify (fun s => set_editedContent (Js.delete (editedContent s) componentName) s).

Definition addCorrection (original corrected : jsstring) (sourceFile : option jsstring)
  : Sync unit :=
  modify (fun s => set_corrections
                     (corrections s ++
                      [{| original := original; corrected := corrected;
                          sourceFile := sourceFile; context := None |}]) s).

Definition getCorrections : Sync (list Correction) := gets corrections.

Definition clearCorrections : Sync unit := modify (set_corrections []).

(** ** Scope *)

(** [{ ...this.scope, ...scope }] *)
Definition mergeScope (old : EditScope) (new : PartialScope) : EditScope :=
  {| components := default (components old) (p_components new);
     cascade := default (cascade old) (p_cascade new);
     stopAtPi := default (stopAtPi old) (p_stopAtPi new) |}.

Definition setScope (scope' : PartialScope) : Sync unit :=
  modify (fun s => set_scope (mergeScope (scope s) scope') s).

Definition getScope : Sync EditScope := gets scope.

Section WithDiffLibrary.
Context {D : DiffLibrary}.

(** ** Preview and summary *)

(** [this.loadedComponents[name] || ''] for a name that is not inherited
    from [Object.prototype].  For an inherited name without an entry of its
    own the code reads the inherited property instead, and
    [hasSignificantChanges] throws a [TypeError] on it. *)
Definition originalOf (s : t) (name : jsstring) : jsstring :=
  orElse (get (loadedComponents s) name) [].

Definition getDiff (s : t) : list ComponentDiff :=
  concat
    (map (fun '(name, edited) =>
            let original := originalOf s name in
            if DiffEngine.hasSignificantChanges original edited
            then [DiffEngine.createComponentDiff name original edited]
            else [])
         (editedContent s)).

(** The prompt [previewPrompt] computes for one component of the scope. *)
Definition previewOne (s : t) (e : Entity) (component : RegeneratableComponent)
  : jsstring :=
  let entityContext :=
    {| ctx_pi := e_pi e; ctx_ver := e_ver e; ctx_parentPi := e_parent_pi e;
       ctx_childrenCount := Z.of_nat (length (e_children_pi e));
       ctx_currentContent := loadedComponents s |} in
  let prompt :=
    match mode s with
    | ai_prompt =>
        let componentPrompt := get (prompts s) (componentName component) in
        let generalPrompt := get (prompts s) (lit "general") in
        let combined :=
          PromptBuilder.buildCombinedPrompt generalPrompt componentPrompt component in
        PromptBuilder.buildAIPrompt combined component entityContext
          (Js.or (get (loadedComponents s) (componentName component ++ lit ".json"))
                 (get (loadedComponents s) (componentName component ++ lit ".md")))
    | _ =>
        let diffs := getDiff s in
        let userInstructions :=
          Js.or (get (prompts s) (lit "general"))
                (get (prompts s) (componentName component)) in
        PromptBuilder.buildEditReviewPrompt diffs (corrections s) component
          userInstructions
    end in
  if cascade (scope s) then
    PromptBuilder.buildCascadePrompt prompt
      {| cc_path := List.filter (fun p => truthy (Some p))
                      [e_pi e; orElse (e_parent_pi e) (lit "root")];
         cc_depth := 0;
         cc_stopAtPi := stopAtPi (scope s) |}
  else prompt.

Definition previewPrompt (s : t) : record jsstring :=
  match entity s with
  | None => []
  | Some e =>
      fold_left
        (fun result component =>
           Js.set result (componentName component) (previewOne s e component))
        (components (scope s)) []
  end.

Definition getChangeSummary (s : t) : ChangeSummary :=
  let diffs := getDiff s in
  let hasManualEdits := existsb cd_hasChanges diffs in
  {| cs_mode := mode s;
     cs_hasManualEdits := hasManualEdits;
     cs_editedComponents := map fst (editedContent s);
     cs_corrections := corrections s;
     cs_prompts := prompts s;
     cs_scope := scope s;
     cs_willRegenerate := components (scope s);
     cs_willCascade := cascade (scope s);
     cs_willSave := hasManualEdits;
     cs_willReprocess := 0 <? Z.of_nat (length (components (scope s))) |}.

(** ** Execution *)

(** [if (this.prompts[k]) custom[k] = this.prompts[k]] *)
Definition promptIfSet (s : t) (k : jsstring) : option jsstring :=
  if truthy (get (prompts s) k) then get (prompts s) k else None.

Definition buildCustomPrompts (s : t) : CustomPrompts :=
  match mode s with
  | ai_prompt =>
      {| cp_general := promptIfSet s (lit "general");
         cp_pinax := promptIfSet s (lit "pinax");
         cp_description := promptIfSet s (lit "description");
         cp_cheimarros := promptIfSet s (lit "cheimarros");
         cp_reorganization := None |}
  | _ =>
      let diffs := getDiff s in
      let general :=
        if (0 <? Z.of_nat (length diffs)) || (0 <? Z.of_nat (length (corrections s)))
        then
          let diffContext := DiffEngine.formatComponentDiffsForPrompt diffs in
          let correctionContext := PromptBuilder.buildCorrectionPrompt (corrections s) in
          let basePrompt :=
            join (NL ++ NL)
              (map ofOpt
                 (List.filter truthy
                    [Some diffContext; Some correctionContext;
                     get (prompts s) (lit "general")])) in
          if truthy (Some basePrompt) then Some basePrompt else None
        else None in
      {| cp_general := general;
         cp_pinax := promptIfSet s (lit "pinax");
         cp_description := promptIfSet s (lit "description");
         cp_cheimarros := promptIfSet s (lit "cheimarros");
         cp_reorganization := None |}
  end.

(** The upload loop of phase 1 over [Object.entries(this.editedContent)]. *)
Fixpoint uploadEdited (s : t) (entries : list (jsstring * jsstring))
    (componentUpdates : record jsstring) : M World (record jsstring) :=
  match entries with
  | [] => ret componentUpdates
  | (name, content) :: rest =>
      let original := originalOf s name in
      if DiffEngine.hasSignificantChanges original content then
        cid <- ArkeClient.uploadContent (client s) content name ;;
        uploadEdited s rest (Js.set componentUpdates name cid)
      else uploadEdited s rest componentUpdates
  end.

Definition emptyResult : EditResult := {| saved := None; reprocessed := None |}.

(** [this.result], which [submit] has set to an object by then. *)
Definition theResult (s : t) : EditResult := default emptyResult (result s).

Definition phase1 (note : jsstring) (e : Entity) : Async unit :=
  s <- this ;;
  let diffs := getDiff s in
  let hasManualEdits := existsb cd_hasChanges diffs in
  when hasManualEdits
    (componentUpdates <- call (uploadEdited s (editedContent s) []) ;;
     version <- call (ArkeClient.updateEntity (client s) (pi s)
                        {| expect_tip := e_manifest_cid e;
                           upd_components := Some componentUpdates;
                           components_remove := None;
                           upd_note := note |}) ;;
     update (fun s =>
         set_entity
           (Some {| e_pi := e_pi e; e_ver := v_ver version; e_ts := e_ts e;
                    e_manifest_cid := v_tip version;
                    e_components := e_components e;
                    e_children_pi := e_children_pi e;
                    e_parent_pi := e_parent_pi e; e_note := e_note e |})
           (set_result
              (Some {| saved := Some {| sr_pi := v_pi version;
                                        sr_newVersion := v_ver version;
                                        sr_newTip := v_tip version |};
                       reprocessed := reprocessed (theResult s) |})
              s))).

Definition phase2 : Async unit :=
  s <- this ;;
  when (0 <? Z.of_nat (length (components (scope s))))
    (let customPrompts := buildCustomPrompts s in
     reprocessResult <-
       call (ArkeClient.reprocess (client s)
               {| rq_pi := pi s;
                  rq_phases := components (scope s);
                  rq_cascade := cascade (scope s);
                  rq_stop_at_pi := stopAtPi (scope s);
                  rq_custom_prompts := Some customPrompts;
                  rq_custom_note := None |}) ;;
     update (fun s =>
         set_statusUrl (Some (status_url reprocessResult))
           (set_result
              (Some {| saved := saved (theResult s);
                       reprocessed := Some reprocessResult |})
              s))).

Definition submit (note : jsstring) : Async EditResult :=
  s <- this ;;
  if submitting s then
    throw (ValidationError (lit "Submit already in progress") None)
  else
    match entity s with
    | None => notLoaded
    | Some e =>
        update (fun s => set_result (Some emptyResult) (set_submitting true s)) ;;;
        try_finally
          (phase1 note e ;;;
           phase2 ;;;
           s <- this ;;
           ret (theResult s))
          (fun '(s, w) => (set_submitting false s, w))
    end.

End WithDiffLibrary.

Definition statusOf (status : ReprocessStatus) : EditStatus :=
  {| es_phase :=
       match rs_status status with
       | DONE => phase_complete
       | ERROR => phase_error
       | _ => phase_reprocessing
       end;
     es_saveComplete := true;
     es_reprocessStatus := Some status;
     es_error := rs_error status |}.

Definition isTerminal (status : ReprocessStatus) : bool :=
  match rs_status status with
  | DONE | ERROR => true
  | _ => false
  end.

(** The [while (true)] loop of [waitForCompletion]; [fuel] bounds the
    number of polls the model follows. *)
Fixpoint poll_loop (fuel : nat) (c : ArkeClient.t) (statusUrl : jsstring)
    (intervalMs timeoutMs : Z) (onProgress : bool) (startTime : Z)
    (isFirstPoll : bool) : M World EditStatus :=
  match fuel with
  | O => pending
  | S fuel' =>
      status <- ArkeClient.getReprocessStatus c statusUrl isFirstPoll ;;
      let editStatus := statusOf status in
      when onProgress (notify editStatus) ;;;
      if isTerminal status then ret editStatus
      else
        t1 <- dateNow ;;
        if timeoutMs <? t1 - startTime then
          ret {| es_phase := phase_error;
                 es_saveComplete := true;
                 es_reprocessStatus := Some status;
                 es_error := Some (lit "Timeout waiting for reprocessing to complete") |}
        else
          sleep intervalMs ;;;
          poll_loop fuel' c statusUrl intervalMs timeoutMs onProgress startTime false
  end.

Definition waitForCompletion (fuel : nat) (options : option PollOptions)
  : Async EditStatus :=
  let opts_intervalMs :=
    default DEFAULT_INTERVAL_MS (o ← options; intervalMs o) in
  let opts_timeoutMs :=
    default DEFAULT_TIMEOUT_MS (o ← options; timeoutMs o) in
  let opts_onProgress :=
    match options with Some o => onProgress o | None => false end in
  s <- this ;;
  if negb (truthy (statusUrl s)) then
    ret {| es_phase := phase_complete; es_saveComplete := true;
           es_reprocessStatus := None; es_error := None |}
  else
    startTime <- call dateNow ;;
    call (poll_loop fuel (client s) (ofOpt (statusUrl s)) opts_intervalMs
            opts_timeoutMs opts_onProgress startTime true).

Definition getStatus : Async EditStatus :=
  s <- this ;;
  if negb (truthy (statusUrl s)) then
    let isSaved :=
      match result s with
      | Some r => match saved r with Some _ => true | None => false end
      | None => false
      end in
    ret {| es_phase := if isSaved then phase_complete else phase_idle;
           es_saveComplete := isSaved;
           es_reprocessStatus := None; es_error := None |}
  else
    status <- call (ArkeClient.getReprocessStatus (client s) (ofOpt (statusUrl s)) false) ;;
    ret (statusOf status).

End EditSession.

(* ================================================================== *)
(** * The session's objects in a store *)
(* ================================================================== *)

(** The read accessors of [EditSession] return [{ ...this.field }] or
    [[...this.field]].  What a caller can do to the session through such a
    value depends on which objects are shared, so here the fields are
    references into a store of objects. *)
Module ObjectStore.

(** A location is the index of an object in the store. *)
Abbreviation loc := nat.

Inductive value :=
| VUndefined
| VString (s : jsstring)
| VNumber (n : Z)
| VBool (b : bool)
| VRef (l : loc).

Inductive object :=
| Obj (props : record value)
| Arr (elems : list value).

Abbreviation store := (list object).

Definition alloc (o : object) (h : store) : loc * store :=
  (length h, h ++ [o]).

(** [{ ...o }] and [[...a]]: a new object with the own properties, or the
    elements, of the one at [l]. *)
Definition spread (l : loc) (h : store) : loc * store :=
  match h !! l with
  | Some o => alloc o h
  | None => alloc (Obj []) h
  end.

(** The reference-valued fields of an [EditSession]. *)
Record fields := {
  f_loadedComponents : loc;
  f_prompts : loc;
  f_editedContent : loc;
  f_corrections : loc;
  f_scope : loc;
}.

Record state := {
  self : fields;
  heap : store;
}.

(** The module constant [DEFAULT_SCOPE] and its [components] array. *)
Definition DEFAULT_SCOPE_components : loc := 0%nat.
Definition DEFAULT_SCOPE : loc := 1%nat.
Definition moduleStore : store :=
  [Arr [];
   Obj [(lit "components", VRef DEFAULT_SCOPE_components);
        (lit "cascade", VBool false)]].

(** The field initialisers of the class. *)
Definition construct (h : store) : state :=
  let '(lc, h) := alloc (Obj []) h in
  let '(lp, h) := alloc (Obj []) h in
  let '(le, h) := alloc (Obj []) h in
  let '(lk, h) := alloc (Arr []) h in
  let '(ls, h) := spread DEFAULT_SCOPE h in
  {| self := {| f_loadedComponents := lc; f_prompts := lp; f_editedContent := le;
                f_corrections := lk; f_scope := ls |};
     heap := h |}.

Definition returning (f : fields -> loc) (st : state) : loc * state :=
  let '(l, h) := spread (f (self st)) (heap st) in
  (l, {| self := self st; heap := h |}).

Definition getComponents : state -> loc * state := returning f_loadedComponents.
Definition getPrompts : state -> loc * state := returning f_prompts.
Definition getEditedContent : state -> loc * state := returning f_editedContent.
Definition getCorrections : state -> loc * state := returning f_corrections.
Definition getScope : state -> loc * state := returning f_scope.

(** [this.corrections.push({ original, corrected, sourceFile })] *)
Definition addCorrection (original corrected : jsstring) (st : state) : state :=
  let '(l, h) := alloc (Obj [(lit "original", VString original);
                             (lit "corrected", VString corrected);
                             (lit "sourceFile", VUndefined)]) (heap st) in
  match h !! f_corrections (self st) with
  | Some (Arr elems) =>
      {| self := self st;
         heap := <[f_corrections (self st) := Arr (elems ++ [VRef l])]> h |}
  | _ => {| self := self st; heap := h |}
  end.

Inductive accessor :=
| GetComponents | GetPrompts | GetEditedContent | GetCorrections | GetScope.

Definition run (a : accessor) : state -> loc * state :=
  match a with
  | GetComponents => getComponents
  | GetPrompts => getPrompts
  | GetEditedContent => getEditedContent
  | GetCorrections => getCorrections
  | GetScope => getScope
  end.

Definition fieldOf (a : accessor) : fields -> loc :=
  match a with
  | GetComponents => f_loadedComponents
  | GetPrompts => f_prompts
  | GetEditedContent => f_editedContent
  | GetCorrections => f_corrections
  | GetScope => f_scope
  end.

(** What a caller can do to an object it holds. *)
Inductive mutation :=
| SetProp (l : loc) (k : jsstring) (v : value)   (* o[k] = v *)
| DeleteProp (l : loc) (k : jsstring)            (* delete o[k] *)
| Push (l : loc) (v : value)                     (* a.push(v) *)
| SetElem (l : loc) (i : nat) (v : value)        (* a[i] = v, i < a.length *)
| Truncate (l : loc) (n : nat).                  (* a.length = n, n <= a.length *)

Definition target (m : mutation) : loc :=
  match m with
  | SetProp l _ _ | DeleteProp l _ | Push l _ | SetElem l _ _ | Truncate l _ => l
  end.

Definition mutateObject (m : mutation) (o : object) : object :=
  match m, o with
  | SetProp _ k v, Obj props => Obj (Js.set props k v)
  | DeleteProp _ k, Obj props => Obj (Js.delete props k)
  | Push _ v, Arr elems => Arr (elems ++ [v])
  | SetElem _ i v, Arr elems => Arr (<[i := v]> elems)
  | Truncate _ n, Arr elems => Arr (take n elems)
  | _, _ => o
  end.

Definition mutate (m : mutation) (h : store) : store :=
  match h !! target m with
  | Some o => <[target m := mutateObject m o]> h
  | None => h
  end.

Definition mutateAll (ms : list mutation) (h : store) : store :=
  fold_left (fun h m => mutate m h) ms h.

(** The value a reference stands for, followed to depth [depth]. *)
Inductive tree :=
| TUndefined
| TString (s : jsstring)
| TNumber (n : Z)
| TBool (b : bool)
| TObj (props : list (jsstring * tree))
| TArr (elems : list tree).

Fixpoint snapshot (depth : nat) (h : store) (v : value) : option tree :=
  match v with
  | VUndefined => Some TUndefined
  | VString s => Some (TString s)
  | VNumber n => Some (TNumber n)
  | VBool b => Some (TBool b)
  | VRef l =>
      match depth with
      | O => None
      | S depth' =>
          match h !! l with
          | Some (Obj props) =>
              TObj <$> mapM (fun '(k, v') => pair k <$> snapshot depth' h v') props
          | Some (Arr elems) => TArr <$> mapM (snapshot depth' h) elems
          | None => None
          end
      end
  end.

(** A value that does not refer past the first [n] objects. *)
Definition valueIn (n : nat) (v : value) : bool :=
  match v with
  | VRef l => bool_decide (l < n)%nat
  | _ => true
  end.

Definition objectIn (n : nat) (o : object) : bool :=
  match o with
  | Obj props => forallb (fun kv => valueIn n (snd kv)) props
  | Arr elems => forallb (valueIn n) elems
  end.

(** No object refers outside the store. *)
Definition closed (h : store) : bool := forallb (objectIn (length h)) h.

(** A closed store with the fields of the session in it. *)
Definition wf (st : state) : bool :=
  closed (heap st)
  && bool_decide (f_loadedComponents (self st) < length (heap st))%nat
  && bool_decide (f_prompts (self st) < length (heap st))%nat
  && bool_decide (f_editedContent (self st) < length (heap st))%nat
  && bool_decide (f_corrections (self st) < length (heap st))%nat
  && bool_decide (f_scope (self st) < length (heap st))%nat.

(** The caller goes on with the session after it mutated what it holds. *)
Definition afterMutations (ms : list mutation) (st : state) : state :=
  {| self := self st; heap := mutateAll ms (heap st) |}.

(** The property [k] of the object at [l]. *)
Definition prop (h : store) (l : loc) (k : jsstring) : option value :=
  match h !! l with
  | Some (Obj props) => Js.get props k
  | _ => None
  end.

(** The element [i] of the array at [l]. *)
Definition elem (h : store) (l : loc) (i : nat) : option value :=
  match h !! l with
  | Some (Arr elems) => elems !! i
  | _ => None
  end.

End ObjectStore.

(* ================================================================== *)
(** * The properties, in the words of the design document *)
(* ================================================================== *)

(** The state of [replaceWsRuns] after reading [x]: whether [x] ends inside
    a run of white space. *)
Definition endsInRun (inRun : bool) (x : jsstring) : bool :=
  match last x with
  | Some c => isWhiteSpace c
  | None => inRun
  end.

(** The pieces of [s] between its white space characters, empty ones
    included. *)
Fixpoint tokens (s : jsstring) : list jsstring :=
  match s with
  | [] => [[]]
  | c :: r =>
      if isWhiteSpace c then [] :: tokens r
      else match tokens r with
           | w :: ws => (c :: w) :: ws
           | [] => [[c]]
           end
  end.

Definition nonEmpty (w : jsstring) : bool :=
  match w with
  | [] => false
  | _ => true
  end.

(** The words of [s]: its maximal stretches without white space. *)
Definition words (s : jsstring) : list jsstring := List.filter nonEmpty (tokens s).

Definition isWord (w : jsstring) : bool :=
  nonEmpty w && forallb (fun c => negb (isWhiteSpace c)) w.

(** What follows a word in [join [SPACE] (w :: l)]. *)
Definition spaced (l : list jsstring) : jsstring :=
  match l with
  | [] => []
  | _ => SPACE :: join [SPACE] l
  end.

(** The normal form of [s] read from inside a word: the rest of the word,
    then the words after it. *)
Definition afterWord (s : jsstring) : jsstring :=
  match tokens s with
  | w :: ws => w ++ spaced (List.filter nonEmpty ws)
  | [] => []
  end.

(** A string of white space only. *)
Definition allWhiteSpace (s : jsstring) : bool := forallb isWhiteSpace s.

(** The scan of the word-level diff as the design document describes it: a
    deletion followed at once by an addition is consumed as a pair, and
    yields one correction when both trimmed texts are non-empty and differ;
    any other record is stepped over alone. *)
Definition pairCorrection (sourceLabel : option jsstring) (deleted inserted : Change)
  : list Correction :=
  let removedText := trim (value deleted) in
  let addedText := trim (value inserted) in
  match removedText, addedText with
  | _ :: _, _ :: _ =>
      if bool_decide (removedText = addedText) then []
      else [{| original := removedText; corrected := addedText;
               sourceFile := sourceLabel; context := None |}]
  | _, _ => []
  end.

Fixpoint scanPairs (sourceLabel : option jsstring) (records : list Change)
  : list Correction :=
  match records with
  | [] => []
  | current :: tail =>
      match tail with
      | [] => []
      | next :: rest =>
          if removed current && added next
          then pairCorrection sourceLabel current next ++ scanPairs sourceLabel rest
          else scanPairs sourceLabel tail
      end
  end.

(** No deletion is followed at once by an addition. *)
Definition noAdjacentPair (records : list Change) : Prop :=
  forall i current next,
    records !! i = Some current -> records !! S i = Some next ->
    removed current && added next = false.

(* ================================================================== *)
(** * Concrete instances *)
(* ================================================================== *)

(** A [diff] implementation to run the definitions on: equal inputs are one
    unchanged record, different inputs a removal followed by an addition. *)
Definition wholeTextDiff (a b : jsstring) : list Change :=
  if Js.eqb a b
  then [{| value := a; added := false; removed := false |}]
  else [{| value := a; added := false; removed := true |};
        {| value := b; added := true; removed := false |}].

Definition wholeText : DiffLibrary :=
  {| Diff_diffLines := wholeTextDiff; Diff_diffWords := wholeTextDiff |}.

(** An exchange the retry policy takes for transient: a network-level
    failure, or a response of the 5xx class (the code tests [status >= 500]). *)
Definition transient (x : Exchange) : bool :=
  match outcome x with
  | NetworkFailure _ => true
  | Reply r => 500 <=? status r
  end.

(** The [RemoteError] of the design document: a generic non-success HTTP
    outcome carrying the status code, that is an [ArkeEditError] proper. *)
Definition isRemoteError (e : JsError) : bool :=
  match e with
  | ArkeEditError _ _ _ _ => true
  | _ => false
  end.

Definition isConflictError (e : JsError) : bool :=
  match e with
  | CASConflictError _ _ _ => true
  | _ => false
  end.

(** The requests and sleeps of [k] failed attempts in a row, the first one
    followed by a sleep of [delay]. *)
Fixpoint backoffLog (req : Request) (retryOptions : RetryOptions) (delay : Z) (k : nat)
  : list Event :=
  match k with
  | O => []
  | S k' =>
      Fetched req :: Slept delay
      :: backoffLog req retryOptions (ArkeClient.nextDelay retryOptions delay) k'
  end.

(** The delays of the design document: from the base on, doubled at each
    retry and capped at 30 seconds. *)
Definition backoffDelays (isFirstPoll : bool) : list Z :=
  if isFirstPoll then [3000; 6000; 12000; 24000; 30000]
  else [2000; 4000; 8000; 16000; 30000].

Definition statusRequest (c : ArkeClient.t) (statusUrl : jsstring) : Request :=
  {| url := match ArkeClient.statusUrlTransform c with
            | Some transform => transform statusUrl
            | None => statusUrl
            end;
     method := GET; headers := ArkeClient.getHeaders c; body := NoBody |}.

Definition statusRetryOptions (isFirstPoll : bool) : RetryOptions :=
  {| maxRetries := 5; initialDelayMs := if isFirstPoll then 3000 else 2000;
     maxDelayMs := 30000; backoffMultiplier := 2 |}.

(** The requests of the entity store, as the client builds them. *)
Definition entityRequest (c : ArkeClient.t) (pi : jsstring) : Request :=
  {| url := ArkeClient.ipfsWrapperUrl c ++ lit "/entities/" ++ pi;
     method := GET; headers := ArkeClient.getHeaders c; body := NoBody |}.

Definition versionsRequest (c : ArkeClient.t) (pi : jsstring) (update : EntityUpdate)
  : Request :=
  {| url := ArkeClient.ipfsWrapperUrl c ++ lit "/entities/" ++ pi ++ lit "/versions";
     method := POST; headers := ArkeClient.getHeaders c; body := JsonUpdate update |}.

(** The world after the reply [x] to [req] has come in. *)
Definition afterFetch (req : Request) (x : Exchange) (rest : list Exchange) (w : World)
  : World :=
  {| incoming := rest; log := log w ++ [Fetched req]; now := now w + latency x |}.

(** ** A small world to run the client in *)

Definition demoClient : ArkeClient.t :=
  ArkeClient.new
    {| cfg_ipfsWrapperUrl := lit "https://api.arke.institute/";
       cfg_reprocessApiUrl := lit "https://reprocess-api.arke.institute";
       cfg_authToken := None;
       cfg_statusUrlTransform := None |}.

Definition respond (code : Z) (text : string) (answer : option Json) : Exchange :=
  {| latency := 40;
     outcome := Reply {| status := code; statusText := lit text;
                         bodyText := []; bodyJson := answer |} |}.

Definition unreachable : Exchange :=
  {| latency := 10; outcome := NetworkFailure (lit "TypeError: Failed to fetch") |}.

Definition worldOf (script : list Exchange) : World :=
  {| incoming := script; log := []; now := 0 |}.

Definition demoStatusUrl : jsstring :=
  lit "https://orchestrator.arke.institute/status/batch-1".

Definition doneStatus : ReprocessStatus :=
  {| rs_batch_id := lit "batch-1"; rs_status := DONE;
     rs_progress := {| directories_total := 1; directories_pinax_complete := 1;
                       directories_cheimarros_complete := 1;
                       directories_description_complete := 1 |};
     rs_root_pi := None; rs_error := None; rs_started_at := None;
     rs_completed_at := None |}.

(** Four server errors, then the status. *)
Definition fourFailuresThenDone : list Exchange :=
  [respond 500 "Internal Server Error" None;
   respond 500 "Internal Server Error" None;
   respond 500 "Internal Server Error" None;
   respond 500 "Internal Server Error" None;
   respond 200 "OK" (Some (JStatus doneStatus))].

(** The status endpoint cannot be reached at all. *)
Definition networkDown : list Exchange :=
  [unreachable; unreachable; unreachable; unreachable; unreachable; unreachable].

Definition demoPi : jsstring := lit "01KBGG1TEG2J0TXR1XKZ8T3TBP".

Definition demoEntity (ver : Z) (tip : string) : Entity :=
  {| e_pi := demoPi; e_ver := ver; e_ts := lit "2025-01-01T00:00:00Z";
     e_manifest_cid := lit tip;
     e_components := [(lit "description.md", lit "cid-description")];
     e_children_pi := []; e_parent_pi := None; e_note := None |}.

Definition demoUpdate : EntityUpdate :=
  {| expect_tip := lit "T3";
     upd_components := Some [(lit "description.md", lit "cid-new")];
     components_remove := None; upd_note := lit "note" |}.

(** ** Sessions to run the workflow on *)

(** A session as [load] leaves it: the entity at version 3 and tip T3, its
    description fetched. *)
Definition loadedSession (m : EditMode) : EditSession.t :=
  EditSession.set_loadedComponents
    [(lit "description.md", lit "A newsletter about economic history.")]
    (EditSession.set_entity (Some (demoEntity 3 "T3"))
       (EditSession.new demoClient demoPi
          (Some {| cfg_mode := m; cfg_aiReviewEnabled := None |}))).

(** A manual session with one edited sentence in the description. *)
Definition editedSession : EditSession.t :=
  EditSession.set_editedContent
    [(lit "description.md", lit "A newsletter about economic history. Weekly.")]
    (loadedSession manual_with_review).

(** An ai-prompt session asked to shorten the description. *)
Definition promptedSession : EditSession.t :=
  EditSession.set_scope
    {| components := [description]; cascade := false; stopAtPi := None |}
    (EditSession.set_prompts [(lit "description", lit "Shorten it")]
       (loadedSession ai_prompt)).

Definition demoReprocessResult : ReprocessResult :=
  {| batch_id := lit "batch-1"; entities_queued := 1; entity_pis := [demoPi];
     status_url := demoStatusUrl |}.

(** The upload succeeds, the commit meets a conflict, and the entity is gone
    when the client asks for its current tip. *)
Definition conflictThenGone : list Exchange :=
  [respond 200 "OK"
     (Some (JUploads [{| up_cid := lit "cid-new"; up_name := lit "description.md";
                         up_size := 44 |}]));
   respond 409 "Conflict" None;
   respond 404 "Not Found" None].

(** The same, with the entity found at tip T4. *)
Definition conflictThenFound : list Exchange :=
  [respond 200 "OK"
     (Some (JUploads [{| up_cid := lit "cid-new"; up_name := lit "description.md";
                         up_size := 44 |}]));
   respond 409 "Conflict" None;
   respond 200 "OK" (Some (JEntity (demoEntity 4 "T4")))].

(** The session at the start of the [try] block of [submit]. *)
Definition started (s : EditSession.t) : EditSession.t :=
  EditSession.set_result (Some EditSession.emptyResult)
    (EditSession.set_submitting true s).

(** The prompt [submit] sends for a component. *)
Definition customPromptFor (c : RegeneratableComponent) (custom : CustomPrompts)
  : option jsstring :=
  match c with
  | pinax => cp_pinax custom
  | description => cp_description custom
  | cheimarros => cp_cheimarros custom
  end.

(** The request of phase 2. *)
Definition reprocessRequest (s : EditSession.t) (custom : CustomPrompts) : Request :=
  {| url := ArkeClient.reprocessApiUrl (EditSession.client s) ++ lit "/api/reprocess";
     method := POST;
     headers := ArkeClient.getHeaders (EditSession.client s);
     body := JsonReprocess
               {| rq_pi := EditSession.pi s;
                  rq_phases := components (EditSession.scope s);
                  rq_cascade := cascade (EditSession.scope s);
                  rq_stop_at_pi := stopAtPi (EditSession.scope s);
                  rq_custom_prompts := Some custom;
                  rq_custom_note := None |} |}.

(** The custom prompts of the reprocess requests in a log. *)
Definition sentPrompts (events : list Event) : list CustomPrompts :=
  omap (fun ev =>
          match ev with
          | Fetched {| body := JsonReprocess rq |} => rq_custom_prompts rq
          | _ => None
          end) events.

(** [p] occurs in [text] as a contiguous block. *)
Definition occursIn (p text : jsstring) : Prop :=
  exists before after, text = before ++ p ++ after.

Definition completeStatus : EditStatus :=
  {| es_phase := phase_complete; es_saveComplete := true;
     es_reprocessStatus := None; es_error := None |}.

(** The session after a commit that returned [version]. *)
Definition committed (s : EditSession.t) (e : Entity) (version : EntityVersion)
  : EditSession.t :=
  EditSession.set_entity
    (Some {| e_pi := e_pi e; e_ver := v_ver version; e_ts := e_ts e;
             e_manifest_cid := v_tip version;
             e_components := e_components e;
             e_children_pi := e_children_pi e;
             e_parent_pi := e_parent_pi e; e_note := e_note e |})
    (EditSession.set_result
       (Some {| saved := Some {| sr_pi := v_pi version;
                                 sr_newVersion := v_ver version;
                                 sr_newTip := v_tip version |};
                reprocessed := None |})
       (started s)).

(** The update [submit] commits in phase 1. *)
Definition commitOf (e : Entity) (updates : record jsstring) (note : jsstring)
  : EntityUpdate :=
  {| expect_tip := e_manifest_cid e; upd_components := Some updates;
     components_remove := None; upd_note := note |}.

(** ** Runs of the scenarios *)

(** A session straight from the constructor. *)
Definition freshSession : EditSession.t := EditSession.new demoClient demoPi None.

(** [submit] on the edited session when the entity has gone by the time the
    client asks for its tip. *)
Definition goneRun : Res EditResult * (EditSession.t * World) :=
  @EditSession.submit wholeText (lit "note") (editedSession, worldOf conflictThenGone).

(** The status poll with the network down. *)
Definition downRun : Res ReprocessStatus * World :=
  ArkeClient.getReprocessStatus demoClient demoStatusUrl false (worldOf networkDown).

(** [submit] on the prompted session. *)
Definition promptedRun : Res EditResult * (EditSession.t * World) :=
  @EditSession.submit wholeText (lit "note")
    (promptedSession,
     worldOf [respond 200 "OK" (Some (JReprocessResult demoReprocessResult))]).

Definition delaysOf (events : list Event) : list Z :=
  omap (fun ev => match ev with Slept ms => Some ms | _ => None end) events.

Definition requestsOf (events : list Event) : list Request :=
  omap (fun ev => match ev with Fetched req => Some req | _ => None end) events.

(** The store after the constructor, and a caller that takes the scope,
    pushes a component onto its [components] array, and takes the scope
    again. *)
Definition newStore : ObjectStore.state := ObjectStore.construct ObjectStore.moduleStore.

Definition scopeTaken : nat * ObjectStore.state := ObjectStore.getScope newStore.

Definition scopeTakenAgain : nat * ObjectStore.state :=
  ObjectStore.getScope
    (ObjectStore.afterMutations
       [ObjectStore.Push ObjectStore.DEFAULT_SCOPE_components
          (ObjectStore.VString (lit "pinax"))]
       (snd scopeTaken)).

(** The same with a correction: the caller rewrites the [original] of the
    correction object it got. *)
Definition correctedStore : ObjectStore.state :=
  ObjectStore.addCorrection (lit "teh") (lit "the") newStore.

Definition correctionsTaken : nat * ObjectStore.state :=
  ObjectStore.getCorrections correctedStore.

Definition correctionsTakenAgain : nat * ObjectStore.state :=
  ObjectStore.getCorrections
    (ObjectStore.afterMutations
       [ObjectStore.SetProp 7%nat (lit "original") (ObjectStore.VString (lit "x"))]
       (snd correctionsTaken)).

(** A session whose only edit re-wraps the description. *)
Definition rewrappedSession : EditSession.t :=
  EditSession.set_editedContent
    [(lit "description.md",
      lit "A newsletter" ++ [10%N; 32%N; 32%N] ++ lit "about economic history." ++ [10%N])]
    (loadedSession manual_with_review).

Definition uploadedUpdates : record jsstring := [(lit "description.md", lit "cid-new")].

Definition afterUpload : World :=
  snd (EditSession.uploadEdited editedSession
         (EditSession.editedContent editedSession) [] (worldOf conflictThenFound)).

(** The scenario of the design document: the entity at version 3 and tip
    T3, the description edited, the description in the scope. *)
Definition scenarioSession : EditSession.t :=
  EditSession.set_scope
    {| components := [description]; cascade := false; stopAtPi := None |}
    editedSession.

Definition scenarioScript : list Exchange :=
  [respond 200 "OK"
     (Some (JUploads [{| up_cid := lit "cid-new"; up_name := lit "description.md";
                         up_size := 44 |}]));
   respond 200 "OK" (Some (JVersion {| v_pi := demoPi; v_tip := lit "T4"; v_ver := 4 |}));
   respond 200 "OK" (Some (JReprocessResult demoReprocessResult))].

Definition scenarioRun : Res EditResult * (EditSession.t * World) :=
  @EditSession.submit wholeText (lit "note") (scenarioSession, worldOf scenarioScript).

(* ================================================================== *)
(** * Further definitions for the properties of the remaining code *)
(* ================================================================== *)

(** [Object.keys(o)] *)
Definition keys {V} (o : record V) : list jsstring := map fst o.

(** A change the line diff reports as added or removed. *)
Definition changed (c : Change) : bool := added c || removed c.

(** What a change adds to the running line counter of [DiffEngine.diff]:
    its line feeds, unless it is a removal. *)
Definition advance (c : Change) : Z :=
  if added c then countNewlines (value c)
  else if removed c then 0
  else countNewlines (value c).

Definition advanceAll (changes : list Change) : Z :=
  fold_right Z.add 0 (map advance changes).

(** The record [DiffEngine.diff] pushes for a changed [c] at line [n]. *)
Definition recordOf (c : Change) (n : Z) : TextDiff :=
  if added c then
    {| td_type := addition; td_original := None;
       td_modified := Some (trimEnd (value c)); td_lineNumber := Some n |}
  else
    {| td_type := deletion; td_original := Some (trimEnd (value c));
       td_modified := None; td_lineNumber := Some n |}.

(** The line numbers of a list of records. *)
Definition lineNumbers (diffs : list TextDiff) : list Z := omap td_lineNumber diffs.

Fixpoint nondecreasing (l : list Z) : bool :=
  match l with
  | [] => true
  | a :: r =>
      match r with
      | [] => true
      | b :: _ => (a <=? b) && nondecreasing r
      end
  end.

(** An entry of the edited contents that differs significantly from what was
    loaded. *)
Definition significant (s : EditSession.t) (entry : jsstring * jsstring) : bool :=
  DiffEngine.hasSignificantChanges (EditSession.originalOf s (fst entry)) (snd entry).

(** A string that does not begin with white space. *)
Definition startsWord (s : jsstring) : bool :=
  match s with
  | [] => true
  | c :: _ => negb (isWhiteSpace c)
  end.

(** A correction worth sending: both texts non-empty, trimmed and different,
    labelled with [sourceLabel]. *)
Definition properCorrection (sourceLabel : option jsstring) (c : Correction) : Prop :=
  original c <> [] /\ corrected c <> [] /\ original c <> corrected c
  /\ trim (original c) = original c /\ trim (corrected c) = corrected c
  /\ sourceFile c = sourceLabel /\ context c = None.

(** The summary [createComponentDiff] writes for [a] additions and [d]
    deletions. *)
Definition summaryOf (a d : Z) : jsstring :=
  if (a =? 0) && (d =? 0) then lit "No changes"
  else join (lit ", ")
         ((if 0 <? a then [DiffEngine.plural a (lit "addition")] else [])
          ++ (if 0 <? d then [DiffEngine.plural d (lit "deletion")] else [])).

(** The reference block [buildAIPrompt] appends for a non-empty current
    content: at most the first 2000 code units, and a marker when something
    was cut. *)
Definition contentBlock (component : RegeneratableComponent) (content : jsstring)
  : list jsstring :=
  [lit "## Current " ++ componentName component ++ lit " content for reference:";
   PromptBuilder.FENCE;
   slice0 2000 content]
  ++ (if 2000 <? Z.of_nat (length content) then [lit "... [truncated]"] else [])
  ++ [PromptBuilder.FENCE].

(** The sentence [buildCombinedPrompt] falls back to. *)
Definition defaultInstruction (component : RegeneratableComponent) : jsstring :=
  lit "Regenerate the " ++ componentName component
  ++ lit " based on the current entity content.".

Definition SLASH : N := 47%N.

(** The requests of the remaining client calls. *)
Definition contentRequest (c : ArkeClient.t) (cid : jsstring) : Request :=
  {| url := ArkeClient.ipfsWrapperUrl c ++ lit "/cat/" ++ cid;
     method := GET; headers := ArkeClient.getHeaders c; body := NoBody |}.

Definition uploadRequest (c : ArkeClient.t) (content filename : jsstring) : Request :=
  {| url := ArkeClient.ipfsWrapperUrl c ++ lit "/upload";
     method := POST; headers := ArkeClient.bearer c;
     body := FormFile content filename |}.

Definition triggerRequest (c : ArkeClient.t) (request : ReprocessRequest) : Request :=
  {| url := ArkeClient.reprocessApiUrl c ++ lit "/api/reprocess";
     method := POST; headers := ArkeClient.getHeaders c;
     body := JsonReprocess request |}.

(** The message of the error body of a failed regeneration request, when it
    has one. *)
Definition errorMessage (r : Response) : option jsstring :=
  match bodyJson r with
  | Some (JMessage m) => m
  | _ => None
  end.

Definition isPending {A} (r : Res A) : bool :=
  match r with
  | Pending => true
  | _ => false
  end.

(** The request [load] makes for a priority component of the entity. *)
Definition hasComponent (e : Entity) (name : jsstring) : bool :=
  truthy (Js.get (e_components e) name).

Definition componentRequest (c : ArkeClient.t) (e : Entity) (name : jsstring) : Request :=
  contentRequest c (ofOpt (Js.get (e_components e) name)).

(** What the user put into a session, and what the session was made with:
    the fields [submit] reads but never writes. *)
Definition edits (s : EditSession.t)
  : jsstring * EditMode * bool * ArkeClient.t * record jsstring * record jsstring
    * record jsstring * list Correction * EditScope :=
  (EditSession.pi s, EditSession.mode s, EditSession.aiReviewEnabled s,
   EditSession.client s, EditSession.loadedComponents s, EditSession.prompts s,
   EditSession.editedContent s, EditSession.corrections s, EditSession.scope s).

(** The upload requests of phase 1: one for each significantly edited
    component, in the order of the edits. *)
Definition uploadsOf (s : EditSession.t) (entries : list (jsstring * jsstring))
  : list Event :=
  map (fun entry => Fetched (uploadRequest (EditSession.client s) (snd entry) (fst entry)))
    (List.filter (significant s) entries).

Definition notLoadedError : JsError :=
  ValidationError (lit "Session not loaded. Call load() first.") None.


Definition timeoutMessage : jsstring :=
  lit "Timeout waiting for reprocessing to complete".

(** What [waitForCompletion] resolves with after polling: the terminal status
    it met, or the last status with the timeout error. *)
Definition settled (st : EditStatus) : Prop :=
  exists status,
    es_reprocessStatus st = Some status
    /\ (if EditSession.isTerminal status then st = EditSession.statusOf status
        else es_phase st = phase_error /\ es_error st = Some timeoutMessage).

(** The session with cascading switched off. *)
Definition withoutCascade (s : EditSession.t) : EditSession.t :=
  EditSession.set_scope
    {| components := components (EditSession.scope s); cascade := false;
       stopAtPi := stopAtPi (EditSession.scope s) |} s.

(** ** Inputs to run the remaining code on *)

Definition demoContext : EntityContext :=
  {| ctx_pi := demoPi; ctx_ver := 3; ctx_parentPi := None; ctx_childrenCount := 0;
     ctx_currentContent := [] |}.

Definition demoRequest : ReprocessRequest :=
  {| rq_pi := demoPi; rq_phases := [description]; rq_cascade := false;
     rq_stop_at_pi := None; rq_custom_prompts := None; rq_custom_note := None |}.

(** An ai-prompt session with a general prompt. *)
Definition generalPromptSession : EditSession.t :=
  EditSession.set_prompts [(lit "general", lit "Be brief")] (loadedSession ai_prompt).

(** The prompted session with cascading on. *)
Definition cascadingSession : EditSession.t :=
  EditSession.set_scope
    {| components := [description]; cascade := true; stopAtPi := None |}
    promptedSession.

(** A session whose regeneration has been started. *)
Definition pollingSession : EditSession.t :=
  EditSession.set_statusUrl (Some demoStatusUrl) promptedSession.

Definition regenerationAccepted : list Exchange :=
  [respond 200 "OK" (Some (JReprocessResult demoReprocessResult))].

Definition unchangedDiff : ComponentDiff :=
  @DiffEngine.createComponentDiff wholeText (lit "description.md") (lit "same")
    (lit "same").

(** The cascade section of a previewed prompt: the path goes from the entity
    to its parent, or to "root" without one, at depth 0. *)
Definition cascadeSection (e : Entity) (stop : option jsstring) : list jsstring :=
  [[];
   lit "## Cascade Context";
   [];
   lit "This edit is part of a cascading update. After updating this entity, "
   ++ lit "parent entities will also be updated to reflect these changes.";
   []]
  ++ (if truthy (Some (e_pi e))
      then [lit "Cascade path: " ++ e_pi e ++ lit " " ++ ARROW ++ lit " "
            ++ orElse (e_parent_pi e) (lit "root");
            lit "Depth: 0"]
      else [])
  ++ (if truthy stop then [lit "Cascade will stop at: " ++ ofOpt stop] else [])
  ++ [[];
      lit "Ensure the content accurately represents the source material so parent "
      ++ lit "aggregations will be correct."].


(* ================================================================== *)
(** * White space normalisation *)
(* ================================================================== *)

Section Whitespace.

Lemma endsInRun_cons (c : N) (x : jsstring) (b : bool) :
  endsInRun b (c :: x) = endsInRun (isWhiteSpace c) x.
Proof.
  destruct x as [|d x']; [reflexivity|]. unfold endsInRun.
  change (last (c :: d :: x')) with (last (d :: x')).
  destruct (last (d :: x')) eqn:Hlast; [reflexivity|].
  apply last_None in Hlast. discriminate.
Qed.

Lemma replaceWsRuns_app (x y : jsstring) (b : bool) :
  replaceWsRuns b (x ++ y)
  = replaceWsRuns b x ++ replaceWsRuns (endsInRun b x) y.
Proof.
  revert b. induction x as [|c x IH]; intros b; [reflexivity|].
  rewrite endsInRun_cons. simpl.
  destruct (isWhiteSpace c); [destruct b|]; simpl; rewrite IH; reflexivity.
Qed.

Lemma replaceWsRuns_ws_run (u : jsstring) (b : bool) :
  allWhiteSpace u = true -> u <> [] ->
  replaceWsRuns b u = (if b then [] else [SPACE]) /\ endsInRun b u = true.
Proof.
  revert b. induction u as [|c u IH]; intros b Hws Hne; [congruence|].
  simpl in Hws. apply andb_true_iff in Hws as [Hc Hu].
  destruct u as [|d u'].
  - simpl. rewrite Hc. unfold endsInRun. simpl. rewrite Hc.
    destruct b; auto.
  - destruct (IH true Hu) as [IH1 IH2]; [congruence|].
    split.
    + change (replaceWsRuns b (c :: d :: u'))
        with (if isWhiteSpace c
              then (if b then replaceWsRuns true (d :: u')
                    else SPACE :: replaceWsRuns true (d :: u'))
              else c :: replaceWsRuns false (d :: u')).
      rewrite Hc, IH1. destruct b; reflexivity.
    + rewrite endsInRun_cons, Hc. exact IH2.
Qed.

Lemma allWhiteSpace_replaceWsRuns (u : jsstring) (b : bool) :
  allWhiteSpace u = true -> allWhiteSpace (replaceWsRuns b u) = true.
Proof.
  destruct u as [|c u]; [reflexivity|]. intros H.
  destruct (replaceWsRuns_ws_run (c :: u) b H) as [-> _]; [congruence|].
  destruct b; reflexivity.
Qed.





Lemma trimStart_replaceWsRuns (s : jsstring) (b : bool) :
  trimStart (replaceWsRuns b s) = trimStart (replaceWsRuns false s).
Proof.
  destruct s as [|c s]; [reflexivity|]. simpl.
  destruct (isWhiteSpace c) eqn:Hc; [|reflexivity].
  destruct b; reflexivity.
Qed.

Lemma normalizeWhitespace_leading (u x : jsstring) :
  allWhiteSpace u = true ->
  DiffEngine.normalizeWhitespace (u ++ x) = DiffEngine.normalizeWhitespace x.
Proof.
  intros Hu. unfold DiffEngine.normalizeWhitespace, collapseWhitespace, trim.
  f_equal. rewrite replaceWsRuns_app.
  assert (Hr := allWhiteSpace_replaceWsRuns u false Hu).
  revert Hr. generalize (replaceWsRuns false u) as r.
  induction r as [|c r IH]; simpl.
  - intros _. apply trimStart_replaceWsRuns.
  - intros [Hc Hr]%andb_true_iff. rewrite Hc. auto.
Qed.



Lemma hasSignificantChanges_false (a b : jsstring) :
  DiffEngine.hasSignificantChanges a b = false
  <-> DiffEngine.normalizeWhitespace a = DiffEngine.normalizeWhitespace b.
Proof.
  unfold DiffEngine.hasSignificantChanges, Js.eqb.
  rewrite negb_false_iff, bool_decide_eq_true. reflexivity.
Qed.

(** ** The normal form is the words, one space apart *)

Lemma tokens_cons (s : jsstring) : exists w ws, tokens s = w :: ws.
Proof.
  destruct s as [|c r]; cbn [tokens]; [eauto|].
  destruct (isWhiteSpace c); [eauto|]. destruct (tokens r); eauto.
Qed.

Lemma join_cons (x : jsstring) (l : list jsstring) :
  join [SPACE] (x :: l) = x ++ spaced l.
Proof. destruct l; cbn [join spaced]; rewrite ?app_nil_r; reflexivity. Qed.

Lemma trimEnd_cons_word (c : N) (x : jsstring) :
  isWhiteSpace c = false -> trimEnd (c :: x) = c :: trimEnd x.
Proof. intros Hc. cbn [trimEnd]. rewrite Hc. destruct (trimEnd x); reflexivity. Qed.

(** After white space, the output of the replacement starts with a word. *)
Lemma trimStart_in_run (s : jsstring) :
  trimStart (replaceWsRuns true s) = replaceWsRuns true s.
Proof.
  induction s as [|c s IH]; [reflexivity|]. cbn [replaceWsRuns].
  destruct (isWhiteSpace c) eqn:Hc; [exact IH|].
  cbn [trimStart]. rewrite Hc. reflexivity.
Qed.

Lemma normalizeWhitespace_ws (c : N) (r : jsstring) :
  isWhiteSpace c = true ->
  DiffEngine.normalizeWhitespace (c :: r) = DiffEngine.normalizeWhitespace r.
Proof.
  intros Hc. exact (normalizeWhitespace_leading [c] r ltac:(cbn; rewrite Hc; reflexivity)).
Qed.

Lemma normalizeWhitespace_word (c : N) (r : jsstring) :
  isWhiteSpace c = false ->
  DiffEngine.normalizeWhitespace (c :: r) = c :: trimEnd (collapseWhitespace r).
Proof.
  intros Hc. unfold DiffEngine.normalizeWhitespace, collapseWhitespace, trim.
  cbn [replaceWsRuns]. rewrite Hc. cbn [trimStart]. rewrite Hc.
  apply trimEnd_cons_word, Hc.
Qed.

Lemma trimEnd_collapse_ws (c : N) (r : jsstring) :
  isWhiteSpace c = true ->
  trimEnd (collapseWhitespace (c :: r))
  = match DiffEngine.normalizeWhitespace r with
    | [] => []
    | x => SPACE :: x
    end.
Proof.
  intros Hc. unfold DiffEngine.normalizeWhitespace, collapseWhitespace, trim.
  cbn [replaceWsRuns]. rewrite Hc.
  rewrite <- (trimStart_replaceWsRuns r true), trimStart_in_run.
  cbn [trimEnd]. destruct (trimEnd (replaceWsRuns true r)); reflexivity.
Qed.

Lemma trimEnd_collapse_word (c : N) (r : jsstring) :
  isWhiteSpace c = false ->
  trimEnd (collapseWhitespace (c :: r)) = c :: trimEnd (collapseWhitespace r).
Proof.
  intros Hc. unfold collapseWhitespace. cbn [replaceWsRuns]. rewrite Hc.
  apply trimEnd_cons_word, Hc.
Qed.

Lemma tokens_ws_free (s : jsstring) :
  Forall (fun w => forallb (fun c => negb (isWhiteSpace c)) w = true) (tokens s).
Proof.
  induction s as [|c r IH]; cbn [tokens]; [repeat constructor|].
  destruct (isWhiteSpace c) eqn:Hc; [constructor; [reflexivity|exact IH]|].
  destruct (tokens r) as [|w ws]; [repeat constructor; cbn; rewrite Hc; reflexivity|].
  inversion IH; subst. constructor; [|assumption].
  cbn [forallb]. rewrite Hc. assumption.
Qed.

Lemma words_are_words (s : jsstring) : Forall (fun w => isWord w = true) (words s).
Proof.
  unfold words. pose proof (tokens_ws_free s) as H.
  induction H as [|w l Hw _ IH]; cbn [List.filter]; [constructor|].
  destruct (nonEmpty w) eqn:Hne; [|exact IH].
  constructor; [|exact IH]. unfold isWord. rewrite Hne, Hw. reflexivity.
Qed.

Lemma join_words_empty (l : list jsstring) :
  Forall (fun w => isWord w = true) l -> join [SPACE] l = [] -> l = [].
Proof.
  intros Hl. destruct Hl as [|w l Hw _]; [reflexivity|].
  rewrite join_cons. destruct w; [discriminate Hw|discriminate].
Qed.

Lemma spaced_words (l : list jsstring) :
  Forall (fun w => isWord w = true) l ->
  match join [SPACE] l with
  | [] => []
  | x => SPACE :: x
  end = spaced l.
Proof.
  intros Hl. destruct (join [SPACE] l) eqn:Hj.
  - rewrite (join_words_empty l Hl Hj). reflexivity.
  - destruct l; [discriminate Hj|]. cbn [spaced]. rewrite Hj. reflexivity.
Qed.

Lemma normalizeWhitespace_words (s : jsstring) :
  DiffEngine.normalizeWhitespace s = join [SPACE] (words s)
  /\ trimEnd (collapseWhitespace s) = afterWord s.
Proof.
  induction s as [|c r [IHn IHg]]; [split; reflexivity|].
  unfold words, afterWord. cbn [tokens].
  destruct (isWhiteSpace c) eqn:Hc.
  - cbn [List.filter nonEmpty]. split.
    + rewrite (normalizeWhitespace_ws c r Hc). exact IHn.
    + rewrite (trimEnd_collapse_ws c r Hc), IHn.
      apply spaced_words, words_are_words.
  - destruct (tokens_cons r) as (w & ws & Hr).
    unfold afterWord in IHg. rewrite Hr in IHg |- *.
    cbn [List.filter nonEmpty]. split.
    + rewrite (normalizeWhitespace_word c r Hc), IHg, join_cons. reflexivity.
    + rewrite (trimEnd_collapse_word c r Hc), IHg. reflexivity.
Qed.

Lemma tokens_app_word (x rest : jsstring) :
  forallb (fun c => negb (isWhiteSpace c)) x = true ->
  tokens (x ++ rest)
  = match tokens rest with
    | w :: ws => (x ++ w) :: ws
    | [] => [x]
    end.
Proof.
  induction x as [|c x IH]; intros Hx.
  - cbn [app]. destruct (tokens_cons rest) as (w & ws & ->). reflexivity.
  - cbn [forallb] in Hx. apply andb_true_iff in Hx as [Hc Hx].
    apply negb_true_iff in Hc. cbn [app tokens]. rewrite Hc, (IH Hx).
    destruct (tokens rest); reflexivity.
Qed.

(** The words can be read back from the normal form. *)
Lemma words_join (l : list jsstring) :
  Forall (fun w => isWord w = true) l -> words (join [SPACE] l) = l.
Proof.
  induction 1 as [|x l Hx Hl IH]; [reflexivity|].
  unfold isWord in Hx. apply andb_true_iff in Hx as [Hne Hfree].
  rewrite join_cons. unfold words. rewrite (tokens_app_word _ _ Hfree).
  destruct l as [|y l]; cbn [spaced tokens].
  - rewrite app_nil_r. cbn [List.filter]. rewrite Hne. reflexivity.
  - change (isWhiteSpace SPACE) with true. cbn iota.
    rewrite app_nil_r. cbn [List.filter]. rewrite Hne. f_equal. exact IH.
Qed.


End Whitespace.


(* ================================================================== *)
(** * Correction extraction *)
(* ================================================================== *)

Section Corrections.
Context {D : DiffLibrary}.

(** The correction pushed by the loop body is the one of the design
    document. *)
Lemma pushed_correction (sourceFile : option jsstring) (current next : Change)
    (corrections : list Correction) :
  (if truthy (Some (trim (value current))) && truthy (Some (trim (value next)))
      && negb (Js.eqb (trim (value current)) (trim (value next)))
   then corrections ++
        [{| original := trim (value current); corrected := trim (value next);
            sourceFile := sourceFile; context := None |}]
   else corrections)
  = corrections ++ pairCorrection sourceFile current next.
Proof.
  unfold pairCorrection, Js.eqb.
  destruct (trim (value current)) as [|c r], (trim (value next)) as [|d r'];
    cbn [truthy andb]; rewrite ?app_nil_r; try reflexivity.
  repeat case_bool_decide; cbn [negb]; rewrite ?app_nil_r;
    reflexivity || congruence.
Qed.

(** The loop started at index [i] with enough fuel returns what it had
    plus the scan of the records from [i] on. *)
Lemma extract_loop_scan (sourceFile : option jsstring) (wordDiffs : list Change) :
  forall fuel i corrections,
    (length wordDiffs - i < fuel)%nat ->
    DiffEngine.extract_loop fuel wordDiffs sourceFile i corrections
    = Some (corrections ++ scanPairs sourceFile (drop i wordDiffs)).
Proof.
  induction fuel as [|fuel IH]; intros i corrections Hfuel; [lia|].
  cbn [DiffEngine.extract_loop]. destruct (wordDiffs !! i) as [current|] eqn:Hi.
  - pose proof (lookup_lt_Some _ _ _ Hi) as Hlt.
    rewrite (drop_S _ _ _ Hi).
    destruct (wordDiffs !! (i + 1)%nat) as [next|] eqn:Hi1.
    + replace (i + 1)%nat with (S i) in * by lia.
      rewrite (drop_S _ _ _ Hi1). cbn [scanPairs].
      pose proof (lookup_lt_Some _ _ _ Hi1) as Hlt1.
      destruct (removed current && added next).
      * rewrite pushed_correction. rewrite IH by lia.
        replace (i + 2)%nat with (S (S i)) by lia.
        rewrite <- app_assoc. reflexivity.
      * rewrite IH by lia. rewrite (drop_S _ _ _ Hi1). reflexivity.
    + replace (i + 1)%nat with (S i) in * by lia.
      apply lookup_ge_None in Hi1.
      rewrite (drop_ge wordDiffs (S i)) by lia. cbn [scanPairs].
      rewrite IH by lia. rewrite drop_ge by lia. reflexivity.
  - apply lookup_ge_None in Hi. rewrite drop_ge by lia.
    rewrite app_nil_r. reflexivity.
Qed.

Lemma scanPairs_noAdjacentPair (sourceLabel : option jsstring) (records : list Change) :
  noAdjacentPair records -> scanPairs sourceLabel records = [].
Proof.
  induction records as [|current tail IH]; intros Hno; [reflexivity|].
  destruct tail as [|next rest]; [reflexivity|].
  change (scanPairs sourceLabel (current :: next :: rest))
    with (if removed current && added next
          then pairCorrection sourceLabel current next ++ scanPairs sourceLabel rest
          else scanPairs sourceLabel (next :: rest)).
  rewrite (Hno 0%nat current next eq_refl eq_refl).
  apply IH. intros i c d Hc Hd. exact (Hno (S i) c d Hc Hd).
Qed.

End Corrections.

(** C7. [extractCorrections] scans the word-level diff from left to right:
    a deletion followed at once by an addition is consumed as a pair (the scan
    moves on by two) and yields exactly one correction, made of the two trimmed
    texts and the source label, when both trimmed texts are non-empty and
    differ; any other record moves the scan on by one.  The loop always ends
    with that list, and when no deletion is followed at once by an addition
    the list is empty. *)
Theorem C7_extractCorrections_scan {D : DiffLibrary}
    (original modified : jsstring) (sourceLabel : option jsstring) :
  DiffEngine.extractCorrections original modified sourceLabel
  = Some (scanPairs sourceLabel (Diff_diffWords original modified))
  /\ (forall deleted inserted rest,
        removed deleted && added inserted = true ->
        trim (value deleted) <> [] -> trim (value inserted) <> [] ->
        trim (value deleted) <> trim (value inserted) ->
        scanPairs sourceLabel (deleted :: inserted :: rest)
        = {| original := trim (value deleted); corrected := trim (value inserted);
             sourceFile := sourceLabel; context := None |}
          :: scanPairs sourceLabel rest)
  /\ (forall deleted inserted rest,
        removed deleted && added inserted = true ->
        trim (value deleted) = [] \/ trim (value inserted) = []
        \/ trim (value deleted) = trim (value inserted) ->
        scanPairs sourceLabel (deleted :: inserted :: rest)
        = scanPairs sourceLabel rest)
  /\ (forall current next rest,
        removed current && added next = false ->
        scanPairs sourceLabel (current :: next :: rest)
        = scanPairs sourceLabel (next :: rest))
  /\ (noAdjacentPair (Diff_diffWords original modified) ->
      DiffEngine.extractCorrections original modified sourceLabel = Some []).
Proof.
  assert (Hscan : DiffEngine.extractCorrections original modified sourceLabel
                  = Some (scanPairs sourceLabel (Diff_diffWords original modified))).
  { unfold DiffEngine.extractCorrections.
    rewrite extract_loop_scan by lia. reflexivity. }
  split; [exact Hscan|]. split; [|split; [|split]].
  - intros deleted inserted rest Hpair Hd Hi Hne.
    change (scanPairs sourceLabel (deleted :: inserted :: rest))
      with (if removed deleted && added inserted
            then pairCorrection sourceLabel deleted inserted ++ scanPairs sourceLabel rest
            else scanPairs sourceLabel (inserted :: rest)).
    rewrite Hpair. unfold pairCorrection.
    destruct (trim (value deleted)) as [|c r]; [congruence|].
    destruct (trim (value inserted)) as [|c' r']; [congruence|].
    rewrite bool_decide_eq_false_2 by assumption. reflexivity.
  - intros deleted inserted rest Hpair Hcase.
    change (scanPairs sourceLabel (deleted :: inserted :: rest))
      with (if removed deleted && added inserted
            then pairCorrection sourceLabel deleted inserted ++ scanPairs sourceLabel rest
            else scanPairs sourceLabel (inserted :: rest)).
    rewrite Hpair. unfold pairCorrection.
    destruct (trim (value deleted)) as [|c r]; [reflexivity|].
    destruct (trim (value inserted)) as [|c' r']; [reflexivity|].
    destruct Hcase as [Hc|[Hc|Hc]]; try discriminate.
    rewrite bool_decide_eq_true_2 by assumption. reflexivity.
  - intros current next rest Hpair.
    change (scanPairs sourceLabel (current :: next :: rest))
      with (if removed current && added next
            then pairCorrection sourceLabel current next ++ scanPairs sourceLabel rest
            else scanPairs sourceLabel (next :: rest)).
    rewrite Hpair. reflexivity.
  - intros Hno. rewrite Hscan. f_equal.
    apply scanPairs_noAdjacentPair, Hno.
Qed.

(* ================================================================== *)
(** * The client: retries and conflicts *)
(* ================================================================== *)

Section Client.

Lemma fetch_reply (req : Request) (w : World) (x : Exchange) (rest : list Exchange)
    (r : Response) :
  incoming w = x :: rest -> outcome x = Reply r ->
  fetch req w
  = (Ok r, {| incoming := rest; log := log w ++ [Fetched req];
              now := now w + latency x |}).
Proof. intros Hin Hout. unfold fetch. rewrite Hin, Hout. reflexivity. Qed.

Lemma fetch_failure (req : Request) (w : World) (x : Exchange) (rest : list Exchange)
    (message : jsstring) :
  incoming w = x :: rest -> outcome x = NetworkFailure message ->
  fetch req w
  = (Throw (PlainError message),
     {| incoming := rest; log := log w ++ [Fetched req];
        now := now w + latency x |}).
Proof. intros Hin Hout. unfold fetch. rewrite Hin, Hout. reflexivity. Qed.

(** A transient failure before the last attempt: the client sleeps and
    goes on with the next delay. *)
Lemma attemptOnce_transient (req : Request) (ro : RetryOptions) (attempt : nat)
    (delay : Z) (w : World) (x : Exchange) (rest : list Exchange) :
  incoming w = x :: rest -> transient x = true ->
  (attempt < maxRetries ro)%nat ->
  exists lastError w',
    ArkeClient.attemptOnce req ro attempt delay w
    = (Ok (ArkeClient.Continue (ArkeClient.nextDelay ro delay) (Some lastError)), w')
    /\ incoming w' = rest
    /\ log w' = log w ++ [Fetched req; Slept delay].
Proof.
  intros Hin Htr Hlt. apply Nat.ltb_lt in Hlt.
  unfold transient in Htr. unfold ArkeClient.attemptOnce, try_catch, bind.
  destruct (outcome x) as [message|r] eqn:Hout.
  - rewrite (fetch_failure _ _ _ _ _ Hin Hout), Hlt. simpl.
    eexists _, _. split; [reflexivity|]. simpl.
    rewrite <- app_assoc. auto.
  - rewrite (fetch_reply _ _ _ _ _ Hin Hout), Htr, Hlt. simpl.
    eexists _, _. split; [reflexivity|]. simpl.
    rewrite <- app_assoc. auto.
Qed.

(** [k] transient failures in a row, all before the last attempt. *)
Lemma retry_loop_transient (req : Request) (ro : RetryOptions) :
  forall (pre : list Exchange) remaining attempt delay lastError w rest,
    incoming w = pre ++ rest -> forallb transient pre = true ->
    (attempt + length pre <= maxRetries ro)%nat ->
    exists lastError' w',
      ArkeClient.retry_loop (length pre + remaining) req ro attempt delay lastError w
      = ArkeClient.retry_loop remaining req ro (attempt + length pre)
          (Nat.iter (length pre) (ArkeClient.nextDelay ro) delay) lastError' w'
      /\ incoming w' = rest
      /\ log w' = log w ++ backoffLog req ro delay (length pre).
Proof.
  induction pre as [|x pre IH]; intros remaining attempt delay lastError w rest Hin Htr Hle.
  - exists lastError, w. simpl. rewrite Nat.add_0_r, app_nil_r. auto.
  - simpl in Htr, Hle. apply andb_true_iff in Htr as [Hx Hpre].
    destruct (attemptOnce_transient req ro attempt delay w x (pre ++ rest) Hin Hx)
      as (e & w1 & Hstep & Hin1 & Hlog1); [lia|].
    destruct (IH remaining (S attempt) (ArkeClient.nextDelay ro delay) (Some e) w1 rest
                Hin1 Hpre) as (e' & w' & Hloop & Hin' & Hlog'); [lia|].
    exists e', w'. split; [|split; [exact Hin'|]].
    + cbn [length Nat.add ArkeClient.retry_loop]. unfold bind at 1.
      rewrite Hstep, Hloop. f_equal; [lia|].
      rewrite Nat.iter_succ_r. reflexivity.
    + rewrite Hlog', Hlog1. cbn [length backoffLog].
      rewrite <- app_assoc. reflexivity.
Qed.

(** The attempt that ends the loop: a response that is not retried, or the
    failure of the last attempt. *)
Lemma retry_loop_last (req : Request) (ro : RetryOptions) (remaining attempt : nat)
    (delay : Z) (lastError : option JsError) (w : World) (x : Exchange)
    (rest : list Exchange) :
  incoming w = x :: rest ->
  (attempt = maxRetries ro /\ remaining = 0%nat) \/ transient x = false ->
  exists w',
    incoming w' = rest /\ log w' = log w ++ [Fetched req]
    /\ ArkeClient.retry_loop (S remaining) req ro attempt delay lastError w
       = match outcome x with
         | NetworkFailure message => (Throw (PlainError message), w')
         | Reply r => (Ok r, w')
         end.
Proof.
  intros Hin Hcase. cbn [ArkeClient.retry_loop].
  unfold transient in Hcase.
  unfold bind at 1. unfold ArkeClient.attemptOnce, try_catch, bind.
  destruct (outcome x) as [message|r] eqn:Hout.
  - destruct Hcase as [[-> ->]|Hcase]; [|discriminate].
    rewrite (fetch_failure _ _ _ _ _ Hin Hout), Nat.ltb_irrefl. simpl.
    eexists. split; [|split; [|reflexivity]]; reflexivity.
  - rewrite (fetch_reply _ _ _ _ _ Hin Hout).
    assert (Hno : (500 <=? status r) && (attempt <? maxRetries ro)%nat = false).
    { destruct Hcase as [[-> ->]|Hcase].
      - rewrite Nat.ltb_irrefl. apply andb_false_r.
      - rewrite Hcase. reflexivity. }
    rewrite Hno. simpl.
    eexists. split; [|split; [|reflexivity]]; reflexivity.
Qed.

Lemma backoffLog_delays (req : Request) (isFirstPoll : bool) (k : nat) :
  (k <= 5)%nat ->
  backoffLog req (statusRetryOptions isFirstPoll)
    (initialDelayMs (statusRetryOptions isFirstPoll)) k
  = concat (map (fun delay => [Fetched req; Slept delay])
              (take k (backoffDelays isFirstPoll))).
Proof.
  intros Hk.
  destruct isFirstPoll;
    do 6 (destruct k as [|k]; [reflexivity|]); lia.
Qed.

Lemma getReprocessStatus_unfold (c : ArkeClient.t) (statusUrl : jsstring)
    (isFirstPoll : bool) :
  ArkeClient.getReprocessStatus c statusUrl isFirstPoll
  = (response <- ArkeClient.retry_loop 6 (statusRequest c statusUrl)
                   (statusRetryOptions isFirstPoll) 0%nat
                   (initialDelayMs (statusRetryOptions isFirstPoll)) None ;;
     if negb (ok response) then
       throw (ArkeEditError
                (lit "Failed to fetch reprocess status: " ++ statusText response)
                (lit "STATUS_ERROR") (status response) None)
     else
       j <- json response ;;
       match j with
       | JStatus s => ret s
       | _ => shapeError
       end).
Proof. destruct isFirstPoll; reflexivity. Qed.

End Client.

(** C2, as the code has it.  [getReprocessStatus] retries a 5xx-class
    response (the test is [status >= 500]) or a network-level failure at most
    five times, sleeping before each retry for
    the backoff delay: 2 seconds at first (3 seconds when [isFirstPoll]),
    doubled at each retry and capped at 30 seconds.  The first response that
    is not of the 5xx class ends the call at once: a success is decoded, any
    other status is an [ArkeEditError] with code STATUS_ERROR carrying the
    status, with no retry and no sleep.  When the five retries are used up,
    a 5xx response to the last attempt is that same [ArkeEditError], and a
    network failure of the last attempt is rethrown as it is. *)
Theorem C2_getReprocessStatus_retry (c : ArkeClient.t) (statusUrl : jsstring)
    (isFirstPoll : bool) (w : World) (pre : list Exchange) (x : Exchange)
    (rest : list Exchange) :
  incoming w = pre ++ x :: rest ->
  forallb transient pre = true ->
  (length pre <= 5)%nat ->
  ((length pre < 5)%nat -> transient x = false) ->
  let req := statusRequest c statusUrl in
  let run := ArkeClient.getReprocessStatus c statusUrl isFirstPoll w in
  incoming (snd run) = rest
  /\ log (snd run)
     = log w
       ++ concat (map (fun delay => [Fetched req; Slept delay])
                    (take (length pre) (backoffDelays isFirstPoll)))
       ++ [Fetched req]
  /\ match outcome x with
     | NetworkFailure message => fst run = Throw (PlainError message)
     | Reply r =>
         if ok r then
           match bodyJson r with
           | Some (JStatus s) => fst run = Ok s
           | _ => exists message, fst run = Throw (PlainError message)
           end
         else
           fst run
           = Throw (ArkeEditError
                      (lit "Failed to fetch reprocess status: " ++ statusText r)
                      (lit "STATUS_ERROR") (status r) None)
     end.
Proof.
  intros Hin Hpre Hle Hx req run.
  destruct (retry_loop_transient req (statusRetryOptions isFirstPoll) pre
              (S (5 - length pre)) 0%nat
              (initialDelayMs (statusRetryOptions isFirstPoll)) None w (x :: rest)
              Hin Hpre)
    as (e1 & w1 & Hloop & Hin1 & Hlog1); [simpl; lia|].
  replace (length pre + S (5 - length pre))%nat with 6%nat in Hloop by lia.
  destruct (retry_loop_last req (statusRetryOptions isFirstPoll) (5 - length pre)
              (0 + length pre)
              (Nat.iter (length pre)
                 (ArkeClient.nextDelay (statusRetryOptions isFirstPoll))
                 (initialDelayMs (statusRetryOptions isFirstPoll)))
              e1 w1 x rest Hin1)
    as (w2 & Hin2 & Hlog2 & Hlast).
  { destruct (decide (length pre < 5)%nat) as [Hlt|Hge]; [right; auto|].
    left. simpl. lia. }
  assert (Hlog : log w2
                 = log w
                   ++ concat (map (fun delay => [Fetched req; Slept delay])
                                (take (length pre) (backoffDelays isFirstPoll)))
                   ++ [Fetched req]).
  { rewrite Hlog2, Hlog1, backoffLog_delays by lia.
    rewrite <- app_assoc. reflexivity. }
  assert (Hrun : exists res, run = (res, w2)
                 /\ match outcome x with
                    | NetworkFailure message => res = Throw (PlainError message)
                    | Reply r =>
                        if ok r then
                          match bodyJson r with
                          | Some (JStatus s) => res = Ok s
                          | _ => exists message, res = Throw (PlainError message)
                          end
                        else
                          res
                          = Throw (ArkeEditError
                                     (lit "Failed to fetch reprocess status: "
                                      ++ statusText r)
                                     (lit "STATUS_ERROR") (status r) None)
                    end).
  { subst run. rewrite getReprocessStatus_unfold. fold req.
    unfold bind at 1. rewrite Hloop, Hlast.
    destruct (outcome x) as [message|r]; [eauto|].
    destruct (ok r); cbn [negb]; [|eauto].
    unfold bind, json. destruct (bodyJson r) as [[]|]; simpl; eauto. }
  destruct Hrun as (res & -> & Hres). auto.
Qed.

Section Conflict.

(** [getEntity] issues one request; what it throws is never a conflict. *)
Lemma getEntity_outcome (c : ArkeClient.t) (pi : jsstring) (w : World) :
  log (snd (ArkeClient.getEntity c pi w)) = log w ++ [Fetched (entityRequest c pi)]
  /\ match fst (ArkeClient.getEntity c pi w) with
     | Ok _ => True
     | Throw e =>
         e = EntityNotFoundError pi
         \/ (exists message status,
                e = ArkeEditError message (lit "FETCH_ERROR") status None)
         \/ (exists message, e = PlainError message)
     | Pending => False
     end.
Proof.
  unfold ArkeClient.getEntity, bind. fold (entityRequest c pi).
  unfold fetch. destruct (incoming w) as [|x rest]; [simpl; eauto|].
  destruct (outcome x) as [message|r]; [simpl; eauto|].
  destruct (status r =? 404); [simpl; eauto|].
  destruct (ok r); cbn [negb]; [|simpl; eauto 6].
  unfold json. destruct (bodyJson r) as [[]|]; simpl; eauto.
Qed.

Lemma getEntity_not_found (c : ArkeClient.t) (pi : jsstring) (w : World)
    (x : Exchange) (rest : list Exchange) (r : Response) :
  incoming w = x :: rest -> outcome x = Reply r -> status r = 404 ->
  fst (ArkeClient.getEntity c pi w) = Throw (EntityNotFoundError pi).
Proof.
  intros Hin Hout Hst. unfold ArkeClient.getEntity, bind.
  rewrite (fetch_reply _ _ _ _ _ Hin Hout), Hst. reflexivity.
Qed.

Lemma updateEntity_conflict (c : ArkeClient.t) (pi : jsstring) (update : EntityUpdate)
    (w : World) (x : Exchange) (rest : list Exchange) (r : Response) :
  incoming w = x :: rest -> outcome x = Reply r -> status r = 409 ->
  ArkeClient.updateEntity c pi update w
  = match ArkeClient.getEntity c pi (afterFetch (versionsRequest c pi update) x rest w) with
    | (Ok entity, w') =>
        (Throw (CASConflictError pi (expect_tip update) (e_manifest_cid entity)), w')
    | (Throw e, w') => (Throw e, w')
    | (Pending, w') => (Pending, w')
    end.
Proof.
  intros Hin Hout Hst. unfold ArkeClient.updateEntity.
  fold (versionsRequest c pi update). unfold bind at 1.
  rewrite (fetch_reply _ _ _ _ _ Hin Hout), Hst. cbn [Z.eqb Pos.eqb].
  unfold bind, afterFetch.
  destruct (ArkeClient.getEntity c pi _) as [[entity|e|] w']; reflexivity.
Qed.

End Conflict.

(** C9. When [updateEntity] receives a 409 it issues one more request, the
    [getEntity] fetch of the same entity, before it builds the
    [CASConflictError] from the tip that fetch reports.  If that fetch fails,
    its error is what the caller gets, an [EntityNotFoundError] (on a 404) or
    a generic error, and not a [CASConflictError]. *)
Theorem C9_conflict_follow_up_fetch (c : ArkeClient.t) (pi : jsstring)
    (update : EntityUpdate) (w : World) (x : Exchange) (rest : list Exchange)
    (r : Response) :
  incoming w = x :: rest -> outcome x = Reply r -> status r = 409 ->
  let lookup :=
    ArkeClient.getEntity c pi (afterFetch (versionsRequest c pi update) x rest w) in
  let run := ArkeClient.updateEntity c pi update w in
  log (snd run)
  = log w ++ [Fetched (versionsRequest c pi update); Fetched (entityRequest c pi)]
  /\ snd run = snd lookup
  /\ match fst lookup with
     | Ok entity =>
         fst run = Throw (CASConflictError pi (expect_tip update) (e_manifest_cid entity))
     | Throw e =>
         fst run = Throw e
         /\ isConflictError e = false
         /\ (e = EntityNotFoundError pi
             \/ (exists message status,
                    e = ArkeEditError message (lit "FETCH_ERROR") status None)
             \/ (exists message, e = PlainError message))
     | Pending => False
     end
  /\ (forall y rest' r',
        rest = y :: rest' -> outcome y = Reply r' -> status r' = 404 ->
        fst run = Throw (EntityNotFoundError pi)).
Proof.
  intros Hin Hout Hst lookup run.
  assert (Hrun : run = match lookup with
                       | (Ok entity, w') =>
                           (Throw (CASConflictError pi (expect_tip update)
                                     (e_manifest_cid entity)), w')
                       | (Throw e, w') => (Throw e, w')
                       | (Pending, w') => (Pending, w')
                       end)
    by (apply (updateEntity_conflict c pi update w x rest r); assumption).
  destruct (getEntity_outcome c pi (afterFetch (versionsRequest c pi update) x rest w))
    as [Hlog Hres].
  fold lookup in Hlog, Hres.
  assert (H404 : forall y rest' r',
             rest = y :: rest' -> outcome y = Reply r' -> status r' = 404 ->
             fst lookup = Throw (EntityNotFoundError pi)).
  { intros y rest' r' -> Hy Hr'. subst lookup.
    apply (getEntity_not_found c pi _ y rest' r'); auto. }
  rewrite Hrun. clearbody lookup run. destruct lookup as [[entity|e|] w'];
    cbn [fst snd] in *.
  - split; [|split; [reflexivity|split; [reflexivity|]]].
    + rewrite Hlog. unfold afterFetch. cbn [log]. rewrite <- app_assoc. reflexivity.
    + intros y rest' r' Hr Hy Hr'. specialize (H404 y rest' r' Hr Hy Hr'). discriminate.
  - split; [|split; [reflexivity|split]].
    + rewrite Hlog. unfold afterFetch. cbn [log]. rewrite <- app_assoc. reflexivity.
    + split; [reflexivity|]. split; [|exact Hres].
      destruct Hres as [->|[(m & s & ->)|(m & ->)]]; reflexivity.
    + intros y rest' r' Hr Hy Hr'.
      specialize (H404 y rest' r' Hr Hy Hr'). congruence.
  - destruct Hres.
Qed.

(* ================================================================== *)
(** * The session: setters, submit and polling *)
(* ================================================================== *)

Section Records.
Context {V : Type}.

Lemma eqb_refl (k : jsstring) : Js.eqb k k = true.
Proof. unfold Js.eqb. apply bool_decide_eq_true_2. reflexivity. Qed.

Lemma eqb_false (k k' : jsstring) : k <> k' -> Js.eqb k k' = false.
Proof. intros H. unfold Js.eqb. apply bool_decide_eq_false_2, H. Qed.

Lemma eqb_true (k k' : jsstring) : Js.eqb k k' = true -> k = k'.
Proof. unfold Js.eqb. apply bool_decide_eq_true. Qed.

Lemma get_update_eq (o : record V) (k : jsstring) (v : V) :
  Js.get o k <> None -> Js.get (Js.update o k v) k = Some v.
Proof.
  induction o as [|[k' v'] o IH]; cbn [Js.get Js.update]; [congruence|].
  destruct (Js.eqb k' k) eqn:Hk; cbn [Js.get]; rewrite Hk; auto.
Qed.

Lemma get_update_ne (o : record V) (k k' : jsstring) (v : V) :
  k <> k' -> Js.get (Js.update o k v) k' = Js.get o k'.
Proof.
  intros Hne. induction o as [|[k0 v0] o IH]; cbn [Js.get Js.update]; [reflexivity|].
  destruct (Js.eqb k0 k) eqn:Hk; cbn [Js.get].
  - apply eqb_true in Hk. subst k0. rewrite (eqb_false _ _ Hne). reflexivity.
  - rewrite IH. reflexivity.
Qed.

Lemma get_app_last (o : record V) (k k' : jsstring) (v : V) :
  Js.get (o ++ [(k, v)]) k'
  = match Js.get o k' with
    | Some x => Some x
    | None => if Js.eqb k k' then Some v else None
    end.
Proof.
  induction o as [|[k0 v0] o IH]; cbn [app Js.get]; [reflexivity|].
  destruct (Js.eqb k0 k'); [reflexivity|exact IH].
Qed.

Lemma get_insertIndex (o : record V) (i : N) (k k' : jsstring) (v : V) :
  Js.get o k = None ->
  Js.get (Js.insertIndex o i k v) k' = if Js.eqb k k' then Some v else Js.get o k'.
Proof.
  induction o as [|[k0 v0] o IH]; intros Hk; cbn [Js.insertIndex Js.get];
    [reflexivity|].
  cbn [Js.get] in Hk. destruct (Js.eqb k0 k) eqn:H0; [discriminate|].
  assert (Hstep : Js.get ((k0, v0) :: Js.insertIndex o i k v) k'
                  = if Js.eqb k k' then Some v else Js.get ((k0, v0) :: o) k').
  { cbn [Js.get]. destruct (Js.eqb k0 k') eqn:H1.
    - apply eqb_true in H1. subst k'.
      destruct (Js.eqb k k0) eqn:H2; [|reflexivity].
      apply eqb_true in H2. subst k0. rewrite eqb_refl in H0. discriminate.
    - apply IH, Hk. }
  destruct (Js.arrayIndex k0) as [j|]; [destruct (j <? i)%N|]; try exact Hstep;
    reflexivity.
Qed.

Lemma get_put_eq (o : record V) (k : jsstring) (v : V) :
  Js.get (Js.put o k v) k = Some v.
Proof.
  unfold Js.put. destruct (Js.get o k) eqn:Hk.
  - apply get_update_eq. congruence.
  - destruct (Js.arrayIndex k).
    + rewrite get_insertIndex by exact Hk. rewrite eqb_refl. reflexivity.
    + rewrite get_app_last, Hk, eqb_refl. reflexivity.
Qed.

Lemma get_put_ne (o : record V) (k k' : jsstring) (v : V) :
  k <> k' -> Js.get (Js.put o k v) k' = Js.get o k'.
Proof.
  intros Hne. unfold Js.put. destruct (Js.get o k) eqn:Hk.
  - apply get_update_ne, Hne.
  - destruct (Js.arrayIndex k).
    + rewrite get_insertIndex by exact Hk. rewrite (eqb_false _ _ Hne). reflexivity.
    + rewrite get_app_last, (eqb_false _ _ Hne). destruct (Js.get o k'); reflexivity.
Qed.

(** An assignment defines the property, unless the key is [__proto__]. *)
Lemma set_put (o : record V) (k : jsstring) (v : V) :
  k <> PROTO -> Js.set o k v = Js.put o k v.
Proof.
  intros Hk. unfold Js.set, Js.eqb. rewrite bool_decide_eq_false_2; auto.
Qed.

Lemma set_proto (o : record V) (v : V) : Js.set o PROTO v = o.
Proof. reflexivity. Qed.

Lemma get_set_eq (o : record V) (k : jsstring) (v : V) :
  k <> PROTO -> Js.get (Js.set o k v) k = Some v.
Proof. intros Hk. rewrite set_put by exact Hk. apply get_put_eq. Qed.

Lemma get_set_ne (o : record V) (k k' : jsstring) (v : V) :
  k <> k' -> Js.get (Js.set o k v) k' = Js.get o k'.
Proof.
  intros Hne. unfold Js.set. destruct (Js.eqb k PROTO); [reflexivity|].
  apply get_put_ne, Hne.
Qed.

End Records.

Lemma targetName_stored (t : PromptTarget) : targetName t <> PROTO.
Proof. destruct t as [[]| |]; discriminate. Qed.

Lemma componentName_stored (c : RegeneratableComponent) : componentName c <> PROTO.
Proof. destruct c; discriminate. Qed.

Lemma inherited_proto (k : jsstring) : inherited k = false -> k <> PROTO.
Proof. intros Hk ->. discriminate Hk. Qed.

(** C4, as the code has it.  The mode-gated setters raise validation errors
    and leave the session as it was: [setContent] in ai-prompt mode and
    [setPrompt] in manual-only mode.  In the other modes they succeed;
    [setPrompt] stores the prompt under the name of the target, and
    [setContent] stores the content under the component name and leaves the
    other components alone, for every component name other than [__proto__].
    No setter looks at whether [load] has completed: [addCorrection],
    [setScope] and the clearing methods always succeed. *)
Theorem C4_setters_mode_gated (s : EditSession.t) (target : PromptTarget)
    (name text : jsstring) (source : option jsstring) (partial : PartialScope) :
  (EditSession.setPrompt target text s
   = match EditSession.mode s with
     | manual_only =>
         (Throw (ValidationError (lit "Cannot set prompts in manual-only mode") None), s)
     | _ =>
         (Ok tt, EditSession.set_prompts
                   (Js.set (EditSession.prompts s) (targetName target) text) s)
     end)
  /\ (EditSession.mode s = ai_prompt ->
      EditSession.setContent name text s
      = (Throw (ValidationError (lit "Cannot set content in ai-prompt mode") None), s))
  /\ (EditSession.mode s <> ai_prompt ->
      fst (EditSession.setContent name text s) = Ok tt
      /\ (name <> PROTO ->
          Js.get (EditSession.editedContent (snd (EditSession.setContent name text s)))
            name
          = Some text
          /\ (forall k, k <> name ->
                Js.get (EditSession.editedContent
                          (snd (EditSession.setContent name text s))) k
                = Js.get (EditSession.editedContent s) k)
          /\ EditSession.set_editedContent (EditSession.editedContent s)
               (snd (EditSession.setContent name text s))
             = s))
  /\ Js.get (Js.set (EditSession.prompts s) (targetName target) text) (targetName target)
     = Some text
  /\ fst (EditSession.addCorrection name text source s) = Ok tt
  /\ fst (EditSession.setScope partial s) = Ok tt
  /\ fst (EditSession.clearPrompt target s) = Ok tt
  /\ fst (EditSession.clearContent name s) = Ok tt
  /\ fst (EditSession.clearCorrections s) = Ok tt.
Proof.
  split; [|split; [|split; [|repeat split; apply get_set_eq, targetName_stored]]].
  - unfold EditSession.setPrompt, bind, gets, throw, modify, id.
    destruct (EditSession.mode s); reflexivity.
  - intros Hmode. unfold EditSession.setContent, bind, gets, throw, modify, id.
    rewrite Hmode. reflexivity.
  - intros Hmode.
    assert (Hrun : EditSession.setContent name text s
                   = (Ok tt, EditSession.set_editedContent
                               (Js.set (EditSession.editedContent s) name text) s)).
    { unfold EditSession.setContent, bind, gets, throw, modify, id.
      destruct (EditSession.mode s); [congruence|reflexivity|reflexivity]. }
    rewrite Hrun. cbn [fst snd EditSession.editedContent EditSession.set_editedContent].
    split; [reflexivity|]. intros Hname. split; [apply get_set_eq, Hname|]. split.
    + intros k Hk. apply get_set_ne. congruence.
    + destruct s; reflexivity.
Qed.

(** A setter called before [load]: the session has no entity yet, and the
    prompt is stored without an error. *)
Lemma C4_setter_before_load :
  EditSession.entity freshSession = None
  /\ fst (EditSession.setPrompt target_general (lit "Shorten it") freshSession) = Ok tt
  /\ Js.get (EditSession.prompts
               (snd (EditSession.setPrompt target_general (lit "Shorten it")
                       freshSession)))
       (lit "general")
     = Some (lit "Shorten it").
Proof. vm_compute. auto. Qed.

(** C8. A session that never triggered regeneration has no status URL, and
    [waitForCompletion] then resolves at once with the complete status,
    whatever the options: nothing is fetched, nothing is slept, no progress
    callback runs, and the session is as before. *)
Theorem C8_waitForCompletion_without_status_url (fuel : nat)
    (options : option PollOptions) (s : EditSession.t) (w : World) :
  EditSession.statusUrl s = None ->
  EditSession.waitForCompletion fuel options (s, w) = (Ok completeStatus, (s, w)).
Proof.
  intros Hurl. unfold EditSession.waitForCompletion, bind, EditSession.this, gets.
  cbn [fst]. rewrite Hurl. reflexivity.
Qed.

Section Submit.
Context {D : DiffLibrary}.

(** [getDiff] and the upload loop read the loaded and the edited contents
    (and the client) only. *)
Lemma getDiff_frame (s s' : EditSession.t) :
  EditSession.loadedComponents s' = EditSession.loadedComponents s ->
  EditSession.editedContent s' = EditSession.editedContent s ->
  EditSession.getDiff s' = EditSession.getDiff s.
Proof.
  intros Hl He. unfold EditSession.getDiff, EditSession.originalOf.
  rewrite Hl, He. reflexivity.
Qed.

Lemma uploadEdited_frame (s s' : EditSession.t) (entries : list (jsstring * jsstring)) :
  EditSession.loadedComponents s' = EditSession.loadedComponents s ->
  EditSession.client s' = EditSession.client s ->
  forall updates w,
    EditSession.uploadEdited s' entries updates w
    = EditSession.uploadEdited s entries updates w.
Proof.
  intros Hl Hc. induction entries as [|[name content] entries IH]; intros updates w;
    [reflexivity|].
  cbn [EditSession.uploadEdited]. unfold EditSession.originalOf.
  rewrite Hl, Hc.
  destruct (DiffEngine.hasSignificantChanges _ content); [|apply IH].
  unfold bind.
  destruct (ArkeClient.uploadContent (EditSession.client s) content name w)
    as [[cid|e|] w']; auto.
Qed.

Lemma getDiff_nil (s : EditSession.t) :
  (forall name content,
      In (name, content) (EditSession.editedContent s) ->
      DiffEngine.hasSignificantChanges (EditSession.originalOf s name) content = false) ->
  EditSession.getDiff s = [].
Proof.
  unfold EditSession.getDiff.
  induction (EditSession.editedContent s) as [|[name content] entries IH];
    intros Hno; [reflexivity|].
  cbn [map concat]. rewrite (Hno name content) by (left; reflexivity).
  cbn [app]. apply IH. intros n c Hin. apply Hno. right. exact Hin.
Qed.

Lemma submit_unfold (note : jsstring) (s : EditSession.t) (w : World) (e : Entity) :
  EditSession.entity s = Some e -> EditSession.submitting s = false ->
  EditSession.submit note (s, w)
  = let '(r, (s', w')) :=
      (EditSession.phase1 note e ;;;
       EditSession.phase2 ;;;
       s1 <- EditSession.this ;; ret (EditSession.theResult s1)) (started s, w) in
    (r, (EditSession.set_submitting false s', w')).
Proof.
  intros He Hs. unfold EditSession.submit.
  unfold bind at 1. unfold EditSession.this at 1. unfold gets. cbn [fst].
  rewrite Hs, He. unfold bind at 1. unfold EditSession.update, modify.
  unfold try_finally. fold (started s).
  destruct ((EditSession.phase1 note e;;; _) (started s, w)) as [r [s' w']].
  reflexivity.
Qed.

End Submit.

Section SubmitPhases.
Context {D : DiffLibrary}.

(** Phase 1 with a significant edit: once the uploads are through, what
    happens is what [updateEntity] does. *)
Lemma phase1_commit (note : jsstring) (s : EditSession.t) (w w1 : World) (e : Entity)
    (updates : record jsstring) :
  existsb cd_hasChanges (EditSession.getDiff s) = true ->
  EditSession.uploadEdited s (EditSession.editedContent s) [] w = (Ok updates, w1) ->
  EditSession.phase1 note e (started s, w)
  = match ArkeClient.updateEntity (EditSession.client s) (EditSession.pi s)
            (commitOf e updates note) w1 with
    | (Ok version, w') => (Ok tt, (committed s e version, w'))
    | (Throw err, w') => (Throw err, (started s, w'))
    | (Pending, w') => (Pending, (started s, w'))
    end.
Proof.
  intros Hedit Hup. unfold EditSession.phase1.
  unfold bind at 1. unfold EditSession.this at 1. unfold gets. cbn [fst].
  rewrite (getDiff_frame s (started s) eq_refl eq_refl), Hedit.
  unfold when, bind, EditSession.call.
  change (EditSession.editedContent (started s)) with (EditSession.editedContent s).
  rewrite (uploadEdited_frame s (started s) _ eq_refl eq_refl), Hup.
  change (EditSession.client (started s)) with (EditSession.client s).
  change (EditSession.pi (started s)) with (EditSession.pi s).
  fold (commitOf e updates note).
  destruct (ArkeClient.updateEntity _ _ _ w1) as [[version|err|] w']; reflexivity.
Qed.

Lemma phase1_skipped (note : jsstring) (s : EditSession.t) (w : World) (e : Entity) :
  existsb cd_hasChanges (EditSession.getDiff s) = false ->
  EditSession.phase1 note e (started s, w) = (Ok tt, (started s, w)).
Proof.
  intros Hedit. unfold EditSession.phase1.
  unfold bind at 1. unfold EditSession.this at 1. unfold gets. cbn [fst].
  rewrite (getDiff_frame s (started s) eq_refl eq_refl), Hedit. reflexivity.
Qed.

Lemma getEntity_found (c : ArkeClient.t) (pi : jsstring) (w : World) (y : Exchange)
    (rest : list Exchange) (r : Response) (current : Entity) :
  incoming w = y :: rest -> outcome y = Reply r -> ok r = true ->
  bodyJson r = Some (JEntity current) ->
  fst (ArkeClient.getEntity c pi w) = Ok current.
Proof.
  intros Hin Hout Hok Hjson. unfold ArkeClient.getEntity, bind.
  rewrite (fetch_reply _ _ _ _ _ Hin Hout).
  assert (H404 : (status r =? 404) = false).
  { unfold ok in Hok. apply andb_true_iff in Hok as [_ Hle].
    apply Z.leb_le in Hle. apply Z.eqb_neq. lia. }
  rewrite H404, Hok. unfold json. rewrite Hjson. reflexivity.
Qed.

(** [submit] leaves the in-flight flag down, however it ends. *)
Lemma submit_restores_flag (note : jsstring) (s : EditSession.t) (w : World) :
  EditSession.submitting s = false ->
  EditSession.submitting (fst (snd (EditSession.submit note (s, w)))) = false.
Proof.
  intros Hs. destruct (EditSession.entity s) as [e|] eqn:He.
  - rewrite (submit_unfold note s w e He Hs).
    destruct ((EditSession.phase1 note e;;; _) (started s, w)) as [r [s' w']].
    reflexivity.
  - unfold EditSession.submit, bind, EditSession.this, gets. cbn [fst].
    rewrite Hs, He. exact Hs.
Qed.

End SubmitPhases.

(** C5. On a loaded session with no significantly edited component and an
    empty scope, [submit] succeeds with the empty result, which has neither
    a [saved] nor a [reprocess] key, and the world is as before: no upload,
    no commit, no regeneration request.  This is for edited components whose
    names are not inherited from [Object.prototype]: for an edit of a
    component named "toString", say, the code reads the inherited function as
    the original and [submit] rejects with a [TypeError]. *)
Theorem C5_submit_nothing_to_do {D : DiffLibrary} (note : jsstring)
    (s : EditSession.t) (w : World) (e : Entity) :
  EditSession.entity s = Some e ->
  EditSession.submitting s = false ->
  (forall name content,
      In (name, content) (EditSession.editedContent s) ->
      inherited name = false
      /\ DiffEngine.hasSignificantChanges (EditSession.originalOf s name) content
         = false) ->
  components (EditSession.scope s) = [] ->
  EditSession.submit note (s, w)
  = (Ok {| saved := None; reprocessed := None |},
     (EditSession.set_result (Some EditSession.emptyResult) s, w)).
Proof.
  intros He Hs Hedits Hscope.
  rewrite (submit_unfold note s w e He Hs).
  unfold bind at 1.
  rewrite phase1_skipped
    by (rewrite (getDiff_nil s (fun name content Hin => proj2 (Hedits name content Hin)));
        reflexivity).
  unfold bind at 1. unfold EditSession.phase2.
  unfold bind at 1. unfold EditSession.this at 1. unfold gets. cbn [fst].
  change (EditSession.scope (started s)) with (EditSession.scope s).
  rewrite Hscope. cbn [length Z.of_nat Z.ltb Z.compare when ret].
  unfold bind, EditSession.this, gets, ret. cbn [fst].
  destruct s. cbn in Hs. subst. reflexivity.
Qed.

(** C1, as the code has it.  When the commit of phase 1 receives a 409, the
    write is issued once and not retried: the only request after it is the fetch of
    the entity's current state.  [submit] rejects, the session's entity, with
    its version and tip, is what it was before the call, and the in-flight
    flag is down again.  When that fetch answers with the entity, the error
    is a [CASConflictError] carrying the tip the commit expected and the tip
    the server reports. *)
Theorem C1_submit_conflict {D : DiffLibrary} (note : jsstring) (s : EditSession.t)
    (w w1 : World) (e : Entity) (updates : record jsstring) (x : Exchange)
    (rest : list Exchange) (r : Response) :
  EditSession.entity s = Some e ->
  EditSession.submitting s = false ->
  existsb cd_hasChanges (EditSession.getDiff s) = true ->
  EditSession.uploadEdited s (EditSession.editedContent s) [] w = (Ok updates, w1) ->
  incoming w1 = x :: rest -> outcome x = Reply r -> status r = 409 ->
  let commit :=
    versionsRequest (EditSession.client s) (EditSession.pi s) (commitOf e updates note) in
  let run := EditSession.submit note (s, w) in
  EditSession.entity (fst (snd run)) = Some e
  /\ EditSession.submitting (fst (snd run)) = false
  /\ log (snd (snd run))
     = log w1 ++ [Fetched commit;
                  Fetched (entityRequest (EditSession.client s) (EditSession.pi s))]
  /\ (exists err, fst run = Throw err)
  /\ (forall y rest' r' current,
        rest = y :: rest' -> outcome y = Reply r' -> ok r' = true ->
        bodyJson r' = Some (JEntity current) ->
        fst run
        = Throw (CASConflictError (EditSession.pi s) (e_manifest_cid e)
                   (e_manifest_cid current))).
Proof.
  intros He Hs Hedit Hup Hin Hout Hst commit run.
  pose proof (Hupd := updateEntity_conflict (EditSession.client s) (EditSession.pi s)
                        (commitOf e updates note) w1 x rest r Hin Hout Hst).
  fold commit in Hupd.
  destruct (getEntity_outcome (EditSession.client s) (EditSession.pi s)
              (afterFetch commit x rest w1)) as [Hlog Hres].
  assert (Hfound : forall y rest' r' current,
             rest = y :: rest' -> outcome y = Reply r' -> ok r' = true ->
             bodyJson r' = Some (JEntity current) ->
             fst (ArkeClient.getEntity (EditSession.client s) (EditSession.pi s)
                    (afterFetch commit x rest w1)) = Ok current).
  { intros y rest' r' current -> Hy Hok Hjson.
    apply (getEntity_found _ _ _ y rest' r' current); auto. }
  assert (Hrun : forall err w',
             ArkeClient.updateEntity (EditSession.client s) (EditSession.pi s)
               (commitOf e updates note) w1 = (Throw err, w') ->
             run = (Throw err, (EditSession.set_submitting false (started s), w'))).
  { intros err w' Heq. subst run. rewrite (submit_unfold note s w e He Hs).
    unfold bind at 1. rewrite (phase1_commit note s w w1 e updates Hedit Hup), Heq.
    reflexivity. }
  clearbody run.
  destruct (ArkeClient.getEntity (EditSession.client s) (EditSession.pi s)
              (afterFetch commit x rest w1)) as [[entity|err|] w'];
    cbn [fst snd] in *; [| |destruct Hres];
    rewrite (Hrun _ _ Hupd); cbn [fst snd].
  - repeat split.
    + exact He.
    + rewrite Hlog. unfold afterFetch. cbn [log]. rewrite <- app_assoc. reflexivity.
    + eauto.
    + intros y rest' r' current Hr Hy Hok Hjson.
      specialize (Hfound y rest' r' current Hr Hy Hok Hjson).
      inversion Hfound; subst. reflexivity.
  - repeat split.
    + exact He.
    + rewrite Hlog. unfold afterFetch. cbn [log]. rewrite <- app_assoc. reflexivity.
    + eauto.
    + intros y rest' r' current Hr Hy Hok Hjson.
      specialize (Hfound y rest' r' current Hr Hy Hok Hjson). discriminate.
Qed.

(* ================================================================== *)
(** * Preview against payload *)
(* ================================================================== *)

Section Preview.
Context {D : DiffLibrary}.

Lemma componentName_inj (a b : RegeneratableComponent) :
  componentName a = componentName b -> a = b.
Proof. destruct a, b; intros H; try reflexivity; vm_compute in H; discriminate. Qed.

(** The last write to a key of the preview is the one that is read. *)
Lemma preview_fold_get (f : RegeneratableComponent -> jsstring)
    (c : RegeneratableComponent) :
  forall (l : list RegeneratableComponent) (acc : record jsstring),
    In c l \/ Js.get acc (componentName c) = Some (f c) ->
    Js.get (fold_left (fun result component =>
                         Js.set result (componentName component) (f component))
              l acc)
      (componentName c)
    = Some (f c).
Proof.
  induction l as [|a l IH]; intros acc Hc.
  - destruct Hc as [[]|Hacc]. exact Hacc.
  - cbn [fold_left]. apply IH.
    destruct Hc as [[->|Hin]|Hacc];
      [right; apply get_set_eq, componentName_stored|left; exact Hin|].
    right. destruct (decide (componentName a = componentName c)) as [Heq|Hne].
    + apply componentName_inj in Heq. subst a. apply get_set_eq, componentName_stored.
    + rewrite get_set_ne by exact Hne. exact Hacc.
Qed.

Lemma previewPrompt_get (s : EditSession.t) (e : Entity) (c : RegeneratableComponent) :
  EditSession.entity s = Some e -> In c (components (EditSession.scope s)) ->
  Js.get (EditSession.previewPrompt s) (componentName c)
  = Some (EditSession.previewOne s e c).
Proof.
  intros He Hc. unfold EditSession.previewPrompt. rewrite He.
  apply (preview_fold_get (EditSession.previewOne s e)). left. exact Hc.
Qed.

Lemma occursIn_longer (p before after : jsstring) :
  before <> [] -> before ++ p ++ after <> p.
Proof.
  intros Hne Heq. apply (f_equal length) in Heq. rewrite !length_app in Heq.
  destruct before; [congruence|]. simpl in Heq. lia.
Qed.

(** The component prompt sits in the combined prompt, under its heading. *)
Lemma buildCombinedPrompt_component (general : option jsstring) (p : jsstring)
    (c : RegeneratableComponent) :
  p <> [] ->
  exists before,
    PromptBuilder.buildCombinedPrompt general (Some p) c = before ++ p ++ NL
    /\ before <> [].
Proof.
  intros Hp. unfold PromptBuilder.buildCombinedPrompt.
  assert (Htruthy : truthy (Some p) = true) by (destruct p; [congruence|reflexivity]).
  rewrite Htruthy. cbn [ofOpt].
  destruct (truthy general); cbn [app join].
  - exists (lit "## General Instructions" ++ NL ++ ofOpt general ++ NL ++ [] ++ NL
            ++ (lit "## Specific Instructions for " ++ componentName c) ++ NL).
    split; [|discriminate].
    rewrite app_nil_r. repeat rewrite <- app_assoc. reflexivity.
  - exists ((lit "## Specific Instructions for " ++ componentName c) ++ NL).
    split; [|discriminate].
    rewrite app_nil_r. repeat rewrite <- app_assoc. reflexivity.
Qed.

(** The user prompt is the second line block of the AI prompt. *)
Lemma buildAIPrompt_shape (userPrompt : jsstring) (c : RegeneratableComponent)
    (entityContext : EntityContext) (currentContent : option jsstring) :
  exists after,
    PromptBuilder.buildAIPrompt userPrompt c entityContext currentContent
    = (lit "## Instructions for " ++ componentName c) ++ NL ++ userPrompt ++ after.
Proof.
  unfold PromptBuilder.buildAIPrompt. cbn [app join]. eexists.
  repeat rewrite <- app_assoc. reflexivity.
Qed.

Lemma buildCascadePrompt_shape (basePrompt : jsstring) (cascadeContext : CascadeContext) :
  exists after,
    PromptBuilder.buildCascadePrompt basePrompt cascadeContext = basePrompt ++ after.
Proof.
  unfold PromptBuilder.buildCascadePrompt. cbn [app join]. eexists. reflexivity.
Qed.

Lemma previewOne_ai_prompt (s : EditSession.t) (e : Entity) (c : RegeneratableComponent)
    (p : jsstring) :
  EditSession.mode s = ai_prompt ->
  Js.get (EditSession.prompts s) (componentName c) = Some p -> p <> [] ->
  exists before after,
    EditSession.previewOne s e c = before ++ p ++ after /\ before <> [].
Proof.
  intros Hmode Hp Hne. unfold EditSession.previewOne. rewrite Hmode, Hp.
  destruct (buildCombinedPrompt_component
              (Js.get (EditSession.prompts s) (lit "general")) p c Hne)
    as (pre & -> & Hpre).
  match goal with
  | |- context [PromptBuilder.buildAIPrompt ?u ?c ?ctx ?cc] =>
      destruct (buildAIPrompt_shape u c ctx cc) as (post & ->)
  end.
  destruct (cascade (EditSession.scope s)).
  - match goal with
    | |- context [PromptBuilder.buildCascadePrompt ?b ?cc] =>
        destruct (buildCascadePrompt_shape b cc) as (post' & ->)
    end.
    exists ((lit "## Instructions for " ++ componentName c) ++ NL ++ pre),
           (NL ++ post ++ post').
    split; [repeat rewrite <- app_assoc; reflexivity|discriminate].
  - exists ((lit "## Instructions for " ++ componentName c) ++ NL ++ pre), (NL ++ post).
    split; [repeat rewrite <- app_assoc; reflexivity|discriminate].
Qed.

Lemma customPromptFor_ai_prompt (s : EditSession.t) (c : RegeneratableComponent)
    (p : jsstring) :
  EditSession.mode s = ai_prompt ->
  Js.get (EditSession.prompts s) (componentName c) = Some p -> p <> [] ->
  customPromptFor c (EditSession.buildCustomPrompts s) = Some p.
Proof.
  intros Hmode Hp Hne. unfold EditSession.buildCustomPrompts. rewrite Hmode.
  destruct c; cbn [customPromptFor cp_pinax cp_description cp_cheimarros];
    unfold EditSession.promptIfSet; cbn [componentName] in Hp; rewrite Hp;
    destruct p; congruence || reflexivity.
Qed.

Lemma fetch_log (req : Request) (w : World) :
  log (snd (fetch req w)) = log w ++ [Fetched req].
Proof.
  unfold fetch. destruct (incoming w) as [|x rest]; [reflexivity|].
  destruct (outcome x); reflexivity.
Qed.

Lemma reprocess_log (c : ArkeClient.t) (request : ReprocessRequest) (w : World) :
  log (snd (ArkeClient.reprocess c request w))
  = log w ++ [Fetched {| url := ArkeClient.reprocessApiUrl c ++ lit "/api/reprocess";
                         method := POST; headers := ArkeClient.getHeaders c;
                         body := JsonReprocess request |}].
Proof.
  unfold ArkeClient.reprocess, bind.
  match goal with |- context [fetch ?req w] => pose proof (fetch_log req w) as Hlog;
    destruct (fetch req w) as [[response|e|] w'] end; cbn [snd] in *; try exact Hlog.
  destruct (negb (ok response)); [exact Hlog|].
  unfold json. destruct (bodyJson response) as [[]|]; exact Hlog.
Qed.

(** Without manual edits, the one request of [submit] is the regeneration
    request, and it carries the custom prompts of [buildCustomPrompts]. *)
Lemma submit_sends_custom_prompts (note : jsstring) (s : EditSession.t) (w : World)
    (e : Entity) :
  EditSession.entity s = Some e -> EditSession.submitting s = false ->
  EditSession.editedContent s = [] ->
  components (EditSession.scope s) <> [] ->
  log (snd (snd (EditSession.submit note (s, w))))
  = log w ++ [Fetched (reprocessRequest s (EditSession.buildCustomPrompts s))].
Proof.
  intros He Hs Hedits Hscope.
  rewrite (submit_unfold note s w e He Hs).
  assert (Hdiff : EditSession.getDiff s = [])
    by (unfold EditSession.getDiff; rewrite Hedits; reflexivity).
  unfold bind at 1. rewrite phase1_skipped by (rewrite Hdiff; reflexivity).
  unfold bind at 1. unfold EditSession.phase2.
  unfold bind at 1. unfold EditSession.this at 1. unfold gets. cbn [fst].
  change (EditSession.scope (started s)) with (EditSession.scope s).
  assert (Hlen : (0 <? Z.of_nat (length (components (EditSession.scope s)))) = true).
  { destruct (components (EditSession.scope s)); [congruence|]. reflexivity. }
  rewrite Hlen. cbn [when].
  unfold bind at 1, EditSession.call.
  pose proof (reprocess_log (EditSession.client (started s))
                {| rq_pi := EditSession.pi (started s);
                   rq_phases := components (EditSession.scope s);
                   rq_cascade := cascade (EditSession.scope s);
                   rq_stop_at_pi := stopAtPi (EditSession.scope s);
                   rq_custom_prompts := Some (EditSession.buildCustomPrompts (started s));
                   rq_custom_note := None |} w) as Hlog.
  change (EditSession.buildCustomPrompts (started s))
    with (EditSession.buildCustomPrompts s) in *.
  destruct (ArkeClient.reprocess _ _ w) as [[rr|err|] w']; cbn [snd] in Hlog;
    cbn [fst snd]; exact Hlog.
Qed.

End Preview.

(** X24. In ai-prompt mode, for a component of the scope with a prompt set,
    [submit] sends that prompt as it is under the component's key of the
    custom prompts, and the text [previewPrompt] shows for the component is a
    longer one, rendered by the prompt builder, in which that prompt occurs.
    Without manual edits the one request of [submit] is the regeneration
    request carrying those custom prompts. *)
Theorem preview_embeds_prompt {D : DiffLibrary} (s : EditSession.t) (e : Entity)
    (c : RegeneratableComponent) (p : jsstring) :
  EditSession.mode s = ai_prompt ->
  EditSession.entity s = Some e ->
  In c (components (EditSession.scope s)) ->
  Js.get (EditSession.prompts s) (componentName c) = Some p ->
  p <> [] ->
  customPromptFor c (EditSession.buildCustomPrompts s) = Some p
  /\ (exists text,
        Js.get (EditSession.previewPrompt s) (componentName c) = Some text
        /\ occursIn p text /\ text <> p)
  /\ (forall note w,
        EditSession.submitting s = false -> EditSession.editedContent s = [] ->
        log (snd (snd (EditSession.submit note (s, w))))
        = log w ++ [Fetched (reprocessRequest s (EditSession.buildCustomPrompts s))]).
Proof.
  intros Hmode He Hc Hp Hne. split; [|split].
  - apply customPromptFor_ai_prompt; assumption.
  - destruct (previewOne_ai_prompt s e c p Hmode Hp Hne) as (before & after & Htext & Hb).
    exists (EditSession.previewOne s e c). split; [|split].
    + apply previewPrompt_get; assumption.
    + exists before, after. exact Htext.
    + rewrite Htext. apply occursIn_longer, Hb.
  - intros note w Hs Hedits.
    apply (submit_sends_custom_prompts note s w e He Hs Hedits).
    intros Hnil. rewrite Hnil in Hc. destruct Hc.
Qed.

(* ================================================================== *)
(** * The read accessors and sharing *)
(* ================================================================== *)

Section Accessors.
Import ObjectStore.

Lemma closed_lookup (h : store) (l : loc) (o : object) :
  closed h = true -> h !! l = Some o -> objectIn (length h) o = true.
Proof.
  unfold closed. intros Hc Hl.
  apply Is_true_true, forallb_True in Hc.
  apply Is_true_true. exact (proj1 (Forall_lookup _ _) Hc l o Hl).
Qed.

(** A value of a closed store reads the same in any store that agrees
    with it on its objects. *)
Lemma snapshot_agree (h h' : store) :
  closed h = true ->
  (forall l : loc, (l < length h)%nat -> h' !! l = h !! l) ->
  forall depth v,
    valueIn (length h) v = true -> snapshot depth h' v = snapshot depth h v.
Proof.
  intros Hc Hagree. induction depth as [|depth IH]; intros v Hv;
    destruct v as [| | | |l]; try reflexivity.
  cbn [valueIn] in Hv. apply bool_decide_eq_true in Hv.
  cbn [snapshot]. rewrite (Hagree l Hv).
  destruct (h !! l) as [[props|elems]|] eqn:Hl; [| |reflexivity].
  - f_equal. apply Forall_mapM_ext.
    pose proof (closed_lookup h l _ Hc Hl) as Hin. cbn [objectIn] in Hin.
    apply Is_true_true, forallb_True in Hin.
    eapply Forall_impl; [exact Hin|].
    intros [k v'] Hv'. cbn [snd] in Hv'. apply Is_true_true in Hv'.
    rewrite (IH v' Hv'). reflexivity.
  - f_equal. apply Forall_mapM_ext.
    pose proof (closed_lookup h l _ Hc Hl) as Hin. cbn [objectIn] in Hin.
    apply Is_true_true, forallb_True in Hin.
    eapply Forall_impl; [exact Hin|].
    intros v' Hv'. apply Is_true_true in Hv'. exact (IH v' Hv').
Qed.

(** The value of a copy: the object, with its parts read in the store the
    copy was made in. *)
Lemma snapshot_copy (h h' : store) (o : object) (l : loc) :
  closed h = true ->
  (forall l' : loc, (l' < length h)%nat -> h' !! l' = h !! l') ->
  objectIn (length h) o = true ->
  h' !! l = Some o ->
  forall depth,
    snapshot (S depth) h' (VRef l)
    = match o with
      | Obj props =>
          TObj <$> mapM (fun '(k, v') => pair k <$> snapshot depth h v') props
      | Arr elems => TArr <$> mapM (snapshot depth h) elems
      end.
Proof.
  intros Hc Hagree Hin Hl depth. cbn [snapshot]. rewrite Hl.
  destruct o as [props|elems]; cbn [objectIn] in Hin;
    apply Is_true_true, forallb_True in Hin; f_equal; apply Forall_mapM_ext;
    (eapply Forall_impl; [exact Hin|]).
  - intros [k v'] Hv'. cbn [snd] in Hv'. apply Is_true_true in Hv'.
    rewrite (snapshot_agree h h' Hc Hagree depth v' Hv'). reflexivity.
  - intros v' Hv'. apply Is_true_true in Hv'.
    exact (snapshot_agree h h' Hc Hagree depth v' Hv').
Qed.

(** Mutations of the last object of the store leave the others alone. *)
Lemma mutate_last (h : store) (o : object) (m : mutation) :
  target m = length h -> mutate m (h ++ [o]) = h ++ [mutateObject m o].
Proof.
  intros Ht. unfold mutate. rewrite Ht.
  rewrite list_lookup_middle by reflexivity.
  rewrite (insert_app_r_alt h [o] (length h)) by lia.
  rewrite Nat.sub_diag. reflexivity.
Qed.

Lemma mutateAll_last (h : store) (ms : list mutation) :
  Forall (fun m => target m = length h) ms ->
  forall o, exists o', mutateAll ms (h ++ [o]) = h ++ [o'].
Proof.
  unfold mutateAll. induction 1 as [|m ms Hm _ IH]; intros o; cbn [fold_left].
  - exists o. reflexivity.
  - rewrite (mutate_last h o m Hm). apply IH.
Qed.

Lemma returning_copy (f : fields -> loc) (st : state) :
  (f (self st) < length (heap st))%nat ->
  exists o,
    heap st !! f (self st) = Some o
    /\ returning f st
       = (length (heap st), {| self := self st; heap := heap st ++ [o] |}).
Proof.
  intros Hlt. destruct (lookup_lt_is_Some_2 _ _ Hlt) as [o Ho].
  exists o. split; [exact Ho|]. unfold returning, spread. rewrite Ho. reflexivity.
Qed.

Lemma run_returning (a : accessor) : run a = returning (fieldOf a).
Proof. destruct a; reflexivity. Qed.

Lemma wf_field (a : accessor) (st : state) :
  wf st = true ->
  closed (heap st) = true /\ (fieldOf a (self st) < length (heap st))%nat.
Proof.
  unfold wf. rewrite !andb_true_iff, !bool_decide_eq_true.
  intros [[[[[Hc H1] H2] H3] H4] H5]. split; [exact Hc|].
  destruct a; assumption.
Qed.

End Accessors.

(** C10, as the code has it.  Every read accessor returns a new object that
    holds the own properties, or the elements, of the session's object, and
    changes nothing the session had.  Whatever the caller then does to the
    returned object itself (sets or deletes its properties, pushes, overwrites
    or drops its elements), the session's objects stay as they were and a
    second call returns an equal value. *)
Theorem C10_accessors_return_copies (a : ObjectStore.accessor) (st : ObjectStore.state)
    (ms : list ObjectStore.mutation) :
  ObjectStore.wf st = true ->
  let first := ObjectStore.run a st in
  Forall (fun m => ObjectStore.target m = fst first) ms ->
  let second := ObjectStore.run a (ObjectStore.afterMutations ms (snd first)) in
  (* the returned object is new, and a copy of the session's *)
  fst first = length (ObjectStore.heap st)
  /\ ObjectStore.heap (snd first) !! fst first
     = ObjectStore.heap st !! ObjectStore.fieldOf a (ObjectStore.self st)
  (* the session is as before, also after the caller's mutations *)
  /\ ObjectStore.self (snd first) = ObjectStore.self st
  /\ ObjectStore.self (snd second) = ObjectStore.self st
  /\ (forall l : ObjectStore.loc, (l < length (ObjectStore.heap st))%nat ->
        ObjectStore.heap (snd first) !! l = ObjectStore.heap st !! l
        /\ ObjectStore.heap (snd second) !! l = ObjectStore.heap st !! l)
  (* the second call returns another new object, equal to the first as it
     was returned *)
  /\ fst second <> fst first
  /\ ObjectStore.heap (snd second) !! fst second
     = ObjectStore.heap (snd first) !! fst first
  /\ (forall depth,
        ObjectStore.snapshot depth (ObjectStore.heap (snd second))
          (ObjectStore.VRef (fst second))
        = ObjectStore.snapshot depth (ObjectStore.heap (snd first))
            (ObjectStore.VRef (fst first))).
Proof.
  intros Hwf first Hms second.
  destruct (wf_field a st Hwf) as [Hc Hf].
  destruct (returning_copy (ObjectStore.fieldOf a) st Hf) as (o & Ho & Hfirst).
  rewrite <- run_returning in Hfirst. fold first in Hfirst.
  rewrite Hfirst in Hms. cbn [fst] in Hms.
  destruct (mutateAll_last (ObjectStore.heap st) ms Hms o) as (o' & Hmut).
  assert (Hsecond : second
                    = (S (length (ObjectStore.heap st)),
                       {| ObjectStore.self := ObjectStore.self st;
                          ObjectStore.heap := (ObjectStore.heap st ++ [o']) ++ [o] |})).
  { subst second. rewrite Hfirst, run_returning.
    unfold ObjectStore.returning, ObjectStore.spread, ObjectStore.afterMutations.
    cbn [fst snd ObjectStore.self ObjectStore.heap]. rewrite Hmut.
    rewrite lookup_app_l by exact Hf. rewrite Ho.
    unfold ObjectStore.alloc. rewrite length_app. cbn [length].
    rewrite Nat.add_1_r. reflexivity. }
  rewrite Hsecond, Hfirst. cbn [fst snd ObjectStore.self ObjectStore.heap].
  clearbody first second. clear Hfirst Hsecond first second.
  assert (Hin : ObjectStore.objectIn (length (ObjectStore.heap st)) o = true)
    by exact (closed_lookup _ _ _ Hc Ho).
  assert (Hl1 : (ObjectStore.heap st ++ [o]) !! length (ObjectStore.heap st) = Some o)
    by (apply list_lookup_middle; reflexivity).
  assert (Hl2 : ((ObjectStore.heap st ++ [o']) ++ [o]) !! S (length (ObjectStore.heap st))
                = Some o).
  { apply list_lookup_middle. rewrite length_app. cbn [length]. lia. }
  assert (Hagree1 : forall l : ObjectStore.loc, (l < length (ObjectStore.heap st))%nat ->
                      (ObjectStore.heap st ++ [o]) !! l = ObjectStore.heap st !! l)
    by (intros l Hl; apply lookup_app_l; exact Hl).
  assert (Hagree2 : forall l : ObjectStore.loc, (l < length (ObjectStore.heap st))%nat ->
                      ((ObjectStore.heap st ++ [o']) ++ [o]) !! l
                      = ObjectStore.heap st !! l).
  { intros l Hl. rewrite <- app_assoc. apply lookup_app_l; exact Hl. }
  repeat split; auto; try lia.
  - rewrite Hl1, Ho. reflexivity.
  - rewrite Hl1, Hl2. reflexivity.
  - intros [|depth]; [reflexivity|].
    rewrite (snapshot_copy _ _ o _ Hc Hagree2 Hin Hl2).
    rewrite (snapshot_copy _ _ o _ Hc Hagree1 Hin Hl1). reflexivity.
Qed.

(* ================================================================== *)
(** * The scenarios, run *)
(* ================================================================== *)

(** The scenario of the design document: one upload, the commit against
    tip T3, the regeneration request for the description; the session ends
    at version 4 and tip T4 with the status URL kept. *)
Example scenario_submit :
  map (fun req => (method req, body req)) (requestsOf (log (snd (snd scenarioRun))))
  = [(POST, FormFile (lit "A newsletter about economic history. Weekly.")
              (lit "description.md"));
     (POST, JsonUpdate (commitOf (demoEntity 3 "T3") uploadedUpdates (lit "note")));
     (POST, JsonReprocess
              {| rq_pi := demoPi; rq_phases := [description]; rq_cascade := false;
                 rq_stop_at_pi := None;
                 rq_custom_prompts :=
                   Some (@EditSession.buildCustomPrompts wholeText scenarioSession);
                 rq_custom_note := None |})]
  /\ fst scenarioRun
     = Ok {| saved := Some {| sr_pi := demoPi; sr_newVersion := 4; sr_newTip := lit "T4" |};
             reprocessed := Some demoReprocessResult |}
  /\ (e_ver <$> EditSession.entity (fst (snd scenarioRun))) = Some 4
  /\ (e_manifest_cid <$> EditSession.entity (fst (snd scenarioRun))) = Some (lit "T4")
  /\ EditSession.statusUrl (fst (snd scenarioRun)) = Some demoStatusUrl
  /\ EditSession.submitting (fst (snd scenarioRun)) = false.
Proof. vm_compute. auto 10. Qed.

(** The commit of phase 1 receives a 409 and the entity is reported absent
    when the client asks for its tip: the caller gets the
    [EntityNotFoundError] of that fetch, not a conflict. *)
Lemma C1_conflict_then_entity_gone :
  map (fun req => (method req, body req)) (requestsOf (log (snd (snd goneRun))))
  = [(POST, FormFile (lit "A newsletter about economic history. Weekly.")
              (lit "description.md"));
     (POST, JsonUpdate (commitOf (demoEntity 3 "T3") uploadedUpdates (lit "note")));
     (GET, NoBody)]
  /\ conflictThenGone !! 1%nat = Some (respond 409 "Conflict" None)
  /\ fst goneRun = Throw (EntityNotFoundError demoPi)
  /\ isConflictError (EntityNotFoundError demoPi) = false.
Proof. vm_compute. auto. Qed.

(** The status endpoint cannot be reached: after the five retries the
    network error of the last attempt is rethrown, and it is no
    [RemoteError]. *)
Lemma C2_network_down_rethrown :
  length (requestsOf (log (snd downRun))) = 6%nat
  /\ delaysOf (log (snd downRun)) = [2000; 4000; 8000; 16000; 30000]
  /\ fst downRun = Throw (PlainError (lit "TypeError: Failed to fetch"))
  /\ isRemoteError (PlainError (lit "TypeError: Failed to fetch")) = false.
Proof. vm_compute. auto. Qed.


(** C3. The preview is not the payload, against the claim and against the
    documentation of [previewPrompt] ("Preview what prompts will be sent to
    AI").  In ai-prompt mode with the prompt "Shorten it" for the
    description: [submit] sends that prompt, and the preview for the
    description is another text. *)
Lemma C3_preview_differs_from_payload :
  map (customPromptFor description) (sentPrompts (log (snd (snd promptedRun))))
  = [Some (lit "Shorten it")]
  /\ is_Some (Js.get (@EditSession.previewPrompt wholeText promptedSession)
                (lit "description"))
  /\ Js.get (@EditSession.previewPrompt wholeText promptedSession) (lit "description")
     <> Some (lit "Shorten it").
Proof.
  split; [vm_compute; reflexivity|]. split.
  - vm_compute. eauto.
  - vm_compute. discriminate.
Qed.

(** The caller pushes onto the [components] array of the scope it was
    returned, and rewrites the [original] of a correction it was returned:
    the next call returns another value. *)
Lemma C10_nested_mutation_visible :
  ObjectStore.prop (ObjectStore.heap (snd scopeTaken)) (fst scopeTaken) (lit "components")
  = Some (ObjectStore.VRef ObjectStore.DEFAULT_SCOPE_components)
  /\ ObjectStore.snapshot 3 (ObjectStore.heap (snd scopeTakenAgain))
       (ObjectStore.VRef (fst scopeTakenAgain))
     <> ObjectStore.snapshot 3 (ObjectStore.heap (snd scopeTaken))
          (ObjectStore.VRef (fst scopeTaken))
  /\ ObjectStore.elem (ObjectStore.heap (snd correctionsTaken)) (fst correctionsTaken) 0
     = Some (ObjectStore.VRef 7%nat)
  /\ ObjectStore.snapshot 3 (ObjectStore.heap (snd correctionsTakenAgain))
       (ObjectStore.VRef (fst correctionsTakenAgain))
     <> ObjectStore.snapshot 3 (ObjectStore.heap (snd correctionsTaken))
          (ObjectStore.VRef (fst correctionsTaken)).
Proof.
  split; [reflexivity|]. split; [vm_compute; discriminate|].
  split; [reflexivity|]. vm_compute; discriminate.
Qed.


(** Equal texts have no deletion followed by an addition, and yield no
    correction. *)
Lemma C7_unchanged_text :
  noAdjacentPair (@Diff_diffWords wholeText (lit "Adam Tooze") (lit "Adam Tooze"))
  /\ @DiffEngine.extractCorrections wholeText (lit "Adam Tooze") (lit "Adam Tooze") None
     = Some [].
Proof.
  assert (Hno : noAdjacentPair
                  (@Diff_diffWords wholeText (lit "Adam Tooze") (lit "Adam Tooze"))).
  { intros i current next Hc Hn. destruct i; discriminate Hn. }
  split; [exact Hno|].
  exact (proj2 (proj2 (proj2 (proj2
           (@C7_extractCorrections_scan wholeText (lit "Adam Tooze") (lit "Adam Tooze")
              None)))) Hno).
Defined.

(** Four server errors and then the status: the poll succeeds. *)
Lemma C2_four_failures_then_done :
  forallb transient (take 4 fourFailuresThenDone) = true
  /\ fst (ArkeClient.getReprocessStatus demoClient demoStatusUrl false
            (worldOf fourFailuresThenDone))
     = Ok doneStatus.
Proof.
  split; [reflexivity|].
  exact (proj2 (proj2
           (C2_getReprocessStatus_retry demoClient demoStatusUrl false
              (worldOf fourFailuresThenDone) (take 4 fourFailuresThenDone)
              (respond 200 "OK" (Some (JStatus doneStatus))) []
              eq_refl eq_refl (le_S _ _ (le_n 4)) (fun _ => eq_refl)))).
Defined.

(** A 409 followed by a 404 for the entity. *)
Lemma C9_conflict_then_not_found :
  status {| status := 409; statusText := lit "Conflict"; bodyText := [];
            bodyJson := None |} = 409
  /\ fst (ArkeClient.updateEntity demoClient demoPi demoUpdate
            (worldOf [respond 409 "Conflict" None; respond 404 "Not Found" None]))
     = Throw (EntityNotFoundError demoPi).
Proof.
  split; [reflexivity|].
  exact (proj2 (proj2 (proj2
           (C9_conflict_follow_up_fetch demoClient demoPi demoUpdate
              (worldOf [respond 409 "Conflict" None; respond 404 "Not Found" None])
              (respond 409 "Conflict" None) [respond 404 "Not Found" None] _
              eq_refl eq_refl eq_refl)))
           (respond 404 "Not Found" None) [] _ eq_refl eq_refl eq_refl).
Defined.

(** A session that was loaded and never submitted. *)
Lemma C8_loaded_session_is_complete :
  EditSession.statusUrl (loadedSession ai_prompt) = None
  /\ EditSession.waitForCompletion 0 None (loadedSession ai_prompt, worldOf networkDown)
     = (Ok completeStatus, (loadedSession ai_prompt, worldOf networkDown)).
Proof.
  split; [reflexivity|].
  exact (C8_waitForCompletion_without_status_url 0 None (loadedSession ai_prompt)
           (worldOf networkDown) eq_refl).
Defined.

(** A re-wrapped description and no scope: nothing to do. *)
Lemma C5_rewrapped_description :
  components (EditSession.scope rewrappedSession) = []
  /\ @EditSession.submit wholeText (lit "note") (rewrappedSession, worldOf networkDown)
     = (Ok {| saved := None; reprocessed := None |},
        (EditSession.set_result (Some EditSession.emptyResult) rewrappedSession,
         worldOf networkDown)).
Proof.
  split; [reflexivity|].
  apply (@C5_submit_nothing_to_do wholeText (lit "note") rewrappedSession
           (worldOf networkDown) (demoEntity 3 "T3")); try reflexivity.
  intros name content [Heq|[]]. inversion Heq; subst. vm_compute. auto.
Defined.

(** The conflict with the entity found at tip T4. *)
Lemma C1_conflict_reported :
  incoming afterUpload
  = [respond 409 "Conflict" None;
     respond 200 "OK" (Some (JEntity (demoEntity 4 "T4")))]
  /\ fst (@EditSession.submit wholeText (lit "note")
            (editedSession, worldOf conflictThenFound))
     = Throw (CASConflictError demoPi (lit "T3") (lit "T4"))
  /\ EditSession.entity
       (fst (snd (@EditSession.submit wholeText (lit "note")
                    (editedSession, worldOf conflictThenFound))))
     = Some (demoEntity 3 "T3").
Proof.
  split; [reflexivity|].
  pose proof (@C1_submit_conflict wholeText (lit "note") editedSession
                (worldOf conflictThenFound) afterUpload (demoEntity 3 "T3")
                uploadedUpdates (respond 409 "Conflict" None)
                [respond 200 "OK" (Some (JEntity (demoEntity 4 "T4")))] _
                eq_refl eq_refl eq_refl eq_refl eq_refl eq_refl eq_refl) as H.
  split.
  - exact (proj2 (proj2 (proj2 (proj2 H)))
             (respond 200 "OK" (Some (JEntity (demoEntity 4 "T4")))) [] _
             (demoEntity 4 "T4") eq_refl eq_refl eq_refl eq_refl).
  - exact (proj1 H).
Defined.

(** The prompted session: the payload is the prompt, the preview embeds
    it. *)
Lemma preview_embeds_prompt_example :
  EditSession.mode promptedSession = ai_prompt
  /\ customPromptFor description (@EditSession.buildCustomPrompts wholeText promptedSession)
     = Some (lit "Shorten it").
Proof.
  split; [reflexivity|].
  exact (proj1 (@preview_embeds_prompt wholeText promptedSession
                  (demoEntity 3 "T3") description (lit "Shorten it")
                  eq_refl eq_refl (or_introl eq_refl) eq_refl
                  ltac:(discriminate))).
Defined.

(** The scope taken twice, the caller changing the first copy in between. *)
Lemma C10_scope_copy_changed :
  ObjectStore.wf newStore = true
  /\ ObjectStore.heap
       (snd (ObjectStore.run ObjectStore.GetScope
               (ObjectStore.afterMutations
                  [ObjectStore.SetProp 7%nat (lit "cascade") (ObjectStore.VBool true);
                   ObjectStore.DeleteProp 7%nat (lit "components")]
                  (snd (ObjectStore.run ObjectStore.GetScope newStore)))))
     !! 8%nat
     = ObjectStore.heap (snd (ObjectStore.run ObjectStore.GetScope newStore)) !! 7%nat.
Proof.
  split; [reflexivity|].
  pose proof (C10_accessors_return_copies ObjectStore.GetScope newStore
                [ObjectStore.SetProp 7%nat (lit "cascade") (ObjectStore.VBool true);
                 ObjectStore.DeleteProp 7%nat (lit "components")]
                eq_refl
                ltac:(repeat constructor))
    as H.
  exact (proj1 (proj2 (proj2 (proj2 (proj2 (proj2 (proj2 H))))))).
Defined.

(* ================================================================== *)
(** * Records: keys stay distinct *)
(* ================================================================== *)

Section RecordLaws.
Context {V : Type}.

Lemma eqb_eq (a b : jsstring) : Js.eqb a b = true <-> a = b.
Proof. unfold Js.eqb. apply bool_decide_eq_true. Qed.

Lemma eqb_neq (a b : jsstring) : Js.eqb a b = false <-> a <> b.
Proof. unfold Js.eqb. apply bool_decide_eq_false. Qed.

Lemma get_None (o : record V) (k : jsstring) :
  Js.get o k = None <-> ~ In k (keys o).
Proof.
  induction o as [|[k' v] o IH]; cbn [Js.get keys map fst In]; [tauto|].
  destruct (Js.eqb k' k) eqn:Hk.
  - apply eqb_eq in Hk. split; [discriminate|]. intros H. destruct H. auto.
  - apply eqb_neq in Hk. fold (keys o). rewrite IH. tauto.
Qed.

Lemma keys_update (o : record V) (k : jsstring) (v : V) :
  keys (Js.update o k v) = keys o.
Proof.
  induction o as [|[k' v'] o IH]; cbn [Js.update keys map fst]; [reflexivity|].
  destruct (Js.eqb k' k); cbn [map fst]; [reflexivity|].
  f_equal. exact IH.
Qed.

(** Where a new array index goes among the keys. *)
Lemma keys_insertIndex (o : record V) (i : N) (k : jsstring) (v : V) :
  exists before after,
    keys o = before ++ after
    /\ keys (Js.insertIndex o i k v) = before ++ k :: after.
Proof.
  induction o as [|[k' v'] o IH]; cbn [Js.insertIndex keys map fst].
  - exists [], []. split; reflexivity.
  - destruct IH as (before & after & Ho & Hi).
    assert (Hhere : exists b a, k' :: map fst o = b ++ a
                                /\ map fst ((k, v) :: (k', v') :: o) = b ++ k :: a)
      by (exists [], (k' :: map fst o); split; reflexivity).
    destruct (Js.arrayIndex k') as [j|]; [destruct (j <? i)%N|]; try exact Hhere.
    exists (k' :: before), after. cbn [map fst app]. fold (keys o).
    fold (keys (Js.insertIndex o i k v)). rewrite Ho, Hi. split; reflexivity.
Qed.

Lemma keys_put (o : record V) (k : jsstring) (v : V) :
  (In k (keys o) /\ keys (Js.put o k v) = keys o)
  \/ (~ In k (keys o)
      /\ exists before after,
           keys o = before ++ after /\ keys (Js.put o k v) = before ++ k :: after).
Proof.
  unfold Js.put. destruct (Js.get o k) eqn:Hk.
  - left. split; [|apply keys_update].
    destruct (decide (k ∈ keys o)) as [Hin|Hin]; rewrite list_elem_of_In in Hin;
      [exact Hin|].
    apply get_None in Hin. congruence.
  - right. split; [apply get_None, Hk|].
    destruct (Js.arrayIndex k) as [i|]; [apply keys_insertIndex|].
    exists (keys o), []. rewrite app_nil_r. split; [reflexivity|].
    unfold keys. rewrite map_app. reflexivity.
Qed.

Lemma keys_put_present (o : record V) (k : jsstring) (v : V) :
  In k (keys o) -> keys (Js.put o k v) = keys o.
Proof. intros Hin. destruct (keys_put o k v) as [[_ H]|[Hno _]]; tauto. Qed.

Lemma keys_set_present (o : record V) (k : jsstring) (v : V) :
  In k (keys o) -> keys (Js.set o k v) = keys o.
Proof.
  intros Hin. unfold Js.set. destruct (Js.eqb k PROTO); [reflexivity|].
  apply keys_put_present, Hin.
Qed.

Lemma keys_set_absent (o : record V) (k : jsstring) (v : V) :
  k <> PROTO -> ~ In k (keys o) ->
  exists before after,
    keys o = before ++ after /\ keys (Js.set o k v) = before ++ k :: after.
Proof.
  intros Hk Hin. rewrite set_put by exact Hk.
  destruct (keys_put o k v) as [[H _]|[_ H]]; [contradiction|exact H].
Qed.

Lemma NoDup_keys_set (o : record V) (k : jsstring) (v : V) :
  NoDup (keys o) -> NoDup (keys (Js.set o k v)).
Proof.
  intros Hnd. destruct (decide (k = PROTO)) as [->|Hproto]; [exact Hnd|].
  destruct (decide (k ∈ keys o)) as [Hin|Hin];
    rewrite list_elem_of_In in Hin.
  - rewrite keys_set_present by exact Hin. exact Hnd.
  - destruct (keys_set_absent o k v Hproto Hin) as (before & after & Ho & ->).
    rewrite Ho in Hnd, Hin. apply NoDup_app in Hnd as (Hb & Hba & Ha).
    apply NoDup_app. split; [exact Hb|]. split.
    + intros x Hx Hk. apply list_elem_of_In in Hk. destruct Hk as [<-|Hk].
      * apply Hin, in_or_app. left. apply list_elem_of_In, Hx.
      * apply (Hba x Hx), list_elem_of_In, Hk.
    + apply NoDup_cons. split; [|exact Ha].
      intros Hk. apply Hin, in_or_app. right. apply list_elem_of_In, Hk.
Qed.

Lemma keys_delete_subset (o : record V) (k k' : jsstring) :
  In k' (keys (Js.delete o k)) -> In k' (keys o).
Proof.
  induction o as [|[k0 v0] o IH]; cbn [Js.delete keys map fst In]; [tauto|].
  destruct (Js.eqb k0 k); cbn [map fst In]; [tauto|].
  intros [H|H]; [left; exact H|right; apply IH, H].
Qed.

Lemma NoDup_keys_delete (o : record V) (k : jsstring) :
  NoDup (keys o) -> NoDup (keys (Js.delete o k)).
Proof.
  induction o as [|[k0 v0] o IH]; cbn [Js.delete keys map fst]; [auto|].
  intros Hnd. apply NoDup_cons in Hnd as [Hk0 Hnd].
  destruct (Js.eqb k0 k); [exact Hnd|].
  cbn [map fst]. apply NoDup_cons. split; [|apply IH, Hnd].
  intros Hin. apply Hk0, list_elem_of_In.
  apply (keys_delete_subset o k k0), list_elem_of_In, Hin.
Qed.

Lemma get_delete_eq (o : record V) (k : jsstring) :
  NoDup (keys o) -> Js.get (Js.delete o k) k = None.
Proof.
  induction o as [|[k0 v0] o IH]; cbn [Js.delete keys map fst]; [reflexivity|].
  intros Hnd. apply NoDup_cons in Hnd as [Hk0 Hnd].
  destruct (Js.eqb k0 k) eqn:Hk.
  - apply eqb_eq in Hk. subst k0. apply get_None.
    intros Hin. apply Hk0, list_elem_of_In, Hin.
  - cbn [Js.get]. rewrite Hk. apply IH, Hnd.
Qed.

Lemma get_delete_ne (o : record V) (k k' : jsstring) :
  k <> k' -> Js.get (Js.delete o k) k' = Js.get o k'.
Proof.
  intros Hne. induction o as [|[k0 v0] o IH]; cbn [Js.delete Js.get]; [reflexivity|].
  destruct (Js.eqb k0 k) eqn:Hk.
  - apply eqb_eq in Hk. subst k0.
    assert (Hf : Js.eqb k k' = false) by (apply eqb_neq; exact Hne).
    rewrite Hf. reflexivity.
  - cbn [Js.get]. rewrite IH. reflexivity.
Qed.

Lemma set_set (o : record V) (k : jsstring) (v1 v2 : V) :
  Js.set (Js.set o k v1) k v2 = Js.set o k v2.
Proof.
  unfold Js.set. destruct (Js.eqb k PROTO); [reflexivity|].
  assert (Hup : forall o', Js.update (Js.update o' k v1) k v2 = Js.update o' k v2).
  { induction o' as [|[k0 v0] o' IH]; cbn [Js.update]; [reflexivity|].
    destruct (Js.eqb k0 k) eqn:Hk; cbn [Js.update]; rewrite Hk; [reflexivity|].
    rewrite IH. reflexivity. }
  assert (Hput : Js.put (Js.put o k v1) k v2 = Js.update (Js.put o k v1) k v2)
    by (unfold Js.put at 1; rewrite get_put_eq; reflexivity).
  rewrite Hput. unfold Js.put. destruct (Js.get o k) eqn:Hk; [apply Hup|].
  destruct (Js.arrayIndex k) as [i|].
  - clear Hput Hup. induction o as [|[k0 v0] o IH]; cbn [Js.insertIndex Js.update].
    + rewrite eqb_refl. reflexivity.
    + cbn [Js.get] in Hk. destruct (Js.eqb k0 k) eqn:H0; [discriminate|].
      destruct (Js.arrayIndex k0) as [j|]; [destruct (j <? i)%N|];
        cbn [Js.update]; rewrite ?H0, ?eqb_refl; try reflexivity.
      rewrite (IH Hk). reflexivity.
  - clear Hput Hup. induction o as [|[k0 v0] o IH]; cbn [app Js.update].
    + rewrite eqb_refl. reflexivity.
    + cbn [Js.get] in Hk. destruct (Js.eqb k0 k) eqn:H0; [discriminate|].
      rewrite (IH Hk). reflexivity.
Qed.

End RecordLaws.

Lemma targetName_inj (a b : PromptTarget) : targetName a = targetName b -> a = b.
Proof.
  destruct a as [[]| |], b as [[]| |]; intros H; try reflexivity;
    vm_compute in H; discriminate.
Qed.

(** X1. Clearing a prompt undoes setting it: after [setPrompt(t, p)] the
    prompt is read back, after [clearPrompt(t)] it is absent, the prompts of
    the other targets are what they were before both calls, and the keys of
    the prompt record stay distinct. *)
Theorem setPrompt_clearPrompt (s : EditSession.t) (t : PromptTarget) (p : jsstring) :
  EditSession.mode s <> manual_only ->
  NoDup (keys (EditSession.prompts s)) ->
  let s1 := snd (EditSession.setPrompt t p s) in
  let s2 := snd (EditSession.clearPrompt t s1) in
  fst (EditSession.getPrompts s1) = Ok (Js.set (EditSession.prompts s) (targetName t) p)
  /\ Js.get (EditSession.prompts s1) (targetName t) = Some p
  /\ Js.get (EditSession.prompts s2) (targetName t) = None
  /\ (forall t', t' <> t ->
        Js.get (EditSession.prompts s2) (targetName t')
        = Js.get (EditSession.prompts s) (targetName t'))
  /\ NoDup (keys (EditSession.prompts s1))
  /\ NoDup (keys (EditSession.prompts s2)).
Proof.
  intros Hmode Hnd s1 s2.
  assert (Hs1 : s1 = EditSession.set_prompts
                       (Js.set (EditSession.prompts s) (targetName t) p) s).
  { subst s1. unfold EditSession.setPrompt, bind, gets, modify, throw, id.
    destruct (EditSession.mode s); try reflexivity. congruence. }
  assert (Hp1 : EditSession.prompts s1 = Js.set (EditSession.prompts s) (targetName t) p)
    by (rewrite Hs1; reflexivity).
  assert (Hp2 : EditSession.prompts s2
                = Js.delete (Js.set (EditSession.prompts s) (targetName t) p)
                    (targetName t))
    by (subst s2; unfold EditSession.clearPrompt, modify; cbn [snd];
        rewrite <- Hp1; reflexivity).
  rewrite Hp2, Hp1. clearbody s1 s2.
  pose proof (NoDup_keys_set (EditSession.prompts s) (targetName t) p Hnd) as Hnd1.
  repeat split.
  - unfold EditSession.getPrompts, gets. cbn [fst]. rewrite Hp1. reflexivity.
  - apply get_set_eq, targetName_stored.
  - apply get_delete_eq, Hnd1.
  - intros t' Hne.
    assert (Hk : targetName t <> targetName t')
      by (intros Heq; apply Hne; symmetry; apply targetName_inj, Heq).
    rewrite get_delete_ne by exact Hk. apply get_set_ne, Hk.
  - exact Hnd1.
  - apply NoDup_keys_delete, Hnd1.
Qed.

(** X2. Setting the content of a component again overwrites it in place,
    for every component name other than [__proto__] (which an assignment
    does not store): the session is the one a single [setContent] with the
    last content gives, the component keeps one entry, and clearing it
    afterwards leaves no entry for it. *)
Theorem setContent_overwrites (s : EditSession.t) (name c1 c2 : jsstring) :
  EditSession.mode s <> ai_prompt ->
  name <> PROTO ->
  NoDup (keys (EditSession.editedContent s)) ->
  let s1 := snd (EditSession.setContent name c1 s) in
  let s2 := snd (EditSession.setContent name c2 s1) in
  s2 = snd (EditSession.setContent name c2 s)
  /\ Js.get (EditSession.editedContent s2) name = Some c2
  /\ NoDup (keys (EditSession.editedContent s2))
  /\ Js.get (EditSession.editedContent (snd (EditSession.clearContent name s2))) name
     = None.
Proof.
  intros Hmode Hname Hnd s1 s2.
  assert (Hset : forall c s0,
             EditSession.mode s0 = EditSession.mode s ->
             snd (EditSession.setContent name c s0)
             = EditSession.set_editedContent
                 (Js.set (EditSession.editedContent s0) name c) s0).
  { intros c s0 Hm. unfold EditSession.setContent, bind, gets, modify, throw, id.
    rewrite Hm. destruct (EditSession.mode s); try reflexivity. congruence. }
  assert (Hs1 : s1 = EditSession.set_editedContent
                       (Js.set (EditSession.editedContent s) name c1) s)
    by (apply Hset; reflexivity).
  assert (Hs2 : s2 = EditSession.set_editedContent
                       (Js.set (EditSession.editedContent s) name c2) s).
  { subst s2. rewrite Hset by (rewrite Hs1; reflexivity).
    rewrite Hs1. cbn [EditSession.editedContent EditSession.set_editedContent].
    rewrite set_set. reflexivity. }
  clearbody s1 s2. subst s2.
  pose proof (NoDup_keys_set (EditSession.editedContent s) name c2 Hnd) as Hnd2.
  repeat split.
  - rewrite Hset by reflexivity. reflexivity.
  - apply get_set_eq, Hname.
  - exact Hnd2.
  - unfold EditSession.clearContent, modify. cbn [snd].
    apply get_delete_eq, Hnd2.
Qed.

(* ================================================================== *)
(** * The line diff and its records *)
(* ================================================================== *)

Section LineDiff.
Context {D : DiffLibrary}.

Lemma countNewlines_nonneg (s : jsstring) : 0 <= countNewlines s.
Proof. unfold countNewlines. lia. Qed.

Lemma advance_nonneg (c : Change) : 0 <= advance c.
Proof.
  unfold advance. pose proof (countNewlines_nonneg (value c)).
  destruct (added c), (removed c); lia.
Qed.

Lemma diff_loop_cons (c : Change) (rest : list Change) (n : Z) :
  DiffEngine.diff_loop (c :: rest) n
  = (if changed c then [recordOf c n] else [])
    ++ DiffEngine.diff_loop rest (n + advance c).
Proof.
  cbn [DiffEngine.diff_loop]. unfold changed, recordOf, advance.
  destruct (added c), (removed c); cbn [orb app]; rewrite ?Z.add_0_r; reflexivity.
Qed.

Lemma diff_loop_app (l1 l2 : list Change) :
  forall n,
    DiffEngine.diff_loop (l1 ++ l2) n
    = DiffEngine.diff_loop l1 n ++ DiffEngine.diff_loop l2 (n + advanceAll l1).
Proof.
  induction l1 as [|c l1 IH]; intros n.
  - cbn [app DiffEngine.diff_loop advanceAll map fold_right]. rewrite Z.add_0_r.
    reflexivity.
  - cbn [app]. rewrite !diff_loop_cons, IH, <- app_assoc.
    unfold advanceAll. cbn [map fold_right]. rewrite Z.add_assoc. reflexivity.
Qed.

Lemma diff_loop_length (l : list Change) :
  forall n, length (DiffEngine.diff_loop l n) = length (List.filter changed l).
Proof.
  induction l as [|c l IH]; intros n; [reflexivity|].
  rewrite diff_loop_cons, length_app, IH. cbn [List.filter].
  destruct (changed c); reflexivity.
Qed.

Lemma filter_changed_none (l : list Change) :
  existsb changed l = false -> List.filter changed l = [].
Proof.
  induction l as [|c l IH]; [reflexivity|]. cbn [existsb List.filter].
  intros [Hc Hl]%orb_false_iff. rewrite Hc. apply IH, Hl.
Qed.

Lemma diff_loop_numbers (l : list Change) :
  forall n,
    Forall (fun m => n <= m) (lineNumbers (DiffEngine.diff_loop l n))
    /\ nondecreasing (lineNumbers (DiffEngine.diff_loop l n)) = true.
Proof.
  induction l as [|c l IH]; intros n; [split; [constructor|reflexivity]|].
  rewrite diff_loop_cons. pose proof (advance_nonneg c) as Hadv.
  destruct (IH (n + advance c)) as [Hge Hnd].
  assert (Hge' : Forall (fun m => n <= m)
                   (lineNumbers (DiffEngine.diff_loop l (n + advance c)))).
  { eapply Forall_impl; [exact Hge|]. intros m Hm. cbn beta in Hm. lia. }
  destruct (changed c); cbn [app]; [|split; assumption].
  assert (Hhead : lineNumbers (recordOf c n :: DiffEngine.diff_loop l (n + advance c))
                  = n :: lineNumbers (DiffEngine.diff_loop l (n + advance c))).
  { unfold lineNumbers, recordOf. destruct (added c); reflexivity. }
  rewrite Hhead. split; [constructor; [lia|exact Hge']|].
  cbn [nondecreasing].
  destruct (lineNumbers (DiffEngine.diff_loop l (n + advance c))) as [|b r];
    [reflexivity|].
  inversion Hge'; subst. rewrite Hnd, andb_true_r. apply Z.leb_le. assumption.
Qed.

Lemma diff_loop_types (l : list Change) :
  forall n,
    Forall (fun d => (td_type d = addition \/ td_type d = deletion)
                     /\ exists m, td_lineNumber d = Some m)
      (DiffEngine.diff_loop l n).
Proof.
  induction l as [|c l IH]; intros n; [constructor|].
  rewrite diff_loop_cons. apply Forall_app. split; [|apply IH].
  destruct (changed c); [|constructor]. constructor; [|constructor].
  unfold recordOf. destruct (added c); cbn; eauto.
Qed.

End LineDiff.

(** X3. [DiffEngine.diff] makes one record for each change the line diff
    reports as added or removed, in that order.  The record of such a change
    carries the text without its trailing white space and the line it starts
    at: one plus the line feeds of the unchanged and added changes before it;
    removed text does not move the counter. *)
Theorem diff_records_and_lines {D : DiffLibrary} (original modified : jsstring)
    (pre : list Change) (c : Change) (rest : list Change) :
  Diff_diffLines original modified = pre ++ c :: rest ->
  changed c = true ->
  length (DiffEngine.diff original modified)
  = length (List.filter changed (Diff_diffLines original modified))
  /\ DiffEngine.diff original modified !! length (List.filter changed pre)
     = Some (recordOf c (1 + advanceAll pre)).
Proof.
  intros Hdiff Hc. unfold DiffEngine.diff. split; [apply diff_loop_length|].
  rewrite Hdiff, diff_loop_app, diff_loop_cons, Hc.
  rewrite lookup_app_r by (rewrite diff_loop_length; lia).
  rewrite diff_loop_length, Nat.sub_diag. reflexivity.
Qed.

(** X4. Every record of [DiffEngine.diff] is an addition or a deletion with
    a line number of at least 1, the line numbers never decrease along the
    list, and when the line diff reports no added or removed change the list
    is empty. *)
Theorem diff_line_numbers_ordered {D : DiffLibrary} (original modified : jsstring) :
  Forall (fun d => (td_type d = addition \/ td_type d = deletion)
                   /\ exists n, td_lineNumber d = Some n)
    (DiffEngine.diff original modified)
  /\ Forall (fun n => 1 <= n) (lineNumbers (DiffEngine.diff original modified))
  /\ nondecreasing (lineNumbers (DiffEngine.diff original modified)) = true
  /\ (existsb changed (Diff_diffLines original modified) = false ->
      DiffEngine.diff original modified = []).
Proof.
  unfold DiffEngine.diff. split; [apply diff_loop_types|].
  destruct (diff_loop_numbers (Diff_diffLines original modified) 1) as [Hge Hnd].
  split; [exact Hge|]. split; [exact Hnd|].
  intros Hnone. apply length_zero_iff_nil. rewrite diff_loop_length.
  rewrite (filter_changed_none _ Hnone). reflexivity.
Qed.

Section ComponentDiff.
Context {D : DiffLibrary}.

Lemma diff_loop_additions (l : list Change) :
  forall n,
    length (List.filter (DiffEngine.isType addition) (DiffEngine.diff_loop l n))
    = length (List.filter added l).
Proof.
  induction l as [|c l IH]; intros n; [reflexivity|].
  rewrite diff_loop_cons, List.filter_app, length_app, IH.
  unfold changed, recordOf. cbn [List.filter].
  destruct (added c), (removed c); reflexivity.
Qed.

Lemma diff_loop_deletions (l : list Change) :
  forall n,
    length (List.filter (DiffEngine.isType deletion) (DiffEngine.diff_loop l n))
    = length (List.filter (fun c => removed c && negb (added c)) l).
Proof.
  induction l as [|c l IH]; intros n; [reflexivity|].
  rewrite diff_loop_cons, List.filter_app, length_app, IH.
  unfold changed, recordOf. cbn [List.filter].
  destruct (added c), (removed c); reflexivity.
Qed.

Lemma filter_changed_split (l : list Change) :
  length (List.filter changed l)
  = (length (List.filter added l)
     + length (List.filter (fun c => removed c && negb (added c)) l))%nat.
Proof.
  induction l as [|c l IH]; [reflexivity|]. cbn [List.filter]. unfold changed at 1.
  destruct (added c), (removed c); cbn [orb andb negb length]; lia.
Qed.

Lemma existsb_changed_length (l : list Change) :
  existsb changed l = (0 <? Z.of_nat (length (List.filter changed l))).
Proof.
  induction l as [|c l IH]; [reflexivity|].
  cbn [existsb List.filter]. destruct (changed c); [|exact IH].
  cbn [orb length]. symmetry. apply Z.ltb_lt. lia.
Qed.

End ComponentDiff.

(** X5. [createComponentDiff] keeps the component name, says [hasChanges]
    exactly when the line diff reports an added or removed change, and writes
    its summary from the number of added changes and the number of removed
    ones: "No changes" when there is neither, else the non-zero counts as
    "N addition(s)" and "M deletion(s)" joined by a comma. *)
Theorem createComponentDiff_summary {D : DiffLibrary}
    (name original modified : jsstring) :
  let changes := Diff_diffLines original modified in
  let a := Z.of_nat (length (List.filter added changes)) in
  let d := Z.of_nat (length (List.filter (fun c => removed c && negb (added c)) changes)) in
  let cd := DiffEngine.createComponentDiff name original modified in
  cd_componentName cd = name
  /\ cd_diffs cd = DiffEngine.diff original modified
  /\ cd_hasChanges cd = existsb changed changes
  /\ Z.of_nat (length (cd_diffs cd)) = a + d
  /\ cd_summary cd = summaryOf a d.
Proof.
  intros changes a d cd.
  assert (Hlen : Z.of_nat (length (DiffEngine.diff original modified)) = a + d).
  { unfold DiffEngine.diff. rewrite diff_loop_length, filter_changed_split.
    subst a d changes. lia. }
  assert (Hex : existsb changed changes = (0 <? a + d)).
  { subst a d. rewrite <- Nat2Z.inj_add, <- filter_changed_split.
    apply existsb_changed_length. }
  subst cd. unfold DiffEngine.createComponentDiff.
  cbn [cd_componentName cd_diffs cd_summary cd_hasChanges].
  repeat split; try assumption.
  - rewrite Hlen. symmetry. exact Hex.
  - rewrite Hlen. unfold summaryOf, DiffEngine.diff.
    rewrite diff_loop_additions, diff_loop_deletions. fold changes. fold a. fold d.
    assert (Ha : 0 <= a) by (subst a; lia).
    assert (Hd : 0 <= d) by (subst d; lia).
    destruct (0 <? a + d) eqn:Hpos; cbn [negb].
    + apply Z.ltb_lt in Hpos.
      assert (Hz : (a =? 0) && (d =? 0) = false).
      { destruct (a =? 0) eqn:Ha0; [|reflexivity].
        apply Z.eqb_eq in Ha0. cbn [andb]. apply Z.eqb_neq. lia. }
      rewrite Hz. reflexivity.
    + apply Z.ltb_ge in Hpos.
      assert (Hz : (a =? 0) && (d =? 0) = true).
      { apply andb_true_iff. split; apply Z.eqb_eq; lia. }
      rewrite Hz. reflexivity.
Qed.

(** X6. [formatComponentDiffsForPrompt] prints the components that have
    changes and nothing for the others: the text is the one of the list
    without the unchanged components, and it is empty when no component has
    changes. *)
Theorem formatComponentDiffs_skips_unchanged (componentDiffs : list ComponentDiff) :
  DiffEngine.formatComponentDiffsForPrompt componentDiffs
  = DiffEngine.formatComponentDiffsForPrompt (List.filter cd_hasChanges componentDiffs)
  /\ (existsb cd_hasChanges componentDiffs = false ->
      DiffEngine.formatComponentDiffsForPrompt componentDiffs = []).
Proof.
  unfold DiffEngine.formatComponentDiffsForPrompt.
  assert (Hsame : forall l,
             concat (map (fun cd =>
                            if negb (cd_hasChanges cd) then []
                            else [lit "## Changes to " ++ cd_componentName cd ++ lit ":";
                                  DiffEngine.formatForPrompt (cd_diffs cd); []]) l)
             = concat (map (fun cd =>
                              if negb (cd_hasChanges cd) then []
                              else [lit "## Changes to " ++ cd_componentName cd ++ lit ":";
                                    DiffEngine.formatForPrompt (cd_diffs cd); []])
                         (List.filter cd_hasChanges l))).
  { induction l as [|cd l IH]; [reflexivity|]. cbn [map concat List.filter].
    destruct (cd_hasChanges cd) eqn:Hcd; cbn [negb map concat].
    - rewrite Hcd. cbn [negb]. rewrite IH. reflexivity.
    - exact IH. }
  split; [rewrite Hsame; reflexivity|].
  intros Hnone. rewrite Hsame.
  assert (Hnil : List.filter cd_hasChanges componentDiffs = []).
  { induction componentDiffs as [|cd l IH]; [reflexivity|].
    cbn [existsb] in Hnone. apply orb_false_iff in Hnone as [Hcd Hl].
    cbn [List.filter]. rewrite Hcd. apply IH, Hl. }
  rewrite Hnil. reflexivity.
Qed.

(* ================================================================== *)
(** * Corrections and the normal form *)
(* ================================================================== *)

Section Trim.

Lemma trimEnd_idempotent (s : jsstring) : trimEnd (trimEnd s) = trimEnd s.
Proof.
  induction s as [|c s IH]; [reflexivity|]. cbn [trimEnd].
  destruct (trimEnd s) as [|x xs] eqn:Hs.
  - destruct (isWhiteSpace c) eqn:Hc; [reflexivity|]. cbn [trimEnd]. rewrite Hc.
    reflexivity.
  - cbn [trimEnd]. cbn [trimEnd] in IH. rewrite IH. reflexivity.
Qed.

Lemma startsWord_trimStart (s : jsstring) : startsWord (trimStart s) = true.
Proof.
  induction s as [|c s IH]; [reflexivity|]. cbn [trimStart].
  destruct (isWhiteSpace c) eqn:Hc; [exact IH|]. cbn [startsWord]. rewrite Hc.
  reflexivity.
Qed.

Lemma startsWord_trimEnd (s : jsstring) :
  startsWord s = true -> startsWord (trimEnd s) = true.
Proof.
  destruct s as [|c s]; [reflexivity|]. cbn [startsWord].
  intros Hc%negb_true_iff. rewrite (trimEnd_cons_word c s Hc).
  cbn [startsWord]. rewrite Hc. reflexivity.
Qed.

Lemma trimStart_startsWord (s : jsstring) : startsWord s = true -> trimStart s = s.
Proof.
  destruct s as [|c s]; [reflexivity|]. cbn [startsWord trimStart].
  intros Hc%negb_true_iff. rewrite Hc. reflexivity.
Qed.

Lemma trim_idempotent (s : jsstring) : trim (trim s) = trim s.
Proof.
  unfold trim.
  rewrite (trimStart_startsWord (trimEnd (trimStart s)))
    by apply startsWord_trimEnd, startsWord_trimStart.
  apply trimEnd_idempotent.
Qed.

Lemma pairCorrection_proper (sourceLabel : option jsstring) (deleted inserted : Change) :
  Forall (properCorrection sourceLabel) (pairCorrection sourceLabel deleted inserted)
  /\ (length (pairCorrection sourceLabel deleted inserted) <= 1)%nat.
Proof.
  unfold pairCorrection.
  pose proof (trim_idempotent (value deleted)) as Hd.
  pose proof (trim_idempotent (value inserted)) as Hi.
  destruct (trim (value deleted)) as [|c r] eqn:Hdel; [split; [constructor|cbn; lia]|].
  destruct (trim (value inserted)) as [|c' r'] eqn:Hins; [split; [constructor|cbn; lia]|].
  case_bool_decide as Heq; [split; [constructor|cbn; lia]|].
  split; [|cbn; lia]. constructor; [|constructor].
  unfold properCorrection. cbn [original corrected sourceFile context].
  repeat split; auto; discriminate.
Qed.

Lemma scanPairs_proper (sourceLabel : option jsstring) :
  forall (n : nat) (records : list Change),
    (length records <= n)%nat ->
    Forall (properCorrection sourceLabel) (scanPairs sourceLabel records)
    /\ (length (scanPairs sourceLabel records)
        <= length (List.filter removed records))%nat
    /\ (length (scanPairs sourceLabel records)
        <= length (List.filter added records))%nat.
Proof.
  induction n as [|n IH]; intros records Hlen.
  - destruct records; [|cbn in Hlen; lia]. repeat split; [constructor|cbn; lia..].
  - destruct records as [|current [|next rest]];
      [repeat split; [constructor|cbn; lia..]
      |repeat split; [constructor|cbn; lia..]|].
    change (scanPairs sourceLabel (current :: next :: rest))
      with (if removed current && added next
            then pairCorrection sourceLabel current next ++ scanPairs sourceLabel rest
            else scanPairs sourceLabel (next :: rest)).
    destruct (removed current && added next) eqn:Hpair.
    + apply andb_true_iff in Hpair as [Hr Ha].
      destruct (pairCorrection_proper sourceLabel current next) as [Hp Hone].
      destruct (IH rest) as (Hrest & Hrem & Hadd); [cbn in Hlen; lia|].
      split; [apply Forall_app; split; assumption|].
      rewrite length_app. cbn [List.filter]. rewrite Hr, Ha.
      split; destruct (removed next), (added current); simpl length; lia.
    + destruct (IH (next :: rest)) as (Hrest & Hrem & Hadd); [cbn in Hlen |- *; lia|].
      split; [exact Hrest|].
      change (List.filter removed (current :: next :: rest))
        with (if removed current then current :: List.filter removed (next :: rest)
              else List.filter removed (next :: rest)).
      change (List.filter added (current :: next :: rest))
        with (if added current then current :: List.filter added (next :: rest)
              else List.filter added (next :: rest)).
      split; destruct (removed current), (added current); cbn [length]; lia.
Qed.

End Trim.

(** X7. [extractCorrections] never emits an idle correction: every correction
    of its result has a non-empty original and a non-empty corrected text
    that differ and carry no white space at either end, and bears the source
    label.  There are at most as many corrections as the word diff has removed
    records, and at most as many as it has added records. *)
Theorem extractCorrections_proper {D : DiffLibrary} (original modified : jsstring)
    (sourceLabel : option jsstring) :
  exists corrections,
    DiffEngine.extractCorrections original modified sourceLabel = Some corrections
    /\ Forall (properCorrection sourceLabel) corrections
    /\ (length corrections
        <= length (List.filter removed (Diff_diffWords original modified)))%nat
    /\ (length corrections
        <= length (List.filter added (Diff_diffWords original modified)))%nat.
Proof.
  exists (scanPairs sourceLabel (Diff_diffWords original modified)). split.
  - unfold DiffEngine.extractCorrections. rewrite extract_loop_scan by lia. reflexivity.
  - exact (scanPairs_proper sourceLabel _ _ (le_n _)).
Qed.

(** X8. The white space normal form behind [hasSignificantChanges] is a
    normal form: normalising twice is normalising once, a string does not
    differ significantly from its normal form, and the comparison does not
    depend on the order of its two arguments. *)
Theorem normalizeWhitespace_idempotent (a b : jsstring) :
  DiffEngine.normalizeWhitespace (DiffEngine.normalizeWhitespace a)
  = DiffEngine.normalizeWhitespace a
  /\ DiffEngine.hasSignificantChanges a (DiffEngine.normalizeWhitespace a) = false
  /\ DiffEngine.hasSignificantChanges a b = DiffEngine.hasSignificantChanges b a.
Proof.
  assert (Hidem : DiffEngine.normalizeWhitespace (DiffEngine.normalizeWhitespace a)
                  = DiffEngine.normalizeWhitespace a).
  { rewrite (proj1 (normalizeWhitespace_words (DiffEngine.normalizeWhitespace a))).
    rewrite (proj1 (normalizeWhitespace_words a)).
    rewrite (words_join (words a) (words_are_words a)). reflexivity. }
  split; [exact Hidem|]. split.
  - apply hasSignificantChanges_false. symmetry. exact Hidem.
  - unfold DiffEngine.hasSignificantChanges, Js.eqb. f_equal.
    apply bool_decide_ext. split; congruence.
Qed.

(* ================================================================== *)
(** * Prompt texts *)
(* ================================================================== *)

Section Prompts.
Context {D : DiffLibrary}.

Lemma join_app (sep : jsstring) (l1 l2 : list jsstring) :
  l1 <> [] -> l2 <> [] ->
  join sep (l1 ++ l2) = join sep l1 ++ sep ++ join sep l2.
Proof.
  intros H1 H2. induction l1 as [|x l1 IH]; [congruence|].
  destruct l1 as [|y l1].
  - destruct l2 as [|z l2]; [congruence|]. reflexivity.
  - change (join sep ((x :: y :: l1) ++ l2))
      with (x ++ sep ++ join sep ((y :: l1) ++ l2)).
    rewrite IH by discriminate.
    change (join sep (x :: y :: l1)) with (x ++ sep ++ join sep (y :: l1)).
    repeat rewrite <- app_assoc. reflexivity.
Qed.

Lemma truthy_false (o : option jsstring) :
  truthy o = false <-> o = None \/ o = Some [].
Proof.
  destruct o as [[|c r]|]; cbn; split; intros H; auto; try discriminate.
  destruct H; discriminate.
Qed.

End Prompts.

(** X9. [buildAIPrompt] quotes at most the first 2000 code units of the
    current content.  With a non-empty content the prompt is the prompt
    without content followed by the reference block: heading, fence, content,
    fence when the content has at most 2000 code units, and heading, fence,
    the first 2000 code units, the marker "... [truncated]", fence when it is
    longer.  An empty content gives the prompt without content. *)
Theorem buildAIPrompt_content_block (userPrompt : jsstring)
    (component : RegeneratableComponent) (entityContext : EntityContext)
    (content : jsstring) :
  content <> [] ->
  let heading :=
    lit "## Current " ++ componentName component ++ lit " content for reference:" in
  PromptBuilder.buildAIPrompt userPrompt component entityContext (Some content)
  = PromptBuilder.buildAIPrompt userPrompt component entityContext None
    ++ NL ++ join NL (contentBlock component content)
  /\ ((length content <= 2000)%nat ->
      contentBlock component content
      = [heading; PromptBuilder.FENCE; content; PromptBuilder.FENCE])
  /\ ((2000 < length content)%nat ->
      contentBlock component content
      = [heading; PromptBuilder.FENCE; take 2000 content; lit "... [truncated]";
         PromptBuilder.FENCE]
      /\ length (take 2000 content) = 2000%nat)
  /\ PromptBuilder.buildAIPrompt userPrompt component entityContext (Some [])
     = PromptBuilder.buildAIPrompt userPrompt component entityContext None.
Proof.
  intros Hne heading. split; [|split; [|split]].
  - unfold PromptBuilder.buildAIPrompt. destruct content as [|c r]; [congruence|].
    fold (contentBlock component (c :: r)).
    rewrite app_nil_r. repeat rewrite (app_assoc _ _ (contentBlock component (c :: r))).
    repeat rewrite app_assoc.
    rewrite join_app; [repeat rewrite <- app_assoc; reflexivity|discriminate|].
    unfold contentBlock. discriminate.
  - intros Hlen. unfold contentBlock, slice0.
    rewrite take_ge by lia.
    assert (Hz : (2000 <? Z.of_nat (length content)) = false) by (apply Z.ltb_ge; lia).
    rewrite Hz. reflexivity.
  - intros Hlen. unfold contentBlock, slice0.
    assert (Hz : (2000 <? Z.of_nat (length content)) = true) by (apply Z.ltb_lt; lia).
    rewrite Hz. split; [reflexivity|]. rewrite length_take. lia.
  - reflexivity.
Qed.

(** X10. [buildCombinedPrompt] treats an empty instruction as an absent one,
    falls back to the generic sentence for the component when neither
    instruction is given, and never returns the empty string. *)
Theorem buildCombinedPrompt_fallback (general specific : option jsstring)
    (component : RegeneratableComponent) :
  PromptBuilder.buildCombinedPrompt (Some []) specific component
  = PromptBuilder.buildCombinedPrompt None specific component
  /\ PromptBuilder.buildCombinedPrompt general (Some []) component
     = PromptBuilder.buildCombinedPrompt general None component
  /\ (truthy general = false -> truthy specific = false ->
      PromptBuilder.buildCombinedPrompt general specific component
      = defaultInstruction component)
  /\ PromptBuilder.buildCombinedPrompt general specific component <> [].
Proof.
  split; [reflexivity|]. split; [reflexivity|]. split.
  - intros Hg Hs. unfold PromptBuilder.buildCombinedPrompt. rewrite Hg, Hs.
    reflexivity.
  - unfold PromptBuilder.buildCombinedPrompt.
    destruct (truthy general), (truthy specific); cbn [app join]; discriminate.
Qed.

Section CustomPrompts.
Context {D : DiffLibrary}.

Lemma promptIfSet_frame (s s' : EditSession.t) (k : jsstring) :
  Js.get (EditSession.prompts s') k = Js.get (EditSession.prompts s) k ->
  EditSession.promptIfSet s' k = EditSession.promptIfSet s k.
Proof. intros H. unfold EditSession.promptIfSet. rewrite H. reflexivity. Qed.

(** The custom prompts read the mode, the four prompts, the corrections and
    the diff of the session, and nothing else. *)
Lemma buildCustomPrompts_frame (s s' : EditSession.t) :
  EditSession.mode s' = EditSession.mode s ->
  EditSession.corrections s' = EditSession.corrections s ->
  EditSession.loadedComponents s' = EditSession.loadedComponents s ->
  EditSession.editedContent s' = EditSession.editedContent s ->
  (forall k, In k [lit "general"; lit "pinax"; lit "description"; lit "cheimarros"] ->
             Js.get (EditSession.prompts s') k = Js.get (EditSession.prompts s) k) ->
  EditSession.buildCustomPrompts s' = EditSession.buildCustomPrompts s.
Proof.
  intros Hm Hc Hl He Hp. unfold EditSession.buildCustomPrompts.
  rewrite Hm, Hc, (getDiff_frame s s' Hl He).
  rewrite (promptIfSet_frame s s' (lit "general")) by (apply Hp; cbn; auto).
  rewrite (promptIfSet_frame s s' (lit "pinax")) by (apply Hp; cbn; auto).
  rewrite (promptIfSet_frame s s' (lit "description")) by (apply Hp; cbn; auto).
  rewrite (promptIfSet_frame s s' (lit "cheimarros")) by (apply Hp; cbn; auto 6).
  rewrite (Hp (lit "general")) by (cbn; auto). reflexivity.
Qed.

End CustomPrompts.

(** X11. A prompt for the target [reorganization] is accepted by [setPrompt]
    and stored, but it is never sent: the custom prompts [submit] builds are
    the same with and without it, and their [reorganization] key is always
    absent. *)
Theorem reorganization_prompt_never_sent {D : DiffLibrary} (s : EditSession.t)
    (p : jsstring) :
  EditSession.mode s <> manual_only ->
  let s1 := snd (EditSession.setPrompt target_reorganization p s) in
  fst (EditSession.setPrompt target_reorganization p s) = Ok tt
  /\ Js.get (EditSession.prompts s1) (lit "reorganization") = Some p
  /\ EditSession.buildCustomPrompts s1 = EditSession.buildCustomPrompts s
  /\ cp_reorganization (EditSession.buildCustomPrompts s1) = None.
Proof.
  intros Hmode s1.
  assert (Hrun : EditSession.setPrompt target_reorganization p s
                 = (Ok tt, EditSession.set_prompts
                             (Js.set (EditSession.prompts s) (lit "reorganization") p) s)).
  { unfold EditSession.setPrompt, bind, gets, modify, throw, id.
    destruct (EditSession.mode s); try reflexivity. congruence. }
  subst s1. rewrite Hrun. cbn [fst snd].
  split; [reflexivity|].
  split; [apply get_set_eq, (targetName_stored target_reorganization)|]. split.
  - apply buildCustomPrompts_frame; try reflexivity.
    intros k Hk. cbn [EditSession.prompts EditSession.set_prompts].
    apply get_set_ne. intros Heq. subst k.
    cbn [In] in Hk. destruct Hk as [H|[H|[H|[H|[]]]]]; vm_compute in H; discriminate H.
  - unfold EditSession.buildCustomPrompts.
    destruct (EditSession.mode _); reflexivity.
Qed.

(** X12. In the manual modes the general prompt only travels with a diff or
    a correction: when no component is significantly edited and there is no
    correction, [buildCustomPrompts] has no [general] key, whatever general
    prompt was set.  In ai-prompt mode the general prompt is sent whenever it
    is not empty. *)
Theorem general_prompt_needs_changes {D : DiffLibrary} (s : EditSession.t)
    (g : jsstring) :
  Js.get (EditSession.prompts s) (lit "general") = Some g ->
  g <> [] ->
  (EditSession.mode s = ai_prompt ->
   cp_general (EditSession.buildCustomPrompts s) = Some g)
  /\ (EditSession.mode s <> ai_prompt ->
      EditSession.getDiff s = [] -> EditSession.corrections s = [] ->
      cp_general (EditSession.buildCustomPrompts s) = None)
  /\ (EditSession.mode s <> ai_prompt ->
      EditSession.getDiff s = [] -> EditSession.corrections s <> [] ->
      cp_general (EditSession.buildCustomPrompts s)
      = Some (PromptBuilder.buildCorrectionPrompt (EditSession.corrections s)
              ++ NL ++ NL ++ g)).
Proof.
  intros Hg Hne. destruct g as [|gc gr]; [congruence|].
  unfold EditSession.buildCustomPrompts. split; [|split].
  - intros Hm. rewrite Hm. cbn [cp_general]. unfold EditSession.promptIfSet.
    rewrite Hg. reflexivity.
  - intros Hm Hd Hc. rewrite Hd, Hc.
    destruct (EditSession.mode s); [congruence|reflexivity|reflexivity].
  - intros Hm Hd Hc. rewrite Hd, Hg.
    assert (Hlen : (0 <? Z.of_nat (length (EditSession.corrections s))) = true).
    { destruct (EditSession.corrections s); [congruence|reflexivity]. }
    assert (Hprompt : exists c r,
               PromptBuilder.buildCorrectionPrompt (EditSession.corrections s) = c :: r).
    { unfold PromptBuilder.buildCorrectionPrompt.
      destruct (EditSession.corrections s); [congruence|].
      cbn [app join]. eexists _, _. reflexivity. }
    destruct Hprompt as (c & r & Hprompt).
    assert (Hgen : (if (0 <? Z.of_nat (length (@nil ComponentDiff)))
                       || (0 <? Z.of_nat (length (EditSession.corrections s)))
                    then
                      let basePrompt :=
                        join (NL ++ NL)
                          (map ofOpt
                             (List.filter truthy
                                [Some (DiffEngine.formatComponentDiffsForPrompt []);
                                 Some (PromptBuilder.buildCorrectionPrompt
                                         (EditSession.corrections s));
                                 Some (gc :: gr)])) in
                      if truthy (Some basePrompt) then Some basePrompt else None
                    else None)
                   = Some (PromptBuilder.buildCorrectionPrompt (EditSession.corrections s)
                           ++ NL ++ NL ++ gc :: gr)).
    { rewrite Hlen. cbn [orb length Z.of_nat Z.ltb Z.compare].
      change (DiffEngine.formatComponentDiffsForPrompt []) with (@nil N).
      rewrite Hprompt. cbn [List.filter truthy map ofOpt join app].
      rewrite <- app_assoc. reflexivity. }
    destruct (EditSession.mode s); [congruence| |];
      cbn [cp_general]; exact Hgen.
Qed.

(* ================================================================== *)
(** * The client: one request per call, bounded retries *)
(* ================================================================== *)

Section ClientCalls.

Lemma stripTrailingSlash_slash (s : jsstring) :
  ArkeClient.stripTrailingSlash (s ++ [SLASH]) = s.
Proof.
  unfold ArkeClient.stripTrailingSlash. rewrite rev_app_distr. cbn [rev app].
  change (SLASH =? 47)%N with true. cbn iota. apply rev_involutive.
Qed.

Lemma stripTrailingSlash_other (s : jsstring) :
  last s <> Some SLASH -> ArkeClient.stripTrailingSlash s = s.
Proof.
  intros Hlast. unfold ArkeClient.stripTrailingSlash.
  destruct (rev s) as [|c r] eqn:Hrev; [reflexivity|].
  destruct (c =? 47)%N eqn:Hc; [|reflexivity].
  apply N.eqb_eq in Hc. subst c. exfalso. apply Hlast.
  apply (f_equal (@rev N)) in Hrev. rewrite rev_involutive in Hrev.
  rewrite Hrev. cbn [rev]. apply last_snoc.
Qed.

Lemma getContent_run (c : ArkeClient.t) (cid : jsstring) (w : World) :
  log (snd (ArkeClient.getContent c cid w)) = log w ++ [Fetched (contentRequest c cid)]
  /\ isPending (fst (ArkeClient.getContent c cid w)) = false.
Proof.
  unfold ArkeClient.getContent, bind. fold (contentRequest c cid).
  pose proof (fetch_log (contentRequest c cid) w) as Hlog.
  unfold fetch in *. destruct (incoming w) as [|x rest]; [auto|].
  destruct (outcome x) as [m|r]; [auto|].
  destruct (negb (ok r)); auto.
Qed.

Lemma uploadContent_log (c : ArkeClient.t) (content filename : jsstring) (w : World) :
  log (snd (ArkeClient.uploadContent c content filename w))
  = log w ++ [Fetched (uploadRequest c content filename)].
Proof.
  unfold ArkeClient.uploadContent, bind. fold (uploadRequest c content filename).
  pose proof (fetch_log (uploadRequest c content filename) w) as Hlog.
  destruct (fetch _ w) as [[r|e|] w']; cbn [snd] in *; try exact Hlog.
  destruct (negb (ok r)); [exact Hlog|].
  unfold json. destruct (bodyJson r) as [[| [|item items] | | | |]|]; exact Hlog.
Qed.

Lemma updateEntity_log (c : ArkeClient.t) (pi : jsstring) (update : EntityUpdate)
    (w : World) :
  exists follow,
    log (snd (ArkeClient.updateEntity c pi update w))
    = log w ++ Fetched (versionsRequest c pi update) :: follow
    /\ (follow = [] \/ follow = [Fetched (entityRequest c pi)]).
Proof.
  unfold ArkeClient.updateEntity. fold (versionsRequest c pi update). unfold bind at 1.
  pose proof (fetch_log (versionsRequest c pi update) w) as Hlog.
  destruct (fetch _ w) as [[r|e|] w']; cbn [snd] in *;
    [|exists []; auto|exists []; auto].
  destruct (status r =? 409).
  - exists [Fetched (entityRequest c pi)]. split; [|auto].
    destruct (getEntity_outcome c pi w') as [Hlog' _]. unfold bind.
    destruct (ArkeClient.getEntity c pi w') as [[entity|e|] w'']; cbn [snd throw] in *;
      rewrite Hlog', Hlog, <- app_assoc; reflexivity.
  - exists []. split; [|auto].
    destruct (negb (ok r)); [exact Hlog|].
    unfold bind, json. destruct (bodyJson r) as [[]|]; exact Hlog.
Qed.

End ClientCalls.

(** X13. The client is the same whether or not the configured base URLs end
    in a slash, so that request URLs never contain a doubled slash: the
    constructor drops one trailing slash, and only one. *)
Theorem client_base_url_slash (store regen : jsstring) (token : option jsstring)
    (transform : option (jsstring -> jsstring)) :
  last store <> Some SLASH -> last regen <> Some SLASH ->
  ArkeClient.new {| cfg_ipfsWrapperUrl := store ++ [SLASH];
                    cfg_reprocessApiUrl := regen ++ [SLASH];
                    cfg_authToken := token; cfg_statusUrlTransform := transform |}
  = ArkeClient.new {| cfg_ipfsWrapperUrl := store; cfg_reprocessApiUrl := regen;
                      cfg_authToken := token; cfg_statusUrlTransform := transform |}
  /\ ArkeClient.ipfsWrapperUrl
       (ArkeClient.new {| cfg_ipfsWrapperUrl := store ++ [SLASH; SLASH];
                          cfg_reprocessApiUrl := regen;
                          cfg_authToken := token;
                          cfg_statusUrlTransform := transform |})
     = store ++ [SLASH].
Proof.
  intros Hs Hr. unfold ArkeClient.new.
  cbn [cfg_ipfsWrapperUrl cfg_reprocessApiUrl cfg_authToken cfg_statusUrlTransform
       ArkeClient.ipfsWrapperUrl].
  rewrite !stripTrailingSlash_slash.
  rewrite (stripTrailingSlash_other store Hs), (stripTrailingSlash_other regen Hr).
  split; [reflexivity|].
  change (store ++ [SLASH; SLASH]) with (store ++ [SLASH] ++ [SLASH]).
  rewrite app_assoc. apply stripTrailingSlash_slash.
Qed.

(** X14. Outside status polling nothing is retried, whatever the network
    does: [getEntity], [getContent], [uploadContent] and [reprocess] each
    issue exactly one request and never sleep, and [updateEntity] issues its
    one write, followed by at most the one fetch of the entity. *)
Theorem client_calls_single_shot (c : ArkeClient.t) (w : World) (pi cid content
    filename : jsstring) (update : EntityUpdate) (request : ReprocessRequest) :
  log (snd (ArkeClient.getEntity c pi w)) = log w ++ [Fetched (entityRequest c pi)]
  /\ log (snd (ArkeClient.getContent c cid w))
     = log w ++ [Fetched (contentRequest c cid)]
  /\ log (snd (ArkeClient.uploadContent c content filename w))
     = log w ++ [Fetched (uploadRequest c content filename)]
  /\ log (snd (ArkeClient.reprocess c request w))
     = log w ++ [Fetched (triggerRequest c request)]
  /\ (exists follow,
        log (snd (ArkeClient.updateEntity c pi update w))
        = log w ++ Fetched (versionsRequest c pi update) :: follow
        /\ (follow = [] \/ follow = [Fetched (entityRequest c pi)])).
Proof.
  split; [exact (proj1 (getEntity_outcome c pi w))|].
  split; [exact (proj1 (getContent_run c cid w))|].
  split; [apply uploadContent_log|].
  split; [apply reprocess_log|apply updateEntity_log].
Qed.

(** X15. [getContent] and [uploadContent] on a response: a failure status is
    an [ArkeEditError] carrying the status ([getContent] reports a 404 like any
    other failure, with the content identifier), a successful [getContent]
    returns the body text as it is, and a successful [uploadContent] returns the
    identifier of the first uploaded item and rejects when the list is
    empty. *)
Theorem content_calls_on_response (c : ArkeClient.t) (w : World) (x : Exchange)
    (rest : list Exchange) (r : Response) (cid content filename : jsstring) :
  incoming w = x :: rest -> outcome x = Reply r ->
  fst (ArkeClient.getContent c cid w)
  = (if ok r then Ok (bodyText r)
     else Throw (ArkeEditError (lit "Failed to fetch content: " ++ statusText r)
                   (lit "FETCH_ERROR") (status r) (Some cid)))
  /\ (ok r = false ->
      fst (ArkeClient.uploadContent c content filename w)
      = Throw (ArkeEditError (lit "Failed to upload content: " ++ statusText r)
                 (lit "UPLOAD_ERROR") (status r) None))
  /\ (ok r = true ->
      forall items, bodyJson r = Some (JUploads items) ->
      fst (ArkeClient.uploadContent c content filename w)
      = match items with
        | item :: _ => Ok (up_cid item)
        | [] => Throw (PlainError (lit "TypeError: unexpected response shape"))
        end).
Proof.
  intros Hin Hout. split; [|split].
  - unfold ArkeClient.getContent, bind. rewrite (fetch_reply _ _ _ _ _ Hin Hout).
    destruct (ok r); reflexivity.
  - intros Hok. unfold ArkeClient.uploadContent, bind.
    rewrite (fetch_reply _ _ _ _ _ Hin Hout), Hok. reflexivity.
  - intros Hok items Hitems. unfold ArkeClient.uploadContent, bind, json.
    rewrite (fetch_reply _ _ _ _ _ Hin Hout), Hok, Hitems.
    destruct items; reflexivity.
Qed.

(** X16. A rejected regeneration request is a [ReprocessError] whose message
    is the [message] of the error body when the body is JSON with a non-empty
    one, and "Reprocess failed: " with the status text otherwise; the status
    code is not carried. *)
Theorem reprocess_error_message (c : ArkeClient.t) (request : ReprocessRequest)
    (w : World) (x : Exchange) (rest : list Exchange) (r : Response) :
  incoming w = x :: rest -> outcome x = Reply r -> ok r = false ->
  fst (ArkeClient.reprocess c request w)
  = Throw (ReprocessError
             (if truthy (errorMessage r) then ofOpt (errorMessage r)
              else lit "Reprocess failed: " ++ statusText r)
             None).
Proof.
  intros Hin Hout Hok. unfold ArkeClient.reprocess, bind.
  rewrite (fetch_reply _ _ _ _ _ Hin Hout), Hok. cbn [negb].
  fold (errorMessage r). unfold throw. cbn [fst]. do 2 f_equal.
  destruct (errorMessage r) as [[|ch m]|]; reflexivity.
Qed.

(** X17. [updateEntity] on a response other than a 409: one request and no
    fetch of the entity; a success returns the new version, any other status
    is an [ArkeEditError] with code UPDATE_ERROR carrying the status. *)
Theorem updateEntity_without_conflict (c : ArkeClient.t) (pi : jsstring)
    (update : EntityUpdate) (w : World) (x : Exchange) (rest : list Exchange)
    (r : Response) :
  incoming w = x :: rest -> outcome x = Reply r -> status r <> 409 ->
  snd (ArkeClient.updateEntity c pi update w)
  = afterFetch (versionsRequest c pi update) x rest w
  /\ (ok r = false ->
      fst (ArkeClient.updateEntity c pi update w)
      = Throw (ArkeEditError (lit "Failed to update entity: " ++ statusText r)
                 (lit "UPDATE_ERROR") (status r) None))
  /\ (ok r = true ->
      forall version, bodyJson r = Some (JVersion version) ->
      fst (ArkeClient.updateEntity c pi update w) = Ok version).
Proof.
  intros Hin Hout Hst. apply Z.eqb_neq in Hst.
  assert (Hrun : ArkeClient.updateEntity c pi update w
                 = (if negb (ok r)
                    then throw (ArkeEditError
                                  (lit "Failed to update entity: " ++ statusText r)
                                  (lit "UPDATE_ERROR") (status r) None)
                    else j <- json r ;;
                         match j with
                         | JVersion v => ret v
                         | _ => shapeError
                         end)
                     (afterFetch (versionsRequest c pi update) x rest w)).
  { unfold ArkeClient.updateEntity. fold (versionsRequest c pi update).
    unfold bind at 1. rewrite (fetch_reply _ _ _ _ _ Hin Hout), Hst. reflexivity. }
  rewrite Hrun. split; [|split].
  - destruct (negb (ok r)); [reflexivity|].
    unfold bind, json. destruct (bodyJson r) as [[]|]; reflexivity.
  - intros Hok. rewrite Hok. reflexivity.
  - intros Hok version Hv. rewrite Hok. unfold bind, json. rewrite Hv. reflexivity.
Qed.

Section Retry.

Variables (req : Request) (ro : RetryOptions).

(** One iteration of the loop of [fetchWithRetry]: it returns a response, or
    sleeps and goes on, or (at the last attempt) goes on without sleeping. *)
Lemma attemptOnce_cases (attempt : nat) (delay : Z) (w : World) :
  (exists r w',
      ArkeClient.attemptOnce req ro attempt delay w = (Ok (ArkeClient.Return r), w')
      /\ log w' = log w ++ [Fetched req]
      /\ (500 <= status r -> (maxRetries ro <= attempt)%nat))
  \/ ((attempt < maxRetries ro)%nat
      /\ exists e w',
          ArkeClient.attemptOnce req ro attempt delay w
          = (Ok (ArkeClient.Continue (ArkeClient.nextDelay ro delay) (Some e)), w')
          /\ log w' = log w ++ [Fetched req; Slept delay])
  \/ ((maxRetries ro <= attempt)%nat
      /\ exists e w',
          ArkeClient.attemptOnce req ro attempt delay w
          = (Ok (ArkeClient.Continue delay (Some e)), w')
          /\ log w' = log w ++ [Fetched req]).
Proof.
  pose proof (fetch_log req w) as Hlog.
  unfold ArkeClient.attemptOnce, try_catch, bind.
  destruct (fetch req w) as [[r|e|] w1] eqn:Hf; cbn [snd] in Hlog.
  - destruct (500 <=? status r) eqn:H5; cbn [andb].
    + destruct (attempt <? maxRetries ro)%nat eqn:Hlt.
      * right. left. apply Nat.ltb_lt in Hlt. split; [exact Hlt|].
        eexists _, _. split; [reflexivity|]. cbn. rewrite Hlog, <- app_assoc. reflexivity.
      * left. apply Nat.ltb_ge in Hlt. eexists _, _. split; [reflexivity|].
        split; [exact Hlog|]. intros _. exact Hlt.
    + left. eexists _, _. split; [reflexivity|]. split; [exact Hlog|].
      apply Z.leb_gt in H5. lia.
  - destruct (attempt <? maxRetries ro)%nat eqn:Hlt.
    + right. left. apply Nat.ltb_lt in Hlt. split; [exact Hlt|].
      eexists _, _. split; [reflexivity|]. cbn. rewrite Hlog, <- app_assoc. reflexivity.
    + right. right. apply Nat.ltb_ge in Hlt. split; [exact Hlt|].
      eexists _, _. split; [reflexivity|]. exact Hlog.
  - exfalso. unfold fetch in Hf. destruct (incoming w); [discriminate|].
    destruct (outcome e); discriminate.
Qed.

Lemma retry_loop_bounded :
  forall (remaining attempt : nat) (delay : Z) (lastError : option JsError) (w : World),
    (attempt + remaining = maxRetries ro)%nat ->
    exists k,
      (k <= remaining)%nat
      /\ log (snd (ArkeClient.retry_loop (S remaining) req ro attempt delay lastError w))
         = log w ++ backoffLog req ro delay k ++ [Fetched req]
      /\ isPending (fst (ArkeClient.retry_loop (S remaining) req ro attempt delay
                           lastError w)) = false
      /\ (forall r,
            fst (ArkeClient.retry_loop (S remaining) req ro attempt delay lastError w)
            = Ok r -> 500 <= status r -> k = remaining)
      /\ (forall e,
            fst (ArkeClient.retry_loop (S remaining) req ro attempt delay lastError w)
            = Throw e -> k = remaining).
Proof.
  induction remaining as [|remaining IH]; intros attempt delay lastError w Hsum.
  - exists 0%nat. split; [lia|]. cbn [backoffLog app].
    change (ArkeClient.retry_loop 1 req ro attempt delay lastError)
      with (step <- ArkeClient.attemptOnce req ro attempt delay ;;
            match step with
            | ArkeClient.Return response => ret response
            | ArkeClient.Continue delay' lastError' =>
                ArkeClient.retry_loop 0 req ro (S attempt) delay' lastError'
            end).
    unfold bind.
    destruct (attemptOnce_cases attempt delay w)
      as [(r & w' & -> & Hlog & _)|[(Hlt & _)|(_ & e & w' & -> & Hlog)]];
      [|lia|]; cbn; auto.
  - change (ArkeClient.retry_loop (S (S remaining)) req ro attempt delay lastError)
      with (step <- ArkeClient.attemptOnce req ro attempt delay ;;
            match step with
            | ArkeClient.Return response => ret response
            | ArkeClient.Continue delay' lastError' =>
                ArkeClient.retry_loop (S remaining) req ro (S attempt) delay' lastError'
            end).
    unfold bind at 1 2 3 4.
    destruct (attemptOnce_cases attempt delay w)
      as [(r & w' & -> & Hlog & H5)|[(Hlt & e & w' & -> & Hlog)|(Hge & _)]]; [| |lia].
    + exists 0%nat. split; [lia|]. cbn [backoffLog app ret fst snd isPending].
      split; [exact Hlog|]. split; [reflexivity|]. split.
      * intros r' [= <-] Hst. specialize (H5 Hst). lia.
      * intros e [=].
    + destruct (IH (S attempt) (ArkeClient.nextDelay ro delay) (Some e) w')
        as (k & Hk & Hlog' & Hpend & Hok & Hthrow); [lia|].
      exists (S k). split; [lia|]. split; [|split; [exact Hpend|split]].
      * rewrite Hlog', Hlog. cbn [backoffLog]. rewrite <- !app_assoc. reflexivity.
      * intros r Hr Hst. f_equal. eauto.
      * intros e' He'. f_equal. eauto.
Qed.

Lemma backoffLog_delay_bound (k : nat) :
  forall delay, 
    Forall (fun d => d <= Z.max delay (maxDelayMs ro))
      (delaysOf (backoffLog req ro delay k)).
Proof.
  induction k as [|k IH]; intros delay; [constructor|].
  change (delaysOf (backoffLog req ro delay (S k)))
    with (delay :: delaysOf (backoffLog req ro (ArkeClient.nextDelay ro delay) k)).
  constructor; [lia|].
  eapply Forall_impl; [apply IH|]. intros d Hd. cbn beta in Hd.
  unfold ArkeClient.nextDelay in Hd. lia.
Qed.

Lemma backoffLog_counts (k : nat) :
  forall delay,
    length (delaysOf (backoffLog req ro delay k)) = k
    /\ requestsOf (backoffLog req ro delay k) = replicate k req.
Proof.
  induction k as [|k IH]; intros delay; [split; reflexivity|].
  change (delaysOf (backoffLog req ro delay (S k)))
    with (delay :: delaysOf (backoffLog req ro (ArkeClient.nextDelay ro delay) k)).
  change (requestsOf (backoffLog req ro delay (S k)))
    with (req :: requestsOf (backoffLog req ro (ArkeClient.nextDelay ro delay) k)).
  destruct (IH (ArkeClient.nextDelay ro delay)) as [Hd Hr].
  cbn [length replicate]. rewrite Hd, Hr. split; reflexivity.
Qed.

End Retry.

(** X18. [fetchWithRetry] under any retry options and any network: it always
    settles; what it does is [k] rounds of the request followed by a sleep,
    for some [k] of at most [maxRetries], and then the request once more, so
    at most [maxRetries + 1] requests and one sleep fewer than requests; no
    sleep is longer than the larger of the initial and the maximal delay; and
    it gives up (returns a response with a status of 500 or more, or rejects)
    only after all [maxRetries] retries. *)
Theorem fetchWithRetry_bounded (req : Request) (ro : RetryOptions) (w : World) :
  exists k,
    (k <= maxRetries ro)%nat
    /\ log (snd (ArkeClient.fetchWithRetry req ro w))
       = log w ++ backoffLog req ro (initialDelayMs ro) k ++ [Fetched req]
    /\ requestsOf (backoffLog req ro (initialDelayMs ro) k ++ [Fetched req])
       = replicate (S k) req
    /\ length (delaysOf (backoffLog req ro (initialDelayMs ro) k ++ [Fetched req])) = k
    /\ Forall (fun d => d <= Z.max (initialDelayMs ro) (maxDelayMs ro))
         (delaysOf (backoffLog req ro (initialDelayMs ro) k ++ [Fetched req]))
    /\ isPending (fst (ArkeClient.fetchWithRetry req ro w)) = false
    /\ (forall r, fst (ArkeClient.fetchWithRetry req ro w) = Ok r ->
                  500 <= status r -> k = maxRetries ro)
    /\ (forall e, fst (ArkeClient.fetchWithRetry req ro w) = Throw e ->
                  k = maxRetries ro).
Proof.
  unfold ArkeClient.fetchWithRetry.
  destruct (retry_loop_bounded req ro (maxRetries ro) 0 (initialDelayMs ro) None w)
    as (k & Hk & Hlog & Hpend & Hok & Hthrow); [lia|].
  exists k. destruct (backoffLog_counts req ro k (initialDelayMs ro)) as [Hd Hr].
  unfold delaysOf, requestsOf in *. rewrite !omap_app. cbn [omap].
  rewrite !app_nil_r, Hr, Hd.
  repeat split; auto.
  - change (replicate k req ++ [req] = replicate (S k) req).
    clear. induction k as [|k IH]; [reflexivity|]. cbn. f_equal. exact IH.
  - apply (backoffLog_delay_bound req ro k).
Qed.

(* ================================================================== *)
(** * Loading a session *)
(* ================================================================== *)

Section Loading.

Lemma set_loadedComponents_same (s : EditSession.t) :
  EditSession.set_loadedComponents (EditSession.loadedComponents s) s = s.
Proof. destruct s; reflexivity. Qed.

Lemma loadPriority_run (e : Entity) (name : jsstring) (s : EditSession.t) (w : World) :
  exists comps w',
    EditSession.loadPriority e name (s, w)
    = (Ok tt, (EditSession.set_loadedComponents comps s, w'))
    /\ (forall k, k <> name -> Js.get comps k = Js.get (EditSession.loadedComponents s) k)
    /\ log w' = log w ++ (if hasComponent e name
                          then [Fetched (componentRequest (EditSession.client s) e name)]
                          else []).
Proof.
  unfold EditSession.loadPriority, hasComponent, componentRequest.
  destruct (truthy (Js.get (e_components e) name)).
  - unfold try_catch, bind, EditSession.this, gets, EditSession.call,
      EditSession.update, modify. cbn [fst].
    destruct (getContent_run (EditSession.client s)
                (ofOpt (Js.get (e_components e) name)) w) as [Hlog Hpend].
    destruct (ArkeClient.getContent _ _ w) as [[content|err|] w']; cbn [fst snd] in *.
    + exists (Js.set (EditSession.loadedComponents s) name content), w'.
      split; [reflexivity|]. split; [|exact Hlog].
      intros k Hk. apply get_set_ne. congruence.
    + exists (EditSession.loadedComponents s), w'.
      rewrite set_loadedComponents_same. auto.
    + discriminate.
  - exists (EditSession.loadedComponents s), w.
    rewrite set_loadedComponents_same, app_nil_r. auto.
Qed.

Lemma forEach_loadPriority (e : Entity) :
  forall (names : list jsstring) (s : EditSession.t) (w : World),
  exists comps w',
    EditSession.forEach (EditSession.loadPriority e) names (s, w)
    = (Ok tt, (EditSession.set_loadedComponents comps s, w'))
    /\ (forall k, ~ In k names ->
                  Js.get comps k = Js.get (EditSession.loadedComponents s) k)
    /\ log w' = log w ++ map (fun name => Fetched (componentRequest (EditSession.client s)
                                                     e name))
                           (List.filter (hasComponent e) names).
Proof.
  induction names as [|name names IH]; intros s w.
  - exists (EditSession.loadedComponents s), w. cbn.
    rewrite set_loadedComponents_same, app_nil_r. auto.
  - destruct (loadPriority_run e name s w) as (c1 & w1 & Hrun1 & Hget1 & Hlog1).
    destruct (IH (EditSession.set_loadedComponents c1 s) w1)
      as (c2 & w2 & Hrun2 & Hget2 & Hlog2).
    exists c2, w2. split; [|split].
    + cbn [EditSession.forEach]. unfold bind at 1. rewrite Hrun1, Hrun2. reflexivity.
    + intros k Hk. cbn [In] in Hk. rewrite Hget2 by tauto.
      apply Hget1. intros ->. tauto.
    + rewrite Hlog2, Hlog1. cbn [List.filter].
      change (EditSession.client (EditSession.set_loadedComponents c1 s))
        with (EditSession.client s).
      destruct (hasComponent e name); cbn [map]; rewrite <- app_assoc; reflexivity.
Qed.

End Loading.

(** X19. [load] rejects only when the fetch of the entity does, and then the
    session is as before. Once the entity is fetched, [load] resolves
    whatever happens to the content fetches: the entity is stored, one
    content request is made for each of description.md, pinax.json and
    cheimarros.json that the entity has, in this order, and only these three
    entries of the loaded components can change. *)
Theorem load_outcome (s : EditSession.t) (w : World) :
  match ArkeClient.getEntity (EditSession.client s) (EditSession.pi s) w with
  | (Ok e, w1) =>
      exists comps w2,
        EditSession.load (s, w)
        = (Ok tt, (EditSession.set_loadedComponents comps
                     (EditSession.set_entity (Some e) s), w2))
        /\ (forall k, ~ In k EditSession.priorityComponents ->
                      Js.get comps k = Js.get (EditSession.loadedComponents s) k)
        /\ log w2 = log w1
                    ++ map (fun name => Fetched (componentRequest (EditSession.client s)
                                                   e name))
                         (List.filter (hasComponent e) EditSession.priorityComponents)
  | (Throw err, w1) => EditSession.load (s, w) = (Throw err, (s, w1))
  | (Pending, _) => False
  end.
Proof.
  pose proof (getEntity_outcome (EditSession.client s) (EditSession.pi s) w) as [_ Hres].
  unfold EditSession.load, bind, EditSession.this, gets, EditSession.call,
    EditSession.update, modify. cbn [fst].
  destruct (ArkeClient.getEntity _ _ w) as [[e|err|] w1]; cbn [fst] in Hres;
    [|reflexivity|exact Hres].
  destruct (forEach_loadPriority e EditSession.priorityComponents
              (EditSession.set_entity (Some e) s) w1) as (comps & w2 & Hrun & Hget & Hlog).
  exists comps, w2. split; [exact Hrun|]. split; [exact Hget|exact Hlog].
Qed.

(** X20. [loadComponent]: a component with non-empty loaded content is
    returned from the session without a request, also before [load].  Without
    it, and for a name that is not inherited from [Object.prototype], an
    unloaded session rejects, a component the entity does not have is
    [undefined] without a request, and otherwise exactly one content request
    is made, also when the component was loaded with empty content; its
    content is stored under the name and returned, the other components
    staying as they are, and its failure leaves the session as it was. *)
Theorem loadComponent_cases (name : jsstring) (s : EditSession.t) (w : World) :
  (truthy (Js.get (EditSession.loadedComponents s) name) = true ->
   EditSession.loadComponent name (s, w)
   = (Ok (Js.get (EditSession.loadedComponents s) name), (s, w)))
  /\ (inherited name = false ->
      truthy (Js.get (EditSession.loadedComponents s) name) = false ->
      (EditSession.entity s = None ->
       EditSession.loadComponent name (s, w)
       = (Throw (ValidationError (lit "Session not loaded") None), (s, w)))
      /\ forall e, EditSession.entity s = Some e ->
           (hasComponent e name = false ->
            EditSession.loadComponent name (s, w) = (Ok None, (s, w)))
           /\ (hasComponent e name = true ->
               match ArkeClient.getContent (EditSession.client s)
                       (ofOpt (Js.get (e_components e) name)) w with
               | (Ok content, w') =>
                   (exists s',
                       EditSession.loadComponent name (s, w)
                       = (Ok (Some content), (s', w'))
                       /\ Js.get (EditSession.loadedComponents s') name = Some content
                       /\ (forall k, k <> name ->
                             Js.get (EditSession.loadedComponents s') k
                             = Js.get (EditSession.loadedComponents s) k)
                       /\ EditSession.set_loadedComponents
                            (EditSession.loadedComponents s) s'
                          = s)
                   /\ log w' = log w ++ [Fetched (componentRequest (EditSession.client s)
                                                    e name)]
               | (Throw err, w') =>
                   EditSession.loadComponent name (s, w) = (Throw err, (s, w'))
                   /\ log w' = log w ++ [Fetched (componentRequest (EditSession.client s)
                                                    e name)]
               | (Pending, _) => False
               end)).
Proof.
  unfold EditSession.loadComponent, hasComponent, componentRequest.
  unfold bind, EditSession.this, gets, EditSession.call, EditSession.update, modify.
  cbn [fst].
  split.
  - intros ->. reflexivity.
  - intros Hname ->. split; [intros ->; reflexivity|].
    intros e ->. split.
    + intros ->. reflexivity.
    + intros ->. cbn [negb].
      destruct (getContent_run (EditSession.client s)
                  (ofOpt (Js.get (e_components e) name)) w) as [Hlog Hpend].
      destruct (ArkeClient.getContent _ _ w) as [[content|err|] w']; cbn [fst snd] in *;
        [|split; [reflexivity|exact Hlog]|discriminate].
      split; [|exact Hlog].
      eexists. split; [reflexivity|].
      cbn [EditSession.loadedComponents EditSession.set_loadedComponents].
      split; [apply get_set_eq, inherited_proto, Hname|]. split.
      * intros k Hk. apply get_set_ne. congruence.
      * destruct s; reflexivity.
Qed.

(* ================================================================== *)
(** * Submitting *)
(* ================================================================== *)

Section Settling.

Lemma uploadContent_settles (c : ArkeClient.t) (content filename : jsstring) (w : World) :
  isPending (fst (ArkeClient.uploadContent c content filename w)) = false.
Proof.
  unfold ArkeClient.uploadContent, bind, fetch, json.
  destruct (incoming w) as [|x rest]; [reflexivity|].
  destruct (outcome x) as [m|r]; [reflexivity|].
  destruct (negb (ok r)); [reflexivity|].
  destruct (bodyJson r) as [[| [|item items] | | | |]|]; reflexivity.
Qed.

Lemma getEntity_settles (c : ArkeClient.t) (pi : jsstring) (w : World) :
  isPending (fst (ArkeClient.getEntity c pi w)) = false.
Proof.
  destruct (getEntity_outcome c pi w) as [_ H].
  destruct (fst (ArkeClient.getEntity c pi w)); [reflexivity|reflexivity|contradiction].
Qed.

Lemma updateEntity_settles (c : ArkeClient.t) (pi : jsstring) (update : EntityUpdate)
    (w : World) :
  isPending (fst (ArkeClient.updateEntity c pi update w)) = false.
Proof.
  unfold ArkeClient.updateEntity. unfold bind at 1.
  destruct (fetch _ w) as [[r|e|] w'] eqn:Hf; [|reflexivity|].
  - destruct (status r =? 409).
    + unfold bind. pose proof (getEntity_settles c pi w') as H.
      destruct (ArkeClient.getEntity c pi w') as [[entity|e|] w'']; auto.
    + destruct (negb (ok r)); [reflexivity|].
      unfold bind, json. destruct (bodyJson r) as [[]|]; reflexivity.
  - unfold fetch in Hf. destruct (incoming w); [discriminate|].
    destruct (outcome e); discriminate.
Qed.

Lemma reprocess_settles (c : ArkeClient.t) (request : ReprocessRequest) (w : World) :
  isPending (fst (ArkeClient.reprocess c request w)) = false.
Proof.
  unfold ArkeClient.reprocess, bind, fetch, json.
  destruct (incoming w) as [|x rest]; [reflexivity|].
  destruct (outcome x) as [m|r]; [reflexivity|].
  destruct (negb (ok r)); [reflexivity|].
  destruct (bodyJson r) as [[]|]; reflexivity.
Qed.

End Settling.

Section Uploads.

Lemma in_keys_set {V} (o : record V) (k k' : jsstring) (v : V) :
  k <> PROTO ->
  In k' (keys (Js.set o k v)) <-> k' = k \/ In k' (keys o).
Proof.
  intros Hk.
  destruct (decide (k ∈ keys o)) as [Hin|Hnot]; rewrite list_elem_of_In in *.
  - rewrite keys_set_present by exact Hin. split; [tauto|].
    intros [->|H]; assumption.
  - destruct (keys_set_absent o k v Hk Hnot) as (before & after & -> & ->).
    rewrite !in_app_iff. cbn [In]. split.
    + intros [H|[H|H]]; auto.
    + intros [->|[H|H]]; auto.
Qed.

Lemma uploadsOf_cons (s : EditSession.t) (name content : jsstring)
    (entries : list (jsstring * jsstring)) :
  uploadsOf s ((name, content) :: entries)
  = (if DiffEngine.hasSignificantChanges (EditSession.originalOf s name) content
     then [Fetched (uploadRequest (EditSession.client s) content name)]
     else []) ++ uploadsOf s entries
  /\ map fst (List.filter (significant s) ((name, content) :: entries))
     = (if DiffEngine.hasSignificantChanges (EditSession.originalOf s name) content
        then [name] else [])
       ++ map fst (List.filter (significant s) entries).
Proof.
  unfold uploadsOf. cbn [List.filter].
  change (significant s (name, content))
    with (DiffEngine.hasSignificantChanges (EditSession.originalOf s name) content).
  destruct (DiffEngine.hasSignificantChanges (EditSession.originalOf s name) content);
    split; reflexivity.
Qed.

(** The upload loop: it goes through the significant edits in order and
    stops at the first upload that fails. *)
Lemma uploadEdited_log (s : EditSession.t) :
  forall (entries : list (jsstring * jsstring)) (updates : record jsstring) (w : World),
  exists n,
    log (snd (EditSession.uploadEdited s entries updates w))
    = log w ++ take n (uploadsOf s entries)
    /\ match fst (EditSession.uploadEdited s entries updates w) with
       | Ok result =>
           n = length (uploadsOf s entries)
           /\ ((forall name, In name (keys entries) -> name <> PROTO) ->
               forall k, In k (keys result)
                         <-> In k (keys updates)
                             \/ In k (map fst (List.filter (significant s) entries)))
       | Throw _ => (1 <= n <= length (uploadsOf s entries))%nat
       | Pending => False
       end.
Proof.
  induction entries as [|[name content] entries IH]; intros updates w.
  - exists 0%nat. cbn. rewrite app_nil_r. split; [reflexivity|]. split; [reflexivity|].
    intros _ k. tauto.
  - destruct (uploadsOf_cons s name content entries) as [-> ->].
    cbn [EditSession.uploadEdited].
    destruct (DiffEngine.hasSignificantChanges (EditSession.originalOf s name) content).
    + cbn [app]. unfold bind.
      pose proof (uploadContent_log (EditSession.client s) content name w) as Hlog.
      pose proof (uploadContent_settles (EditSession.client s) content name w) as Hset.
      destruct (ArkeClient.uploadContent (EditSession.client s) content name w)
        as [[cid|err|] w1]; cbn [fst snd] in *; [| |discriminate].
      * destruct (IH (Js.set updates name cid) w1) as (n & Hlog' & Hres).
        exists (S n). split.
        { rewrite Hlog', Hlog. cbn [take]. rewrite <- app_assoc. reflexivity. }
        destruct (EditSession.uploadEdited s entries (Js.set updates name cid) w1)
          as [[result|err|] w2]; cbn [fst snd] in *;
          [|cbn [length]; lia|exact Hres].
        destruct Hres as [-> Hkeys]. split; [reflexivity|].
        intros Hnames k.
        rewrite Hkeys by (intros n Hn; apply Hnames; right; exact Hn).
        rewrite in_keys_set by (apply Hnames; left; reflexivity).
        cbn [In]. intuition congruence.
      * exists 1%nat. split; [exact Hlog|]. cbn [length]. lia.
    + cbn [app].
      destruct (IH updates w) as (n & Hlog & Hres). exists n. split; [exact Hlog|].
      destruct (fst (EditSession.uploadEdited s entries updates w));
        [|exact Hres|exact Hres].
      destruct Hres as [Hn Hkeys]. split; [exact Hn|].
      intros Hnames. apply Hkeys. intros n' Hn'. apply Hnames. right. exact Hn'.
Qed.

Lemma getDiff_names {D : DiffLibrary} (s : EditSession.t) :
  map cd_componentName (EditSession.getDiff s)
  = map fst (List.filter (significant s) (EditSession.editedContent s)).
Proof.
  unfold EditSession.getDiff.
  induction (EditSession.editedContent s) as [|[name content] entries IH];
    [reflexivity|].
  cbn [map concat List.filter]. unfold significant at 1. cbn [fst snd].
  destruct (DiffEngine.hasSignificantChanges (EditSession.originalOf s name) content).
  - cbn [app map fst]. f_equal. exact IH.
  - exact IH.
Qed.

End Uploads.

(** X21. What [getDiff] lists and what [submit] uploads are the same
    components: those whose edit is significant, in the order in which the
    edited content enumerates them (that of [Object.entries]).  The upload
    loop sends one upload per such component and stops at the first that
    fails; when all succeed, the component updates of the commit have exactly
    these names.  This is for edited components whose names are not
    inherited from [Object.prototype]. *)
Theorem uploads_match_getDiff {D : DiffLibrary} (s : EditSession.t) (w : World) :
  (forall name, In name (keys (EditSession.editedContent s)) -> inherited name = false) ->
  map cd_componentName (EditSession.getDiff s)
  = map fst (List.filter (significant s) (EditSession.editedContent s))
  /\ exists n,
       log (snd (EditSession.uploadEdited s (EditSession.editedContent s) [] w))
       = log w ++ take n (uploadsOf s (EditSession.editedContent s))
       /\ match fst (EditSession.uploadEdited s (EditSession.editedContent s) [] w) with
          | Ok updates =>
              n = length (uploadsOf s (EditSession.editedContent s))
              /\ (forall k, In k (keys updates)
                            <-> In k (map cd_componentName (EditSession.getDiff s)))
          | Throw _ =>
              (1 <= n <= length (uploadsOf s (EditSession.editedContent s)))%nat
          | Pending => False
          end.
Proof.
  intros Hnames. split; [apply getDiff_names|].
  destruct (uploadEdited_log s (EditSession.editedContent s) [] w) as (n & Hlog & Hres).
  exists n. split; [exact Hlog|].
  destruct (fst (EditSession.uploadEdited s (EditSession.editedContent s) [] w));
    [|exact Hres|exact Hres].
  destruct Hres as [Hn Hkeys]. split; [exact Hn|].
  intros k.
  rewrite Hkeys by (intros name Hin; apply inherited_proto, Hnames, Hin).
  rewrite getDiff_names. cbn [keys map In]. tauto.
Qed.

Lemma bind_run {S A B} (m : M S A) (k : A -> M S B) (s : S) :
  bind m k s
  = match m s with
    | (Ok a, s') => k a s'
    | (Throw e, s') => (Throw e, s')
    | (Pending, s') => (Pending, s')
    end.
Proof. reflexivity. Qed.

Section SubmitFrame.
Context {D : DiffLibrary}.

Lemma phase1_edits (note : jsstring) (e : Entity) (s : EditSession.t) (w : World) :
  edits (fst (snd (EditSession.phase1 note e (s, w)))) = edits s
  /\ isPending (fst (EditSession.phase1 note e (s, w))) = false
  /\ EditSession.submitting (fst (snd (EditSession.phase1 note e (s, w))))
     = EditSession.submitting s
  /\ EditSession.statusUrl (fst (snd (EditSession.phase1 note e (s, w))))
     = EditSession.statusUrl s.
Proof.
  unfold EditSession.phase1, bind, EditSession.this, gets, when, EditSession.call,
    EditSession.update, modify. cbn [fst].
  destruct (existsb cd_hasChanges (EditSession.getDiff s)); [|auto].
  destruct (uploadEdited_log s (EditSession.editedContent s) [] w) as (n & _ & Hup).
  destruct (EditSession.uploadEdited s (EditSession.editedContent s) [] w)
    as [[updates|err|] w1]; cbn [fst] in Hup; [|auto|contradiction].
  match goal with |- context [ArkeClient.updateEntity ?c ?p ?u w1] =>
    pose proof (updateEntity_settles c p u w1) as Hset;
    destruct (ArkeClient.updateEntity c p u w1) as [[version|err|] w2] end;
    cbn [fst] in Hset; [auto|auto|discriminate].
Qed.

Lemma phase2_edits (s : EditSession.t) (w : World) :
  edits (fst (snd (EditSession.phase2 (s, w)))) = edits s
  /\ isPending (fst (EditSession.phase2 (s, w))) = false
  /\ EditSession.submitting (fst (snd (EditSession.phase2 (s, w))))
     = EditSession.submitting s
  /\ EditSession.entity (fst (snd (EditSession.phase2 (s, w)))) = EditSession.entity s.
Proof.
  unfold EditSession.phase2, bind, EditSession.this, gets, when, EditSession.call,
    EditSession.update, modify. cbn [fst].
  destruct (0 <? Z.of_nat (length (components (EditSession.scope s)))); [|auto].
  match goal with |- context [ArkeClient.reprocess ?c ?r w] =>
    pose proof (reprocess_settles c r w) as Hset;
    destruct (ArkeClient.reprocess c r w) as [[result|err|] w1] end;
    cbn [fst] in Hset; [auto|auto|discriminate].
Qed.

Lemma submit_run_edits (note : jsstring) (e : Entity) (s : EditSession.t) (w : World) :
  edits (fst (snd ((EditSession.phase1 note e ;;;
                    EditSession.phase2 ;;;
                    s1 <- EditSession.this ;; ret (EditSession.theResult s1)) (s, w))))
  = edits s
  /\ isPending (fst ((EditSession.phase1 note e ;;;
                      EditSession.phase2 ;;;
                      s1 <- EditSession.this ;; ret (EditSession.theResult s1)) (s, w)))
     = false.
Proof.
  rewrite (bind_run (EditSession.phase1 note e)).
  destruct (phase1_edits note e s w) as (He1 & Hp1 & _).
  destruct (EditSession.phase1 note e (s, w)) as [[[]|err|] [s1 w1]];
    cbn [fst snd] in *; [|auto|discriminate].
  rewrite (bind_run EditSession.phase2).
  destruct (phase2_edits s1 w1) as (He2 & Hp2 & _).
  destruct (EditSession.phase2 (s1, w1)) as [[[]|err|] [s2 w2]];
    cbn [fst snd] in *; [|split; [congruence|reflexivity]|discriminate].
  unfold bind, EditSession.this, gets, ret. cbn [fst snd].
  split; [congruence|reflexivity].
Qed.

End SubmitFrame.

(** X22. [submit] always settles, and it never touches what the user put
    into the session: mode, loaded components, prompts, edited content,
    corrections and scope are as before, whether it succeeds or fails. The
    edits are not cleared by a successful save, so [getDiff] and
    [getChangeSummary] report the same changes afterwards. *)
Theorem submit_keeps_edits {D : DiffLibrary} (note : jsstring) (s : EditSession.t)
    (w : World) :
  isPending (fst (EditSession.submit note (s, w))) = false
  /\ edits (fst (snd (EditSession.submit note (s, w)))) = edits s
  /\ EditSession.getDiff (fst (snd (EditSession.submit note (s, w))))
     = EditSession.getDiff s
  /\ EditSession.getChangeSummary (fst (snd (EditSession.submit note (s, w))))
     = EditSession.getChangeSummary s.
Proof.
  assert (Hmain : isPending (fst (EditSession.submit note (s, w))) = false
                  /\ edits (fst (snd (EditSession.submit note (s, w)))) = edits s).
  { destruct (EditSession.submitting s) eqn:Hs.
    - unfold EditSession.submit, bind, EditSession.this, gets. cbn [fst].
      rewrite Hs. auto.
    - destruct (EditSession.entity s) as [e|] eqn:He.
      + rewrite (submit_unfold note s w e He Hs).
        destruct (submit_run_edits note e (started s) w) as [Hed Hpend].
        destruct ((EditSession.phase1 note e;;; _) (started s, w)) as [r [s' w']].
        cbn [fst snd] in *. split; [exact Hpend|exact Hed].
      + unfold EditSession.submit, bind, EditSession.this, gets. cbn [fst].
        rewrite Hs, He. auto. }
  destruct Hmain as [Hpend Hed]. split; [exact Hpend|]. split; [exact Hed|].
  unfold edits in Hed. injection Hed as Hpi Hmode Hai Hcl Hlc Hpr Hec Hco Hsc.
  split.
  - apply getDiff_frame; assumption.
  - unfold EditSession.getChangeSummary.
    rewrite (getDiff_frame s _ Hlc Hec), Hmode, Hec, Hco, Hpr, Hsc. reflexivity.
Qed.

(** X23. [submit] checks before it starts: while another submit is in
    progress, and on a session that is not loaded, it rejects with a
    validation error, makes no request, and leaves the session as it is; in
    particular it does not reset the flag of the submit in progress. *)
Theorem submit_rejected_before_start {D : DiffLibrary} (note : jsstring)
    (s : EditSession.t) (w : World) :
  (EditSession.submitting s = true ->
   EditSession.submit note (s, w)
   = (Throw (ValidationError (lit "Submit already in progress") None), (s, w)))
  /\ (EditSession.submitting s = false -> EditSession.entity s = None ->
      EditSession.submit note (s, w) = (Throw notLoadedError, (s, w))).
Proof.
  unfold EditSession.submit, bind, EditSession.this, gets. cbn [fst].
  split; [intros ->|intros -> ->]; reflexivity.
Qed.


Section SubmitRequests.
Context {D : DiffLibrary}.

Lemma phase2_run (s : EditSession.t) (w : World) :
  log (snd (snd (EditSession.phase2 (s, w))))
  = log w ++ (if 0 <? Z.of_nat (length (components (EditSession.scope s)))
              then [Fetched (reprocessRequest s (EditSession.buildCustomPrompts s))]
              else [])
  /\ ((0 <? Z.of_nat (length (components (EditSession.scope s)))) = false ->
      EditSession.phase2 (s, w) = (Ok tt, (s, w))).
Proof.
  unfold EditSession.phase2, bind, EditSession.this, gets, when, EditSession.call,
    EditSession.update, modify. cbn [fst].
  destruct (0 <? Z.of_nat (length (components (EditSession.scope s)))).
  - split; [|discriminate].
    match goal with |- context [ArkeClient.reprocess ?c ?r w] =>
      pose proof (reprocess_log c r w) as Hlog;
      destruct (ArkeClient.reprocess c r w) as [[result|err|] w1] end;
      cbn [fst snd] in *; exact Hlog.
  - rewrite app_nil_r. auto.
Qed.

Lemma phase1_log (note : jsstring) (e : Entity) (s : EditSession.t) (w : World) :
  existsb cd_hasChanges (EditSession.getDiff s) = true ->
  exists n rest,
    log (snd (snd (EditSession.phase1 note e (s, w))))
    = log w ++ take n (uploadsOf s (EditSession.editedContent s)) ++ rest
    /\ (1 <= n)%nat.
Proof.
  intros Hedit.
  assert (Hne : (1 <= length (uploadsOf s (EditSession.editedContent s)))%nat).
  { pose proof (getDiff_names s) as Hnames.
    apply (f_equal (@length jsstring)) in Hnames. rewrite !length_map in Hnames.
    unfold uploadsOf. rewrite length_map, <- Hnames.
    destruct (EditSession.getDiff s); [discriminate|]. cbn [length]. lia. }
  unfold EditSession.phase1, bind, EditSession.this, gets, when, EditSession.call,
    EditSession.update, modify. cbn [fst]. rewrite Hedit.
  destruct (uploadEdited_log s (EditSession.editedContent s) [] w) as (n & Hlog & Hup).
  destruct (EditSession.uploadEdited s (EditSession.editedContent s) [] w)
    as [[updates|err|] w1]; cbn [fst snd] in *; [| |contradiction].
  - destruct Hup as [Hn _].
    match goal with |- context [ArkeClient.updateEntity ?c ?p ?u w1] =>
      destruct (updateEntity_log c p u w1) as (follow & Hlog2 & _);
      destruct (ArkeClient.updateEntity c p u w1) as [[version|err|] w2] end;
      cbn [fst snd] in *; exists n; eexists; (split; [|lia]);
      rewrite Hlog2, Hlog, <- app_assoc; reflexivity.
  - exists n, []. rewrite app_nil_r. split; [exact Hlog|lia].
Qed.

Lemma phase1_result (note : jsstring) (e : Entity) (s : EditSession.t) (w : World) :
  reprocessed (EditSession.theResult (fst (snd (EditSession.phase1 note e (s, w)))))
  = reprocessed (EditSession.theResult s).
Proof.
  unfold EditSession.phase1, bind, EditSession.this, gets, when, EditSession.call,
    EditSession.update, modify. cbn [fst].
  destruct (existsb cd_hasChanges (EditSession.getDiff s)); [|reflexivity].
  destruct (EditSession.uploadEdited s (EditSession.editedContent s) [] w)
    as [[updates|err|] w1]; [|reflexivity|reflexivity].
  match goal with |- context [ArkeClient.updateEntity ?c ?p ?u w1] =>
    destruct (ArkeClient.updateEntity c p u w1) as [[version|err|] w2] end;
    reflexivity.
Qed.

End SubmitRequests.

(** X25. [getChangeSummary] tells what [submit] will do on a loaded session.
    With [willSave] false nothing is uploaded or committed: the only request
    is the regeneration request, made exactly when [willReprocess] is true,
    and the entity stays at its version. With [willSave] true the first
    request is the upload of the first significantly edited component. With
    [willReprocess] false no regeneration is started: the status URL is as
    before and a result has no [reprocess] part. *)
Theorem summary_predicts_submit {D : DiffLibrary} (note : jsstring) (s : EditSession.t)
    (w : World) (e : Entity) :
  EditSession.entity s = Some e -> EditSession.submitting s = false ->
  (cs_willSave (EditSession.getChangeSummary s) = false ->
   log (snd (snd (EditSession.submit note (s, w))))
   = log w ++ (if cs_willReprocess (EditSession.getChangeSummary s)
               then [Fetched (reprocessRequest s (EditSession.buildCustomPrompts s))]
               else [])
   /\ EditSession.entity (fst (snd (EditSession.submit note (s, w)))) = Some e)
  /\ (cs_willSave (EditSession.getChangeSummary s) = true ->
      exists entry rest,
        In entry (EditSession.editedContent s) /\ significant s entry = true
        /\ log (snd (snd (EditSession.submit note (s, w))))
           = log w ++ Fetched (uploadRequest (EditSession.client s) (snd entry) (fst entry))
                      :: rest)
  /\ (cs_willReprocess (EditSession.getChangeSummary s) = false ->
      EditSession.statusUrl (fst (snd (EditSession.submit note (s, w))))
      = EditSession.statusUrl s
      /\ forall r, fst (EditSession.submit note (s, w)) = Ok r -> reprocessed r = None).
Proof.
  intros He Hs. rewrite (submit_unfold note s w e He Hs).
  unfold EditSession.getChangeSummary. cbn [cs_willSave cs_willReprocess].
  rewrite (bind_run (EditSession.phase1 note e)).
  split; [|split].
  - intros Hsave. rewrite (phase1_skipped note s w e Hsave).
    rewrite (bind_run EditSession.phase2).
    destruct (phase2_run (started s) w) as [Hlog _].
    destruct (phase2_edits (started s) w) as (_ & _ & _ & Hent).
    change (EditSession.scope (started s)) with (EditSession.scope s) in Hlog.
    change (EditSession.buildCustomPrompts (started s))
      with (EditSession.buildCustomPrompts s) in Hlog.
    change (reprocessRequest (started s)) with (reprocessRequest s) in Hlog.
    change (EditSession.entity (started s)) with (EditSession.entity s) in Hent.
    destruct (EditSession.phase2 (started s, w)) as [[[]|err|] [s2 w2]];
      unfold bind, EditSession.this, gets, ret;
      cbn [fst snd EditSession.entity EditSession.set_submitting] in *;
      (split; [exact Hlog|]); rewrite Hent; exact He.
  - intros Hsave.
    destruct (phase1_log note e (started s) w) as (n & rest & Hlog & Hn).
    { rewrite (getDiff_frame s (started s) eq_refl eq_refl). exact Hsave. }
    change (uploadsOf (started s)) with (uploadsOf s) in Hlog.
    change (EditSession.editedContent (started s)) with (EditSession.editedContent s)
      in Hlog.
    unfold uploadsOf in Hlog.
    destruct (List.filter (significant s) (EditSession.editedContent s))
      as [|entry entries] eqn:Hf.
    { exfalso. pose proof (getDiff_names s) as Hnames. rewrite Hf in Hnames.
      destruct (EditSession.getDiff s); [discriminate Hsave|discriminate Hnames]. }
    assert (Hentry : In entry (List.filter (significant s) (EditSession.editedContent s)))
      by (rewrite Hf; left; reflexivity).
    apply filter_In in Hentry as [Hin Hsig].
    destruct n as [|n]; [lia|]. cbn [map take app] in Hlog.
    exists entry.
    destruct (EditSession.phase1 note e (started s, w)) as [[[]|err|] [s1 w1]];
      cbn [fst snd] in *.
    + rewrite (bind_run EditSession.phase2).
      destruct (phase2_run s1 w1) as [Hlog2 _].
      destruct (EditSession.phase2 (s1, w1)) as [[[]|err|] [s2 w2]];
        unfold bind, EditSession.this, gets, ret;
        cbn [fst snd] in *; eexists; (split; [exact Hin|split; [exact Hsig|]]);
        rewrite Hlog2, Hlog, <- app_assoc; reflexivity.
    + eexists. split; [exact Hin|split; [exact Hsig|exact Hlog]].
    + eexists. split; [exact Hin|split; [exact Hsig|exact Hlog]].
  - intros Hre.
    destruct (phase1_edits note e (started s) w) as (Hed & _ & _ & Hurl).
    pose proof (phase1_result note e (started s) w) as Hres.
    destruct (EditSession.phase1 note e (started s, w)) as [[[]|err|] [s1 w1]];
      cbn [fst snd] in *; [|split; [exact Hurl|discriminate]..].
    rewrite (bind_run EditSession.phase2).
    assert (Hscope : EditSession.scope s1 = EditSession.scope s).
    { unfold edits in Hed. injection Hed. auto. }
    destruct (phase2_run s1 w1) as [_ Hskip]. rewrite Hscope in Hskip.
    rewrite (Hskip Hre). unfold bind, EditSession.this, gets, ret. cbn [fst snd].
    split; [exact Hurl|]. intros r [= <-]. rewrite Hres. reflexivity.
Qed.

(* ================================================================== *)
(** * Waiting for the regeneration *)
(* ================================================================== *)

Section Polling.

Lemma getReprocessStatus_first_request (c : ArkeClient.t) (statusUrl : jsstring)
    (isFirstPoll : bool) (w : World) :
  exists rest,
    log (snd (ArkeClient.getReprocessStatus c statusUrl isFirstPoll w))
    = log w ++ Fetched (statusRequest c statusUrl) :: rest.
Proof.
  rewrite getReprocessStatus_unfold, bind_run.
  destruct (retry_loop_bounded (statusRequest c statusUrl) (statusRetryOptions isFirstPoll)
              5 0 (initialDelayMs (statusRetryOptions isFirstPoll)) None w)
    as (k & _ & Hlog & _); [destruct isFirstPoll; reflexivity|].
  assert (Hfirst : exists rest,
             log (snd (ArkeClient.retry_loop 6 (statusRequest c statusUrl)
                         (statusRetryOptions isFirstPoll) 0
                         (initialDelayMs (statusRetryOptions isFirstPoll)) None w))
             = log w ++ Fetched (statusRequest c statusUrl) :: rest).
  { rewrite Hlog. destruct k as [|k]; cbn [backoffLog app]; eexists; reflexivity. }
  destruct Hfirst as [rest Hfirst]. exists rest.
  destruct (ArkeClient.retry_loop 6 _ _ 0 _ None w) as [[r|e|] w1]; cbn [snd] in *;
    try exact Hfirst.
  destruct (negb (ok r)); [exact Hfirst|].
  unfold bind, json. destruct (bodyJson r) as [[]|]; exact Hfirst.
Qed.

Lemma poll_loop_log (c : ArkeClient.t) (statusUrl : jsstring) (interval timeout : Z)
    (onProgress : bool) (startTime : Z) :
  forall (fuel : nat) (isFirstPoll : bool) (w : World),
    exists suffix,
      log (snd (EditSession.poll_loop fuel c statusUrl interval timeout onProgress
                  startTime isFirstPoll w))
      = log w ++ suffix
      /\ (fuel <> 0%nat ->
          exists rest, suffix = Fetched (statusRequest c statusUrl) :: rest).
Proof.
  induction fuel as [|fuel IH]; intros isFirstPoll w.
  - exists []. cbn. rewrite app_nil_r. split; [reflexivity|congruence].
  - cbn [EditSession.poll_loop]. rewrite bind_run.
    destruct (getReprocessStatus_first_request c statusUrl isFirstPoll w) as [rest Hlog].
    destruct (ArkeClient.getReprocessStatus c statusUrl isFirstPoll w)
      as [[status|e|] w1]; cbn [snd] in *;
      [|exists (Fetched (statusRequest c statusUrl) :: rest); eauto..].
    rewrite bind_run.
    assert (Hnote : exists w2 note,
               when onProgress (notify (EditSession.statusOf status)) w1 = (Ok tt, w2)
               /\ log w2 = log w1 ++ note /\ now w2 = now w1).
    { destruct onProgress; cbn [when].
      - eexists _, _. split; [reflexivity|]. cbn. auto.
      - exists w1, []. rewrite app_nil_r. auto. }
    destruct Hnote as (w2 & note & -> & Hlog2 & _).
    destruct (EditSession.isTerminal status).
    + cbn [ret snd]. eexists. split; [|eauto].
      rewrite Hlog2, Hlog, <- app_assoc. reflexivity.
    + unfold bind at 1, dateNow, gets.
      destruct (timeout <? now w2 - startTime).
      * cbn [ret snd]. eexists. split; [|eauto].
        rewrite Hlog2, Hlog, <- app_assoc. reflexivity.
      * rewrite bind_run. unfold sleep at 1.
        match goal with |- context [EditSession.poll_loop fuel _ _ _ _ _ _ false ?w3] =>
          destruct (IH false w3) as (suffix & Hlog3 & _) end.
        cbn [log] in Hlog3. eexists. split; [|eauto].
        rewrite Hlog3, Hlog2, Hlog, <- !app_assoc. reflexivity.
Qed.

Lemma poll_loop_settled (c : ArkeClient.t) (statusUrl : jsstring) (interval timeout : Z)
    (onProgress : bool) (startTime : Z) :
  forall (fuel : nat) (isFirstPoll : bool) (w : World) (st : EditStatus),
    fst (EditSession.poll_loop fuel c statusUrl interval timeout onProgress
           startTime isFirstPoll w) = Ok st ->
    es_saveComplete st = true /\ settled st.
Proof.
  induction fuel as [|fuel IH]; intros isFirstPoll w st; [discriminate|].
  cbn [EditSession.poll_loop]. rewrite bind_run.
  destruct (ArkeClient.getReprocessStatus c statusUrl isFirstPoll w)
    as [[status|e|] w1]; [|discriminate..].
  rewrite bind_run.
  assert (Hnote : exists w2,
             when onProgress (notify (EditSession.statusOf status)) w1 = (Ok tt, w2)).
  { destruct onProgress; cbn [when]; eexists; reflexivity. }
  destruct Hnote as (w2 & ->).
  destruct (EditSession.isTerminal status) eqn:Hterm.
  - intros [= <-]. split; [reflexivity|]. exists status. rewrite Hterm. auto.
  - unfold bind at 1, dateNow, gets.
    destruct (timeout <? now w2 - startTime).
    + intros [= <-]. split; [reflexivity|]. exists status. rewrite Hterm. auto.
    + rewrite bind_run. unfold sleep at 1. apply IH.
Qed.

End Polling.

(** X26. [waitForCompletion] never changes the session, and whatever it
    resolves with has [saveComplete] true and the phase complete or error,
    never reprocessing: a timeout is a resolved status with the timeout
    error and the last status polled, not a rejection. With a status URL it
    polls at least once before it looks at the timeout. *)
Theorem waitForCompletion_results (fuel : nat) (options : option PollOptions)
    (s : EditSession.t) (w : World) :
  fst (snd (EditSession.waitForCompletion fuel options (s, w))) = s
  /\ (forall st,
        fst (EditSession.waitForCompletion fuel options (s, w)) = Ok st ->
        es_saveComplete st = true
        /\ (es_phase st = phase_complete \/ es_phase st = phase_error)
        /\ (truthy (EditSession.statusUrl s) = true -> settled st))
  /\ (truthy (EditSession.statusUrl s) = true -> fuel <> 0%nat ->
      exists rest,
        log (snd (snd (EditSession.waitForCompletion fuel options (s, w))))
        = log w ++ Fetched (statusRequest (EditSession.client s)
                              (ofOpt (EditSession.statusUrl s))) :: rest).
Proof.
  unfold EditSession.waitForCompletion, bind, EditSession.this, EditSession.call,
    dateNow, gets. cbn [fst].
  destruct (truthy (EditSession.statusUrl s)); cbn [negb].
  - match goal with |- context [EditSession.poll_loop fuel ?c ?u ?i ?t ?p ?st true w] =>
      pose proof (poll_loop_settled c u i t p st fuel true w) as Hset;
      destruct (poll_loop_log c u i t p st fuel true w) as (suffix & Hlog & Hfirst);
      destruct (EditSession.poll_loop fuel c u i t p st true w) as [r w1] end.
    cbn [fst snd] in *. split; [reflexivity|]. split.
    + intros st ->. destruct (Hset st eq_refl) as [Hsave Hsettled].
      split; [exact Hsave|]. split; [|intros _; exact Hsettled].
      destruct Hsettled as (status & _ & Hcase).
      destruct (EditSession.isTerminal status) eqn:Hterm; [|tauto].
      subst st. unfold EditSession.isTerminal in Hterm.
      unfold EditSession.statusOf. cbn [es_phase].
      destruct (rs_status status); try discriminate; auto.
    + intros _ Hfuel. destruct (Hfirst Hfuel) as [rest ->]. exists rest. exact Hlog.
  - cbn [ret fst snd]. split; [reflexivity|]. split; [|discriminate].
    intros st [= <-]. cbn. split; [reflexivity|]. split; [auto|discriminate].
Qed.

(* ================================================================== *)
(** * The preview of the prompts *)
(* ================================================================== *)

Section Preview.
Context {D : DiffLibrary}.


Lemma join_head (sep p q : jsstring) (rest : list jsstring) :
  join sep (p :: q :: rest) = p ++ sep ++ join sep (q :: rest).
Proof. reflexivity. Qed.

End Preview.


(** X28. Cascading only appends to the preview: with [cascade] set, the
    prompt previewed for a component is the prompt previewed without it,
    followed by a line break and the cascade section, which has the heading,
    the path from the entity to its parent (or to "root") at depth 0 when the
    entity has an identifier, and the stop boundary when the scope has one.
    The custom prompts that [submit] sends do not depend on the scope at
    all. *)
Theorem cascade_only_appends {D : DiffLibrary} (s : EditSession.t) (e : Entity)
    (c : RegeneratableComponent) (scope' : EditScope) :
  (cascade (EditSession.scope s) = true ->
   EditSession.previewOne s e c
   = EditSession.previewOne (withoutCascade s) e c
     ++ NL ++ join NL (cascadeSection e (stopAtPi (EditSession.scope s))))
  /\ EditSession.buildCustomPrompts (EditSession.set_scope scope' s)
     = EditSession.buildCustomPrompts s.
Proof.
  split.
  - intros Hc.
    assert (Hbase : EditSession.previewOne s e c
                    = PromptBuilder.buildCascadePrompt
                        (EditSession.previewOne (withoutCascade s) e c)
                        {| cc_path := List.filter (fun p => truthy (Some p))
                                        [e_pi e; orElse (e_parent_pi e) (lit "root")];
                           cc_depth := 0;
                           cc_stopAtPi := stopAtPi (EditSession.scope s) |})
      by (unfold EditSession.previewOne at 1; rewrite Hc; reflexivity).
    rewrite Hbase. generalize (EditSession.previewOne (withoutCascade s) e c) as base.
    intros base.
    unfold PromptBuilder.buildCascadePrompt, cascadeSection. cbv zeta.
    cbn [cc_path cc_depth cc_stopAtPi].
    assert (Hparent : truthy (Some (orElse (e_parent_pi e) (lit "root"))) = true)
      by (destruct (e_parent_pi e) as [[|ch r]|]; reflexivity).
    cbn [List.filter]. rewrite Hparent.
    destruct (e_pi e) as [|ch r]; cbn [truthy length Z.of_nat]; cbn [app];
      (etransitivity; [apply join_head|]); reflexivity.
  - apply buildCustomPrompts_frame; reflexivity.
Qed.

(* ================================================================== *)
(** * The properties on concrete inputs *)
(* ================================================================== *)

(** A prompt for the pinax set on a loaded session and cleared again. *)
Lemma setPrompt_clearPrompt_example :
  EditSession.mode (loadedSession ai_prompt) <> manual_only
  /\ Js.get (EditSession.prompts
               (snd (EditSession.setPrompt (target_component pinax) (lit "Fix dates")
                       (loadedSession ai_prompt))))
       (lit "pinax")
     = Some (lit "Fix dates")
  /\ Js.get (EditSession.prompts
               (snd (EditSession.clearPrompt (target_component pinax)
                       (snd (EditSession.setPrompt (target_component pinax)
                               (lit "Fix dates") (loadedSession ai_prompt))))))
       (lit "pinax")
     = None.
Proof.
  assert (Hmode : EditSession.mode (loadedSession ai_prompt) <> manual_only)
    by discriminate.
  pose proof (setPrompt_clearPrompt (loadedSession ai_prompt) (target_component pinax)
                (lit "Fix dates") Hmode (@NoDup_nil_2 jsstring)) as H.
  cbv zeta in H. split; [exact Hmode|]. split; [exact (proj1 (proj2 H))|].
  exact (proj1 (proj2 (proj2 H))).
Defined.

(** The description set twice on a manual session: the second text stays. *)
Lemma setContent_overwrites_example :
  EditSession.mode (loadedSession manual_only) <> ai_prompt
  /\ lit "description.md" <> PROTO
  /\ Js.get (EditSession.editedContent
               (snd (EditSession.setContent (lit "description.md") (lit "second")
                       (snd (EditSession.setContent (lit "description.md") (lit "first")
                               (loadedSession manual_only))))))
       (lit "description.md")
     = Some (lit "second").
Proof.
  assert (Hmode : EditSession.mode (loadedSession manual_only) <> ai_prompt)
    by discriminate.
  assert (Hname : lit "description.md" <> PROTO) by discriminate.
  pose proof (setContent_overwrites (loadedSession manual_only) (lit "description.md")
                (lit "first") (lit "second") Hmode Hname (@NoDup_nil_2 jsstring)) as H.
  cbv zeta in H. split; [exact Hmode|]. split; [exact Hname|]. exact (proj1 (proj2 H)).
Defined.

(** One line replaced by another: the addition is the second record, at
    line 1. *)
Lemma diff_records_and_lines_example :
  changed {| value := lit "beta"; added := true; removed := false |} = true
  /\ @DiffEngine.diff wholeText (lit "alpha") (lit "beta") !! 1%nat
     = Some {| td_type := addition; td_original := None;
               td_modified := Some (lit "beta"); td_lineNumber := Some 1 |}.
Proof.
  split; [reflexivity|].
  exact (proj2 (@diff_records_and_lines wholeText (lit "alpha") (lit "beta")
                  [{| value := lit "alpha"; added := false; removed := true |}]
                  {| value := lit "beta"; added := true; removed := false |} []
                  eq_refl eq_refl)).
Defined.

(** A text compared with itself has no records. *)
Lemma diff_line_numbers_ordered_example :
  existsb changed (@Diff_diffLines wholeText (lit "same") (lit "same")) = false
  /\ @DiffEngine.diff wholeText (lit "same") (lit "same") = [].
Proof.
  split; [reflexivity|].
  exact (proj2 (proj2 (proj2
           (@diff_line_numbers_ordered wholeText (lit "same") (lit "same")))) eq_refl).
Defined.

(** A component without changes leaves no trace in the prompt. *)
Lemma formatComponentDiffs_skips_unchanged_example :
  existsb cd_hasChanges [unchangedDiff] = false
  /\ DiffEngine.formatComponentDiffsForPrompt [unchangedDiff] = [].
Proof.
  split; [reflexivity|].
  exact (proj2 (formatComponentDiffs_skips_unchanged [unchangedDiff]) eq_refl).
Defined.

(** A short current content is quoted whole. *)
Lemma buildAIPrompt_content_block_example :
  lit "Short." <> []
  /\ contentBlock description (lit "Short.")
     = [lit "## Current description content for reference:"; PromptBuilder.FENCE;
        lit "Short."; PromptBuilder.FENCE].
Proof.
  assert (Hne : lit "Short." <> []) by discriminate.
  assert (Hlen : (length (lit "Short.") <= 2000)%nat) by (cbn; lia).
  pose proof (buildAIPrompt_content_block (lit "Shorten it") description demoContext
                (lit "Short.") Hne) as H.
  cbv zeta in H. split; [exact Hne|]. exact (proj1 (proj2 H) Hlen).
Defined.

(** Without any prompt the combined prompt is the default instruction. *)
Lemma buildCombinedPrompt_fallback_example :
  PromptBuilder.buildCombinedPrompt None (Some []) description
  = defaultInstruction description.
Proof.
  exact (proj1 (proj2 (proj2
           (buildCombinedPrompt_fallback None (Some []) description)))
           eq_refl eq_refl).
Defined.

(** A reorganization prompt on the prompted session changes nothing in what
    is sent. *)
Lemma reorganization_prompt_never_sent_example :
  EditSession.mode promptedSession <> manual_only
  /\ @EditSession.buildCustomPrompts wholeText
       (snd (EditSession.setPrompt target_reorganization (lit "Group by year")
               promptedSession))
     = @EditSession.buildCustomPrompts wholeText promptedSession.
Proof.
  assert (Hmode : EditSession.mode promptedSession <> manual_only) by discriminate.
  pose proof (@reorganization_prompt_never_sent wholeText promptedSession
                (lit "Group by year") Hmode) as H.
  cbv zeta in H. split; [exact Hmode|]. exact (proj1 (proj2 (proj2 H))).
Defined.

(** In ai-prompt mode the general prompt is sent as it is. *)
Lemma general_prompt_needs_changes_example :
  Js.get (EditSession.prompts generalPromptSession) (lit "general")
  = Some (lit "Be brief")
  /\ cp_general (@EditSession.buildCustomPrompts wholeText generalPromptSession)
     = Some (lit "Be brief").
Proof.
  assert (Hne : lit "Be brief" <> []) by discriminate.
  split; [reflexivity|].
  exact (proj1 (@general_prompt_needs_changes wholeText generalPromptSession
                  (lit "Be brief") eq_refl Hne) eq_refl).
Defined.

(** The client of the demonstrations, configured with and without the
    trailing slash. *)
Lemma client_base_url_slash_example :
  last (lit "https://api.arke.institute") <> Some SLASH
  /\ ArkeClient.new {| cfg_ipfsWrapperUrl := lit "https://api.arke.institute" ++ [SLASH];
                       cfg_reprocessApiUrl := lit "https://reprocess.arke.institute"
                                              ++ [SLASH];
                       cfg_authToken := None; cfg_statusUrlTransform := None |}
     = ArkeClient.new {| cfg_ipfsWrapperUrl := lit "https://api.arke.institute";
                         cfg_reprocessApiUrl := lit "https://reprocess.arke.institute";
                         cfg_authToken := None; cfg_statusUrlTransform := None |}.
Proof.
  assert (H1 : last (lit "https://api.arke.institute") <> Some SLASH) by discriminate.
  assert (H2 : last (lit "https://reprocess.arke.institute") <> Some SLASH)
    by discriminate.
  split; [exact H1|].
  exact (proj1 (client_base_url_slash (lit "https://api.arke.institute")
                  (lit "https://reprocess.arke.institute") None None H1 H2)).
Defined.

(** A content that is not there: the error of a 404 is a fetch error with
    the content identifier. *)
Lemma content_calls_on_response_example :
  fst (ArkeClient.getContent demoClient (lit "cid-description")
         (worldOf [respond 404 "Not Found" None]))
  = Throw (ArkeEditError (lit "Failed to fetch content: Not Found")
             (lit "FETCH_ERROR") 404 (Some (lit "cid-description"))).
Proof.
  exact (proj1 (content_calls_on_response demoClient
                  (worldOf [respond 404 "Not Found" None])
                  (respond 404 "Not Found" None) []
                  {| status := 404; statusText := lit "Not Found"; bodyText := [];
                     bodyJson := None |}
                  (lit "cid-description") [] [] eq_refl eq_refl)).
Defined.

(** A rejected regeneration request with a message in its body. *)
Lemma reprocess_error_message_example :
  fst (ArkeClient.reprocess demoClient demoRequest
         (worldOf [respond 400 "Bad Request"
                     (Some (JMessage (Some (lit "Unknown phase"))))]))
  = Throw (ReprocessError (lit "Unknown phase") None).
Proof.
  exact (reprocess_error_message demoClient demoRequest
           (worldOf [respond 400 "Bad Request"
                       (Some (JMessage (Some (lit "Unknown phase"))))])
           (respond 400 "Bad Request" (Some (JMessage (Some (lit "Unknown phase")))))
           []
           {| status := 400; statusText := lit "Bad Request"; bodyText := [];
              bodyJson := Some (JMessage (Some (lit "Unknown phase"))) |}
           eq_refl eq_refl eq_refl).
Defined.

(** A commit that meets a server error. *)
Lemma updateEntity_without_conflict_example :
  500 <> 409
  /\ fst (ArkeClient.updateEntity demoClient demoPi demoUpdate
            (worldOf [respond 500 "Internal Server Error" None]))
     = Throw (ArkeEditError (lit "Failed to update entity: Internal Server Error")
                (lit "UPDATE_ERROR") 500 None).
Proof.
  assert (Hst : 500 <> 409) by discriminate.
  split; [exact Hst|].
  exact (proj1 (proj2
           (updateEntity_without_conflict demoClient demoPi demoUpdate
              (worldOf [respond 500 "Internal Server Error" None])
              (respond 500 "Internal Server Error" None) []
              {| status := 500; statusText := lit "Internal Server Error";
                 bodyText := []; bodyJson := None |}
              eq_refl eq_refl Hst)) eq_refl).
Defined.

(** With the network down the status request is made six times. *)
Lemma fetchWithRetry_bounded_example :
  exists k,
    log (snd (ArkeClient.fetchWithRetry (statusRequest demoClient demoStatusUrl)
                DEFAULT_RETRY_OPTIONS (worldOf networkDown)))
    = backoffLog (statusRequest demoClient demoStatusUrl) DEFAULT_RETRY_OPTIONS 2000 k
      ++ [Fetched (statusRequest demoClient demoStatusUrl)]
    /\ k = 5%nat.
Proof.
  destruct (fetchWithRetry_bounded (statusRequest demoClient demoStatusUrl)
              DEFAULT_RETRY_OPTIONS (worldOf networkDown))
    as (k & _ & Hlog & _ & _ & _ & _ & _ & Hthrow).
  exists k. split; [exact Hlog|]. exact (Hthrow _ eq_refl).
Defined.

(** The loaded description is returned without a request. *)
Lemma loadComponent_cases_example :
  EditSession.loadComponent (lit "description.md")
    (loadedSession ai_prompt, worldOf networkDown)
  = (Ok (Some (lit "A newsletter about economic history.")),
     (loadedSession ai_prompt, worldOf networkDown))
  /\ inherited (lit "pinax.json") = false
  /\ EditSession.loadComponent (lit "pinax.json")
       (loadedSession ai_prompt, worldOf networkDown)
     = (Ok None, (loadedSession ai_prompt, worldOf networkDown)).
Proof.
  split; [|split; [reflexivity|]].
  - exact (proj1 (loadComponent_cases (lit "description.md") (loadedSession ai_prompt)
                    (worldOf networkDown)) eq_refl).
  - exact (proj1 (proj2 (proj2 (loadComponent_cases (lit "pinax.json")
                                  (loadedSession ai_prompt) (worldOf networkDown))
                           eq_refl eq_refl)
                    (demoEntity 3 "T3") eq_refl) eq_refl).
Defined.

(** A second submit while the first is in progress. *)
Lemma submit_rejected_before_start_example :
  EditSession.submitting (started editedSession) = true
  /\ @EditSession.submit wholeText (lit "note")
       (started editedSession, worldOf scenarioScript)
     = (Throw (ValidationError (lit "Submit already in progress") None),
        (started editedSession, worldOf scenarioScript)).
Proof.
  split; [reflexivity|].
  exact (proj1 (@submit_rejected_before_start wholeText (lit "note")
                  (started editedSession) (worldOf scenarioScript)) eq_refl).
Defined.

(** The prompted session has nothing to save: the regeneration request is
    the only request. *)
Lemma summary_predicts_submit_example :
  cs_willSave (@EditSession.getChangeSummary wholeText promptedSession) = false
  /\ log (snd (snd (@EditSession.submit wholeText (lit "note")
                      (promptedSession, worldOf regenerationAccepted))))
     = [Fetched (reprocessRequest promptedSession
                   (@EditSession.buildCustomPrompts wholeText promptedSession))].
Proof.
  split; [reflexivity|].
  exact (proj1 (proj1 (@summary_predicts_submit wholeText (lit "note") promptedSession
                         (worldOf regenerationAccepted) (demoEntity 3 "T3")
                         eq_refl eq_refl) eq_refl)).
Defined.

(** A started regeneration is polled at least once. *)
Lemma waitForCompletion_results_example :
  truthy (EditSession.statusUrl pollingSession) = true
  /\ exists rest,
       log (snd (snd (EditSession.waitForCompletion 1 None
                        (pollingSession,
                         worldOf [respond 200 "OK" (Some (JStatus doneStatus))]))))
       = Fetched (statusRequest demoClient demoStatusUrl) :: rest.
Proof.
  split; [reflexivity|].
  exact (proj2 (proj2 (waitForCompletion_results 1 None pollingSession
                         (worldOf [respond 200 "OK" (Some (JStatus doneStatus))])))
           eq_refl (fun H : 1%nat = 0%nat => O_S 0 (eq_sym H))).
Defined.


(** With cascading on, the preview of the description is the one without
    it, and more. *)
Lemma cascade_only_appends_example :
  cascade (EditSession.scope cascadingSession) = true
  /\ @EditSession.previewOne wholeText cascadingSession (demoEntity 3 "T3") description
     = @EditSession.previewOne wholeText (withoutCascade cascadingSession)
         (demoEntity 3 "T3") description
       ++ NL ++ join NL (cascadeSection (demoEntity 3 "T3") None).
Proof.
  split; [reflexivity|].
  exact (proj1 (@cascade_only_appends wholeText cascadingSession (demoEntity 3 "T3")
                  description DEFAULT_SCOPE) eq_refl).
Defined.

(** The edited description is what [getDiff] lists. *)
Lemma uploads_match_getDiff_example :
  (forall name, In name (keys (EditSession.editedContent editedSession)) ->
                inherited name = false)
  /\ map cd_componentName (@EditSession.getDiff wholeText editedSession)
     = map fst (List.filter (significant editedSession)
                  (EditSession.editedContent editedSession)).
Proof.
  assert (Hnames : forall name,
             In name (keys (EditSession.editedContent editedSession)) ->
             inherited name = false).
  { intros name [<-|[]]. reflexivity. }
  split; [exact Hnames|].
  exact (proj1 (@uploads_match_getDiff wholeText editedSession (worldOf scenarioScript)
                  Hnames)).
Defined.
